(** * Ganymede SDK: the x402 payment protocol and the submission retry layer

    A shallow embedding of
    - [packages/sdk/src/utils/x402-fetch.ts] (idempotency registry, payment
      authorization signer),
    - the server's x402 middleware (price parsing, payment verifier,
      challenge issuer),
    - [packages/sdk/src/client.ts] (retry delay, submission retry loop),
    together with the parts of the JavaScript platform these functions call:
    UTF-16 strings, IEEE-754 doubles, base64, JSON.

    JavaScript strings are sequences of UTF-16 code units ([list N]); numbers
    are binary64 values, taken from the Standard Library's [SpecFloat]
    (precision 53, maximal exponent 1024), whose operations are the IEEE-754
    ones computed on integers. *)

From Stdlib Require Import ZArith NArith List Bool Lia String Ascii SpecFloat.
Import ListNotations.

Set Implicit Arguments.
Set Warnings "-register-all".
Local Open Scope list_scope.

(* ================================================================== *)
(** ** JavaScript strings *)

Module JS.

(** A string value: its UTF-16 code units, each below 65536. *)
Definition jsstring := list N.

(** An ASCII literal of the source, as a string value. *)
Definition lit (s : string) : jsstring :=
  map N_of_ascii (list_ascii_of_string s).

Definition eqb (a b : jsstring) : bool :=
  if list_eq_dec N.eq_dec a b then true else false.

(** [s.startsWith(p)] *)
Fixpoint startsWith (p s : jsstring) : bool :=
  match p, s with
  | [], _ => true
  | _ :: _, [] => false
  | a :: p', b :: s' => N.eqb a b && startsWith p' s'
  end.

(** [s.includes(p)]: [p] occurs in [s] as a contiguous run of code units. *)
Fixpoint includes (s p : jsstring) : bool :=
  startsWith p s ||
  match s with
  | [] => false
  | _ :: s' => includes s' p
  end.

(** [s.replace(c, '')] for a one-character pattern: the first occurrence
    is removed. *)
Fixpoint remove_first (c : N) (s : jsstring) : jsstring :=
  match s with
  | [] => []
  | a :: s' => if N.eqb a c then s' else a :: remove_first c s'
  end.

(** [s.slice(n)] for [n >= 0]. *)
Definition slice (n : nat) (s : jsstring) : jsstring := skipn n s.

(** Truthiness of a string: the empty string is falsy. *)
Definition truthy (s : jsstring) : bool :=
  match s with [] => false | _ :: _ => true end.

(** [a || b] on two possibly missing strings ([null], [undefined] and the
    empty string are falsy). *)
Definition or_else (a b : option jsstring) : option jsstring :=
  match a with
  | Some s => if truthy s then Some s else b
  | None => b
  end.

(** [a || 'literal'] *)
Definition or_default (a : option jsstring) (d : jsstring) : jsstring :=
  match a with
  | Some s => if truthy s then s else d
  | None => d
  end.

(** Decimal digits of a natural number, most significant first. The fuel
    bounds the number of digits; [digits_of_N] supplies enough. *)
Fixpoint digits_fuel (fuel : nat) (n : N) (acc : jsstring) : jsstring :=
  match fuel with
  | O => acc
  | S fuel' =>
      let acc' := (48 + n mod 10)%N :: acc in
      if (n <? 10)%N then acc' else digits_fuel fuel' (n / 10)%N acc'
  end.

Definition digits_of_N (n : N) : jsstring :=
  digits_fuel (S (N.to_nat (N.log2 n))) n [].

(** The decimal rendering of an integer: what a template literal or
    [String(x)] gives for an integral number of magnitude below 10^21. *)
Definition string_of_Z (z : Z) : jsstring :=
  match z with
  | Z0 => [48%N]
  | Zpos p => digits_of_N (Npos p)
  | Zneg p => 45%N :: digits_of_N (Npos p)
  end.

Definition is_digit (c : N) : bool := (48 <=? c)%N && (c <=? 57)%N.

(** The value of a run of decimal digits. *)
Definition value_of_digits (ds : jsstring) : Z :=
  fold_left (fun acc c => (acc * 10 + (Z.of_N c - 48))%Z) ds 0%Z.

(** WhiteSpace and LineTerminator code points of ECMAScript, trimmed by
    [parseInt], [parseFloat]. *)
Definition is_whitespace (c : N) : bool :=
  existsb (N.eqb c)
    [9; 10; 11; 12; 13; 32; 160; 5760; 8192; 8193; 8194; 8195; 8196; 8197;
     8198; 8199; 8200; 8201; 8202; 8232; 8233; 8239; 8287; 12288; 65279]%N.

Fixpoint trim_start (s : jsstring) : jsstring :=
  match s with
  | c :: s' => if is_whitespace c then trim_start s' else s
  | [] => []
  end.

(** Longest prefix satisfying [p], and the rest. *)
Fixpoint span (p : N -> bool) (s : jsstring) : jsstring * jsstring :=
  match s with
  | c :: s' =>
      if p c then let (a, b) := span p s' in (c :: a, b) else ([], s)
  | [] => ([], [])
  end.

End JS.

(* ================================================================== *)
(** ** JavaScript numbers *)

Module Num.
Import JS.

(** A Number value: a binary64 float. *)
Definition number := spec_float.

Definition prec : Z := 53.
Definition emax : Z := 1024.

Definition NaN : number := S754_nan.
Definition mul : number -> number -> number := SFmul prec emax.
Definition div : number -> number -> number := SFdiv prec emax.
(** [a < b], [a === b] on numbers; [a > b] is [ltb b a]. *)
Definition ltb : number -> number -> bool := SFltb.
Definition eqb : number -> number -> bool := SFeqb.
Definition gtb (a b : number) : bool := ltb b a.

(** The Number nearest to an integer (ties to even). *)
Definition of_Z (z : Z) : number := binary_normalize prec emax z 0 false.

(** The Number nearest to [(-1)^neg * m * 10^e] for [m >= 0] (ties to
    even): the value of a decimal literal with digits [m] and exponent
    [e]. A zero literal keeps its sign. *)
Definition of_decimal (neg : bool) (m : Z) (e : Z) : number :=
  match m with
  | Zpos p =>
      if (0 <=? e)%Z
      then binary_normalize prec emax
             (if neg then Z.opp (m * 10 ^ e) else (m * 10 ^ e))%Z 0 false
      else div (S754_finite neg p 0)
               (S754_finite false (Z.to_pos (10 ^ (- e))) 0)
  | _ => S754_zero neg
  end.

(** [Math.pow(10, d)] for an integral exponent [d]. *)
Definition pow10 (d : Z) : number := of_decimal false 1 d.

(** [Math.floor(x)] *)
Definition floor (x : number) : number :=
  match x with
  | S754_finite s m e =>
      if (0 <=? e)%Z then x
      else
        let q := Z.shiftr (Zpos m) (- e) in
        let exact := Z.eqb (Z.shiftl q (- e)) (Zpos m) in
        if s
        then of_Z (if exact then - q else - (q + 1))
        else match q with Z0 => S754_zero false | _ => of_Z q end
  | _ => x
  end.

(** The integer a finite integral Number denotes, if it is one. *)
Definition to_Z (x : number) : option Z :=
  match x with
  | S754_zero _ => Some 0%Z
  | S754_finite s m e =>
      if (0 <=? e)%Z
      then Some ((if s then Zneg m else Zpos m) * 2 ^ e)%Z
      else
        let q := Z.shiftr (Zpos m) (- e) in
        if Z.eqb (Z.shiftl q (- e)) (Zpos m)
        then Some (if s then - q else q)%Z
        else None
  | _ => None
  end.

(** *** [parseInt(string)] with no radix argument *)

Definition is_hex_digit (c : N) : bool :=
  is_digit c || ((65 <=? c) && (c <=? 70))%N || ((97 <=? c) && (c <=? 102))%N.

Definition hex_value (c : N) : Z :=
  if is_digit c then Z.of_N c - 48
  else if (c <=? 70)%N then Z.of_N c - 55
  else Z.of_N c - 87.

Definition value_of_hex (ds : jsstring) : Z :=
  fold_left (fun acc c => (acc * 16 + hex_value c)%Z) ds 0%Z.

(** A leading sign: [(negative, rest)]. *)
Definition take_sign (s : jsstring) : bool * jsstring :=
  match s with
  | 45%N :: r => (true, r)
  | 43%N :: r => (false, r)
  | _ => (false, s)
  end.

Definition signed (neg : bool) (z : Z) : number :=
  match z with
  | Z0 => S754_zero neg
  | _ => of_Z (if neg then - z else z)
  end.

Definition parseInt (s : jsstring) : number :=
  let (neg, r) := take_sign (trim_start s) in
  match r with
  | 48%N :: x :: r' =>
      if (N.eqb x 120 || N.eqb x 88)%bool
      then match fst (span is_hex_digit r') with
           | [] => NaN
           | ds => signed neg (value_of_hex ds)
           end
      else signed neg (value_of_digits (fst (span is_digit r)))
  | _ =>
      match fst (span is_digit r) with
      | [] => NaN
      | ds => signed neg (value_of_digits ds)
      end
  end.

(** *** [parseFloat(string)]: the longest prefix that is a
    StrDecimalLiteral *)

(** An exponent part [e], [e+], [e-] followed by digits; absent when no
    digit follows. *)
Definition exponent_part (s : jsstring) : Z * jsstring :=
  match s with
  | c :: r =>
      if (N.eqb c 101 || N.eqb c 69)%bool
      then
        let (neg, r') := take_sign r in
        match span is_digit r' with
        | ([], _) => (0%Z, s)
        | (ds, rest) =>
            ((if neg then - value_of_digits ds else value_of_digits ds)%Z, rest)
        end
      else (0%Z, s)
  | [] => (0%Z, s)
  end.

(** Digits, an optional fraction and an optional exponent:
    [Some ((m, e), rest)] for the literal of value [m * 10^e]. *)
Definition decimal_literal (s : jsstring) : option ((Z * Z) * jsstring) :=
  let (ip, r1) := span is_digit s in
  let '(fp, r2, dot) :=
    match r1 with
    | 46%N :: r => let (fp, r2) := span is_digit r in (fp, r2, true)
    | _ => ([], r1, false)
    end in
  match ip, fp with
  | [], [] => None
  | _, _ =>
      let (ex, rest) := exponent_part r2 in
      Some ((value_of_digits (ip ++ fp)%list, (ex - Z.of_nat (List.length fp))%Z), rest)
  end.

Definition infinity_word : jsstring := lit "Infinity".

Definition parseFloat (s : jsstring) : number :=
  let (neg, r) := take_sign (trim_start s) in
  if startsWith infinity_word r then S754_infinity neg
  else match decimal_literal r with
       | Some ((m, e), _) => of_decimal neg m e
       | None => NaN
       end.

(** *** [Number::toString(x)] in radix 10

    The digits are the shortest decimal [s * 10^(n-k)] (with [k] digits)
    that reads back as [x]; among several of that length, the nearest. *)

(** [v = num / den > 0]: the [n] with [10^(n-1) <= v < 10^n]. *)
Fixpoint scale_up (fuel : nat) (num den : Z) (j : Z) : Z :=
  match fuel with
  | O => j
  | S fuel' =>
      if (den <=? num * 10 ^ j)%Z then j else scale_up fuel' num den (j + 1)%Z
  end.

Definition decimal_exponent (num den : Z) : Z :=
  if (den <=? num)%Z
  then Z.of_nat (List.length (digits_of_N (Z.to_N (num / den))))
  else (1 - scale_up 400 num den 1)%Z.

(** The candidate with [k] digits, if one reads back as [x]:
    [(s, n)]. *)
Definition candidate (x : number) (num den n k : Z) : option (Z * Z) :=
  let sh := (n - k)%Z in
  let (a, b) := if (0 <=? sh)%Z then (num, den * 10 ^ sh)%Z
                else (num * 10 ^ (- sh), den)%Z in
  let lo := (a / b)%Z in
  let r := (a mod b)%Z in
  let hi := (lo + 1)%Z in
  let ok c := match x, of_decimal false c sh with
              | S754_finite _ m e, S754_finite _ m' e' =>
                  Pos.eqb m m' && Z.eqb e e'
              | _, _ => false
              end in
  let pick_hi := if (hi =? 10 ^ k)%Z then Some (10 ^ (k - 1), n + 1)%Z
                 else Some (hi, n) in
  match ok lo, ok hi with
  | true, true =>
      if (2 * r <? b)%Z then Some (lo, n)
      else if (b <? 2 * r)%Z then pick_hi
      else if Z.even lo then Some (lo, n) else pick_hi
  | true, false => Some (lo, n)
  | false, true => pick_hi
  | false, false => None
  end.

Fixpoint shortest (fuel : nat) (x : number) (num den n k : Z)
  : Z * Z * Z :=
  match fuel with
  | O => (0, k, n)%Z
  | S fuel' =>
      match candidate x num den n k with
      | Some (s, n') => (s, k, n')
      | None => shortest fuel' x num den n (k + 1)%Z
      end
  end.

Definition zeros (n : Z) : jsstring := repeat 48%N (Z.to_nat n).

Definition render (s k n : Z) : jsstring :=
  let D := digits_of_N (Z.to_N s) in
  if ((k <=? n) && (n <=? 21))%Z%bool then D ++ zeros (n - k)
  else if ((0 <? n) && (n <=? 21))%Z%bool
  then firstn (Z.to_nat n) D ++ [46%N] ++ skipn (Z.to_nat n) D
  else if ((-6 <? n) && (n <=? 0))%Z%bool
  then [48%N; 46%N] ++ zeros (- n) ++ D
  else
    let e := (n - 1)%Z in
    let ex := (if (e <? 0)%Z then 45%N else 43%N)
                :: digits_of_N (Z.to_N (Z.abs e)) in
    match D with
    | [d] => d :: 101%N :: ex
    | d :: ds => d :: 46%N :: ds ++ 101%N :: ex
    | [] => []
    end.

Definition toString (x : number) : jsstring :=
  match x with
  | S754_nan => lit "NaN"
  | S754_zero _ => lit "0"
  | S754_infinity s => if s then lit "-Infinity" else lit "Infinity"
  | S754_finite sg m e =>
      let (num, den) := if (0 <=? e)%Z then (Zpos m * 2 ^ e, 1)%Z
                        else (Zpos m, 2 ^ (- e))%Z in
      let n := decimal_exponent num den in
      let '(s, k, n') := shortest 17 x num den n 1 in
      (if sg then [45%N] else []) ++ render s k n'
  end.

End Num.

(* ================================================================== *)
(** ** Bytes: UTF-8 and base64 *)

Module Base64.
Import JS.

Definition bytes := list N.

Definition is_high_surrogate (c : N) : bool := (55296 <=? c)%N && (c <=? 56319)%N.
Definition is_low_surrogate (c : N) : bool := (56320 <=? c)%N && (c <=? 57343)%N.

(** The UTF-8 bytes of a string, as [Buffer.from(s)] and
    [new TextEncoder().encode(s)] produce them; an unpaired surrogate
    becomes U+FFFD. *)
Fixpoint utf8 (s : jsstring) : bytes :=
  match s with
  | [] => []
  | c :: r =>
      if (c <? 128)%N then c :: utf8 r
      else if (c <? 2048)%N
      then (192 + c / 64)%N :: (128 + c mod 64)%N :: utf8 r
      else if is_high_surrogate c
      then match r with
           | d :: r' =>
               if is_low_surrogate d
               then let cp := (65536 + (c - 55296) * 1024 + (d - 56320))%N in
                    (240 + cp / 262144)%N :: (128 + (cp / 4096) mod 64)%N
                      :: (128 + (cp / 64) mod 64)%N :: (128 + cp mod 64)%N
                      :: utf8 r'
               else 239%N :: 191%N :: 189%N :: utf8 r
           | [] => [239; 191; 189]%N
           end
      else if is_low_surrogate c
      then 239%N :: 191%N :: 189%N :: utf8 r
      else (224 + c / 4096)%N :: (128 + (c / 64) mod 64)%N
             :: (128 + c mod 64)%N :: utf8 r
  end.

Definition alphabet : jsstring :=
  lit "ABCDEFGHIJKLMNOPQRSTUVWXYZabcdefghijklmnopqrstuvwxyz0123456789+/".
Definition url_alphabet : jsstring :=
  lit "ABCDEFGHIJKLMNOPQRSTUVWXYZabcdefghijklmnopqrstuvwxyz0123456789-_".

Definition pad_char : N := 61.

(** Base64 of a byte sequence over an alphabet, with or without padding. *)
Fixpoint encode (alpha : jsstring) (pad : bool) (bs : bytes) : jsstring :=
  let e (i : N) := nth (N.to_nat i) alpha 0%N in
  match bs with
  | a :: b :: c :: r =>
      e (a / 4)%N :: e ((a mod 4) * 16 + b / 16)%N
        :: e ((b mod 16) * 4 + c / 64)%N :: e (c mod 64)%N
        :: encode alpha pad r
  | [a; b] =>
      e (a / 4)%N :: e ((a mod 4) * 16 + b / 16)%N :: e ((b mod 16) * 4)%N
        :: (if pad then [pad_char] else [])
  | [a] =>
      e (a / 4)%N :: e ((a mod 4) * 16)%N
        :: (if pad then [pad_char; pad_char] else [])
  | [] => []
  end.

(** [buf.toString('base64')], [buf.toString('base64url')] *)
Definition to_base64 (bs : bytes) : jsstring := encode alphabet true bs.
Definition to_base64url (bs : bytes) : jsstring := encode url_alphabet false bs.

(** [btoa(s)]: every code unit must be a byte (Latin-1), otherwise
    [InvalidCharacterError] is thrown ([None]). *)
Definition btoa (s : jsstring) : option jsstring :=
  if forallb (fun c => (c <=? 255)%N) s then Some (to_base64 s) else None.

(** The sextet a base64 character stands for. *)
Definition sextet (c : N) : option N :=
  if ((65 <=? c) && (c <=? 90))%N then Some (c - 65)%N
  else if ((97 <=? c) && (c <=? 122))%N then Some (c - 71)%N
  else if ((48 <=? c) && (c <=? 57))%N then Some (c + 4)%N
  else if (c =? 43)%N then Some 62%N
  else if (c =? 47)%N then Some 63%N
  else None.

Fixpoint sextets (s : jsstring) : option (list N) :=
  match s with
  | [] => Some []
  | c :: r =>
      match sextet c, sextets r with
      | Some v, Some vs => Some (v :: vs)
      | _, _ => None
      end
  end.

Fixpoint decode (vs : list N) : bytes :=
  match vs with
  | a :: b :: c :: d :: r =>
      (a * 4 + b / 16)%N :: ((b mod 16) * 16 + c / 4)%N
        :: ((c mod 4) * 64 + d)%N :: decode r
  | [a; b; c] => [a * 4 + b / 16; (b mod 16) * 16 + c / 4]%N
  | [a; b] => [a * 4 + b / 16]%N
  | _ => []
  end.

Definition is_ascii_whitespace (c : N) : bool :=
  existsb (N.eqb c) [9; 10; 12; 13; 32]%N.

(** One or two [=] at the very end are dropped. *)
Fixpoint drop_padding (s : jsstring) : jsstring :=
  match s with
  | [] => []
  | c :: r =>
      if (c =? pad_char)%N
      then match r with
           | [] => []
           | [d] => if (d =? pad_char)%N then [] else c :: drop_padding r
           | _ => c :: drop_padding r
           end
      else c :: drop_padding r
  end.

(** [atob(s)] (forgiving-base64 decode): ASCII whitespace is ignored,
    padding is optional; [None] stands for [InvalidCharacterError]. The
    result is a string of bytes. *)
Definition atob (s : jsstring) : option jsstring :=
  let d := filter (fun c => negb (is_ascii_whitespace c)) s in
  let d := if (Nat.modulo (List.length d) 4 =? 0)%nat then drop_padding d else d in
  if (Nat.modulo (List.length d) 4 =? 1)%nat then None
  else option_map decode (sextets d).

End Base64.

(* ================================================================== *)
(** ** JSON *)

Module Json.
Import JS Num Base64.

(** The values [JSON.parse] returns. An object keeps its members in
    insertion order (array-index keys, which JavaScript lists first, do
    not occur in this code base). *)
#[local] Unset Elimination Schemes.
Inductive json : Type :=
| JNull
| JBool (b : bool)
| JNum (x : number)
| JStr (s : jsstring)
| JArr (l : list json)
| JObj (m : list (jsstring * json)).
#[local] Set Elimination Schemes.

(** [v.k]: the member of an object; [undefined] ([None]) otherwise. *)
Fixpoint assoc (k : jsstring) (m : list (jsstring * json)) : option json :=
  match m with
  | [] => None
  | (k', v) :: r => if JS.eqb k k' then Some v else assoc k r
  end.

(** *** [JSON.stringify] *)

Definition hex_digit (n : N) : N :=
  if (n <? 10)%N then (48 + n)%N else (87 + n)%N.

(** [\uXXXX] with lowercase hexadecimal digits. *)
Definition uescape (c : N) : jsstring :=
  [92; 117; hex_digit (c / 4096); hex_digit ((c / 256) mod 16);
   hex_digit ((c / 16) mod 16); hex_digit (c mod 16)]%N.

(** QuoteJSONString without the surrounding quotes. *)
Fixpoint quote_body (s : jsstring) : jsstring :=
  match s with
  | [] => []
  | c :: r =>
      if (c =? 8)%N then 92%N :: 98%N :: quote_body r
      else if (c =? 9)%N then 92%N :: 116%N :: quote_body r
      else if (c =? 10)%N then 92%N :: 110%N :: quote_body r
      else if (c =? 12)%N then 92%N :: 102%N :: quote_body r
      else if (c =? 13)%N then 92%N :: 114%N :: quote_body r
      else if (c =? 34)%N then 92%N :: 34%N :: quote_body r
      else if (c =? 92)%N then 92%N :: 92%N :: quote_body r
      else if (c <? 32)%N then uescape c ++ quote_body r
      else if is_high_surrogate c
      then match r with
           | d :: r' =>
               if is_low_surrogate d then c :: d :: quote_body r'
               else uescape c ++ quote_body r
           | [] => uescape c
           end
      else if is_low_surrogate c then uescape c ++ quote_body r
      else c :: quote_body r
  end.

Definition quote (s : jsstring) : jsstring := 34%N :: quote_body s ++ [34%N].

Definition stringify_number (x : number) : jsstring :=
  match x with
  | S754_nan | S754_infinity _ => lit "null"
  | _ => toString x
  end.

Fixpoint stringify (v : json) : jsstring :=
  match v with
  | JNull => lit "null"
  | JBool b => if b then lit "true" else lit "false"
  | JNum x => stringify_number x
  | JStr s => quote s
  | JArr l =>
      91%N :: (fix elements (l : list json) : jsstring :=
                 match l with
                 | [] => []
                 | [x] => stringify x
                 | x :: r => stringify x ++ 44%N :: elements r
                 end) l ++ [93%N]
  | JObj m =>
      123%N :: (fix members (m : list (jsstring * json)) : jsstring :=
                  match m with
                  | [] => []
                  | [(k, x)] => quote k ++ 58%N :: stringify x
                  | (k, x) :: r =>
                      quote k ++ 58%N :: stringify x ++ 44%N :: members r
                  end) m ++ [125%N]
  end.

(** An object literal of the source: a property whose value is
    [undefined] is left out by [JSON.stringify]. *)
Fixpoint object (fields : list (jsstring * option json))
  : list (jsstring * json) :=
  match fields with
  | [] => []
  | (k, Some v) :: r => (k, v) :: object r
  | (_, None) :: r => object r
  end.

(** *** [JSON.parse] *)

Definition is_json_whitespace (c : N) : bool :=
  existsb (N.eqb c) [9; 10; 13; 32]%N.

Fixpoint skip_ws (s : jsstring) : jsstring :=
  match s with
  | c :: r => if is_json_whitespace c then skip_ws r else s
  | [] => []
  end.

Definition hex4 (a b c d : N) : option N :=
  if (is_hex_digit a && is_hex_digit b && is_hex_digit c && is_hex_digit d)%bool
  then Some (Z.to_N (value_of_hex [a; b; c; d]))
  else None.

(** The characters of a string literal after the opening quote, up to
    the closing one: [(value, rest)]. *)
Fixpoint parse_string_body (s : jsstring) : option (jsstring * jsstring) :=
  let cons (c : N) (r : jsstring) :=
    match parse_string_body r with
    | Some (str, rest) => Some (c :: str, rest)
    | None => None
    end in
  match s with
  | [] => None
  | c :: r =>
      if (c =? 34)%N then Some ([], r)
      else if (c =? 92)%N
      then match r with
           | e :: r1 =>
               if (e =? 34)%N then cons 34%N r1
               else if (e =? 92)%N then cons 92%N r1
               else if (e =? 47)%N then cons 47%N r1
               else if (e =? 98)%N then cons 8%N r1
               else if (e =? 102)%N then cons 12%N r1
               else if (e =? 110)%N then cons 10%N r1
               else if (e =? 114)%N then cons 13%N r1
               else if (e =? 116)%N then cons 9%N r1
               else if (e =? 117)%N
               then match r1 with
                    | h1 :: h2 :: h3 :: h4 :: r2 =>
                        match hex4 h1 h2 h3 h4 with
                        | Some u => cons u r2
                        | None => None
                        end
                    | _ => None
                    end
               else None
           | [] => None
           end
      else if (c <? 32)%N then None
      else cons c r
  end.

Definition is_number_char (c : N) : bool :=
  is_digit c || existsb (N.eqb c) [45; 43; 46; 101; 69]%N.

(** A complete JSON number token: [-? int frac? exp?]. *)
Definition number_of_token (tok : jsstring) : option number :=
  let (neg, r) := match tok with
                  | 45%N :: r => (true, r)
                  | _ => (false, tok)
                  end in
  let (ip, r1) := span is_digit r in
  let int_ok := match ip with
                | [] => false
                | [_] => true
                | d :: _ => negb (d =? 48)%N
                end in
  let '(fp, r2, frac_ok) :=
    match r1 with
    | 46%N :: r' =>
        let (fp, r2) := span is_digit r' in (fp, r2, JS.truthy fp)
    | _ => ([], r1, true)
    end in
  let (ex, r3) := exponent_part r2 in
  if (int_ok && frac_ok && negb (JS.truthy r3))%bool
  then Some (of_decimal neg (value_of_digits (ip ++ fp))
               (ex - Z.of_nat (List.length fp)))
  else None.

Definition expect (c : N) (s : jsstring) : option jsstring :=
  match s with
  | a :: r => if (a =? c)%N then Some r else None
  | [] => None
  end.

(** Duplicate names in an object: the last value wins, at the position
    of the first. *)
Fixpoint obj_set (k : jsstring) (v : json) (m : list (jsstring * json))
  : list (jsstring * json) :=
  match m with
  | [] => [(k, v)]
  | (k', v') :: r =>
      if JS.eqb k k' then (k', v) :: r else (k', v') :: obj_set k v r
  end.

Definition make_object (raw : list (jsstring * json)) : json :=
  JObj (fold_left (fun m kv => obj_set (fst kv) (snd kv) m) raw []).

(** After [\[] or a comma: the elements up to the closing bracket, each
    read by [value]. *)
Fixpoint parse_elements (value : jsstring -> option (json * jsstring))
         (n : nat) (s : jsstring) : option (list json * jsstring) :=
  match n with
  | O => None
  | S n' =>
      match value s with
      | Some (v, r) =>
          match skip_ws r with
          | c :: r' =>
              if (c =? 44)%N
              then match parse_elements value n' r' with
                   | Some (vs, rest) => Some (v :: vs, rest)
                   | None => None
                   end
              else if (c =? 93)%N then Some ([v], r')
              else None
          | [] => None
          end
      | None => None
      end
  end.

(** After [{] or a comma: the members up to the closing brace. *)
Fixpoint parse_members (value : jsstring -> option (json * jsstring))
         (n : nat) (s : jsstring)
  : option (list (jsstring * json) * jsstring) :=
  match n with
  | O => None
  | S n' =>
      match expect 34 (skip_ws s) with
      | Some r0 =>
          match parse_string_body r0 with
          | Some (k, r1) =>
              match expect 58 (skip_ws r1) with
              | Some r2 =>
                  match value r2 with
                  | Some (v, r3) =>
                      match skip_ws r3 with
                      | c :: r' =>
                          if (c =? 44)%N
                          then match parse_members value n' r' with
                               | Some (kvs, rest) => Some ((k, v) :: kvs, rest)
                               | None => None
                               end
                          else if (c =? 125)%N then Some ([(k, v)], r')
                          else None
                      | [] => None
                      end
                  | None => None
                  end
              | None => None
              end
          | None => None
          end
      | None => None
      end
  end.

(** A value, then the text after it. Every call consumes a character,
    so fuel equal to the length of the text suffices. *)
Fixpoint parse_value (fuel : nat) (s : jsstring) : option (json * jsstring) :=
  match fuel with
  | O => None
  | S fuel' =>
      match skip_ws s with
      | [] => None
      | c :: r =>
          if (c =? 123)%N then
            match expect 125 (skip_ws r) with
            | Some r' => Some (JObj [], r')
            | None =>
                match parse_members (parse_value fuel') fuel' r with
                | Some (kvs, rest) => Some (make_object kvs, rest)
                | None => None
                end
            end
          else if (c =? 91)%N then
            match expect 93 (skip_ws r) with
            | Some r' => Some (JArr [], r')
            | None =>
                match parse_elements (parse_value fuel') fuel' r with
                | Some (vs, rest) => Some (JArr vs, rest)
                | None => None
                end
            end
          else if (c =? 34)%N then
            match parse_string_body r with
            | Some (str, rest) => Some (JStr str, rest)
            | None => None
            end
          else if startsWith (lit "true") (c :: r)
          then Some (JBool true, skipn 4 (c :: r))
          else if startsWith (lit "false") (c :: r)
          then Some (JBool false, skipn 5 (c :: r))
          else if startsWith (lit "null") (c :: r)
          then Some (JNull, skipn 4 (c :: r))
          else
            let (tok, rest) := span is_number_char (c :: r) in
            match number_of_token tok with
            | Some x => Some (JNum x, rest)
            | None => None
            end
      end
  end.

(** [JSON.parse(text)]; [None] stands for the [SyntaxError] it throws. *)
Definition parse (text : jsstring) : option json :=
  match parse_value (S (List.length text)) text with
  | Some (v, rest) =>
      match skip_ws rest with
      | [] => Some v
      | _ => None
      end
  | None => None
  end.

(** *** Reading a parsed value *)

(** ToString of a value, as [parseInt] applies it to its argument. *)
Fixpoint to_string (v : json) : jsstring :=
  match v with
  | JNull => lit "null"
  | JBool b => if b then lit "true" else lit "false"
  | JNum x => toString x
  | JStr s => s
  | JArr l =>
      (fix join (l : list json) : jsstring :=
         match l with
         | [] => []
         | [x] => match x with JNull => [] | _ => to_string x end
         | x :: r => match x with JNull => [] | _ => to_string x end
                       ++ 44%N :: join r
         end) l
  | JObj _ => lit "[object Object]"
  end.

End Json.


(* ================================================================== *)
(** ** Thrown values and results ([packages/sdk/src/types.ts]) *)

Module Err.
Import JS.

Inductive GanymedeErrorCode : Type :=
| WALLET_NOT_CONNECTED
| WALLET_SIGNING_FAILED
| PAYMENT_DECLINED
| PAYMENT_EXCEEDED_LIMIT
| QUOTE_FAILED
| SWAP_FAILED
| NETWORK_ERROR
| INVALID_PARAMS.

(** What a [throw] or a rejected promise carries. *)
Inductive thrown : Type :=
| GanymedeError (code : GanymedeErrorCode) (message : jsstring)
                (cause : option thrown)
| JsError (name message : jsstring)   (* any other instance of Error *)
| NonError                            (* a thrown value that is no Error *)
| Unmodelled.                         (* the run left what this model covers;
                                         no handler catches it *)

(** [e instanceof GanymedeError] *)
Definition is_GanymedeError (e : thrown) : bool :=
  match e with GanymedeError _ _ _ => true | _ => false end.

(** [e.message] when [e instanceof Error] *)
Definition error_message (e : thrown) : option jsstring :=
  match e with
  | GanymedeError _ m _ => Some m
  | JsError _ m => Some m
  | _ => None
  end.

Definition error_name (e : thrown) : option jsstring :=
  match e with
  | GanymedeError _ _ _ => Some (lit "GanymedeError")
  | JsError n _ => Some n
  | _ => None
  end.

(** The TypeError of a property read on [null] or [undefined]; the
    wording is the engine's. *)
Definition TypeError : thrown :=
  JsError (lit "TypeError") (lit "Cannot read properties of undefined").

(** The error [btoa] and [atob] throw. *)
Definition InvalidCharacterError : thrown :=
  JsError (lit "InvalidCharacterError") (lit "Invalid character").

(** The error [JSON.parse] throws. *)
Definition SyntaxError : thrown :=
  JsError (lit "SyntaxError") (lit "Unexpected token in JSON").

Inductive result (A : Type) : Type :=
| Ok (a : A)
| Throw (e : thrown).
Arguments Ok {A} a.
Arguments Throw {A} e.

(** Computations over a state [S] that may throw: the state is kept when
    they do. *)
Definition M (S A : Type) : Type := S -> result A * S.

Definition ret {S A} (a : A) : M S A := fun s => (Ok a, s).
Definition throw {S A} (e : thrown) : M S A := fun s => (Throw e, s).
Definition bind {S A B} (m : M S A) (k : A -> M S B) : M S B :=
  fun s => match m s with
           | (Ok a, s') => k a s'
           | (Throw e, s') => (Throw e, s')
           end.
(** [try { m } catch (e) { h e }] *)
Definition try_catch {S A} (m : M S A) (h : thrown -> M S A) : M S A :=
  fun s => match m s with
           | (Ok a, s') => (Ok a, s')
           | (Throw Unmodelled, s') => (Throw Unmodelled, s')
           | (Throw e, s') => h e s'
           end.
(** A pure step that may throw. *)
Definition lift {S A} (r : result A) : M S A := fun s => (r, s).

End Err.

Declare Scope js_scope.
Delimit Scope js_scope with js.
Notation "x <- m ;; k" := (Err.bind m (fun x => k))
  (at level 61, m at next level, right associativity) : js_scope.
Notation "m ;;; k" := (Err.bind m (fun _ => k))
  (at level 61, right associativity) : js_scope.

(* ================================================================== *)
(** ** [packages/sdk/src/client.ts]: the submission reliability layer *)

Module Client.
Import JS Err.
Local Open Scope js_scope.

(** Maximum retry attempts for transactions *)
Definition MAX_RETRY_ATTEMPTS : Z := 3.
(** Base delay for exponential backoff (ms) *)
Definition BASE_RETRY_DELAY : Z := 500.
(** Maximum retry delay (ms) *)
Definition MAX_RETRY_DELAY : Z := 5000.

Record BlockhashData : Type := {
  blockhash : jsstring;
  lastValidBlockHeight : Z
}.

(** One call of the ledger client ([Connection]) with its outcome, or a
    timer. *)
Inductive call : Type :=
| GetBlockHeight (out : result Z)
| GetLatestBlockhash (out : result BlockhashData)
| SendRawTransaction (tx : list N) (out : result jsstring)
| ConfirmTransaction (txid : jsstring) (bh : BlockhashData)
                     (out : result (option jsstring))
| Sleep (ms : Z).

(** The ledger client: each answer may depend on everything that
    happened before. [confirm] answers with [confirmation.value.err]
    (its JSON text), [None] when the transaction succeeded. *)
Record Connection : Type := {
  getBlockHeight : list call -> result Z;
  latestBlockhash : list call -> result BlockhashData;
  sendRawTransaction : list call -> list N -> result jsstring;
  confirm : list call -> jsstring -> BlockhashData -> result (option jsstring)
}.

Definition perform {A} (answer : list call -> result A)
           (record : result A -> call) : M (list call) A :=
  fun h => let out := answer h in (out, h ++ [record out]).

Definition sleep (ms : Z) : M (list call) unit :=
  fun h => (Ok tt, h ++ [Sleep ms]).

Definition getLatestBlockhash (connection : Connection)
  : M (list call) BlockhashData :=
  perform (latestBlockhash connection) GetLatestBlockhash.

Definition confirmTransaction (connection : Connection) (txid : jsstring)
  : M (list call) bool :=
  bh <- getLatestBlockhash connection ;;
  err <- perform (fun h => confirm connection h txid bh)
                 (ConfirmTransaction txid bh) ;;
  match err with
  | Some e =>
      throw (GanymedeError SWAP_FAILED (lit "Transaction failed: " ++ e) None)
  | None => ret true
  end.

Definition hasTransactionExpired (connection : Connection)
           (lastValidBlockHeight : Z) : M (list call) bool :=
  currentBlockHeight <- perform (getBlockHeight connection) GetBlockHeight ;;
  ret (lastValidBlockHeight <? currentBlockHeight)%Z.

(** For integral [attempt >= 0], the loop counter. *)
Definition getRetryDelay (attempt : Z) : Z :=
  let delay := (BASE_RETRY_DELAY * 2 ^ attempt)%Z in
  Z.min delay MAX_RETRY_DELAY.

Definition expired_error : thrown :=
  GanymedeError SWAP_FAILED
    (lit "Transaction blockhash has expired. Please rebuild the transaction.")
    None.

(** The body of the [try] block of one attempt. *)
Definition attempt_body (connection : Connection)
           (serializedTransaction : list N) (blockhashData : BlockhashData)
  : M (list call) jsstring :=
  expired <- hasTransactionExpired connection
               (lastValidBlockHeight blockhashData) ;;
  if expired then throw expired_error
  else
    txid <- perform
              (fun h => sendRawTransaction connection h serializedTransaction)
              (SendRawTransaction serializedTransaction) ;;
    confirmTransaction connection txid ;;;
    ret txid.

(** The [for] loop from [attempt] on; [remaining] is
    [MAX_RETRY_ATTEMPTS + 1 - attempt], so the loop condition
    [attempt <= MAX_RETRY_ATTEMPTS] holds exactly when it is not zero.
    After the loop comes [throw lastError]. *)
Fixpoint attempts_from (connection : Connection)
         (serializedTransaction : list N) (blockhashData : BlockhashData)
         (remaining : nat) (attempt : Z) (lastError : option thrown)
  : M (list call) jsstring :=
  match remaining with
  | O => throw (match lastError with Some e => e | None => NonError end)
  | S remaining' =>
      try_catch
        (attempt_body connection serializedTransaction blockhashData)
        (fun error =>
           match error_message error with
           | None => throw TypeError   (* [lastError.message.includes] *)
           | Some message =>
               if includes message (lit "blockhash has expired")
               then throw error
               else if (MAX_RETRY_ATTEMPTS <=? attempt)%Z
               then throw
                      (GanymedeError SWAP_FAILED
                         (lit "Transaction failed after "
                            ++ string_of_Z MAX_RETRY_ATTEMPTS
                            ++ lit " retry attempts: " ++ message)
                         (Some error))
               else
                 sleep (getRetryDelay attempt) ;;;
                 attempts_from connection serializedTransaction blockhashData
                   remaining' (attempt + 1)%Z (Some error)
           end)
  end.

Definition sendTransactionWithRetry (connection : Connection)
           (serializedTransaction : list N) (blockhashData : BlockhashData)
  : M (list call) jsstring :=
  attempts_from connection serializedTransaction blockhashData
    (Z.to_nat (MAX_RETRY_ATTEMPTS + 1)) 0%Z None.

End Client.

(* ================================================================== *)
(** ** The server's x402 middleware: issuer and verifier *)

Module X402Server.
Import JS Num Base64 Json Err.
Local Open Scope js_scope.

(** Pricing configuration for x402-protected endpoints *)
Record PricingConfig : Type := {
  price : jsstring;           (* Price in USD (e.g., "$0.005") *)
  network : jsstring;         (* Network identifier in CAIP-2 format *)
  description : jsstring;
  mimeType : option jsstring
}.

Record Asset : Type := {
  address : jsstring;
  decimals : number;
  symbol : jsstring
}.

(** x402 payment requirements sent to client *)
Record PaymentRequirements : Type := {
  r_x402Version : number;
  r_scheme : jsstring;
  r_network : jsstring;
  r_maxAmountRequired : jsstring;
  r_amount : jsstring;
  r_resource : jsstring;
  r_description : jsstring;
  r_mimeType : jsstring;
  r_payTo : jsstring;
  r_maxTimeoutSeconds : number;
  r_asset : Asset
}.

(** The object [JSON.stringify] sees: the properties in the order of the
    object literal. *)
Definition requirements_json (r : PaymentRequirements) : json :=
  JObj [ (lit "x402Version", JNum (r_x402Version r));
         (lit "scheme", JStr (r_scheme r));
         (lit "network", JStr (r_network r));
         (lit "maxAmountRequired", JStr (r_maxAmountRequired r));
         (lit "amount", JStr (r_amount r));
         (lit "resource", JStr (r_resource r));
         (lit "description", JStr (r_description r));
         (lit "mimeType", JStr (r_mimeType r));
         (lit "payTo", JStr (r_payTo r));
         (lit "maxTimeoutSeconds", JNum (r_maxTimeoutSeconds r));
         (lit "asset",
          JObj [ (lit "address", JStr (address (r_asset r)));
                 (lit "decimals", JNum (decimals (r_asset r)));
                 (lit "symbol", JStr (symbol (r_asset r))) ]) ].

(** USDC token addresses by network *)
Definition USDC_ADDRESSES : list (jsstring * jsstring) :=
  [ (lit "solana:5eykt4UsFv8P8NJdTREpY1vzqKqZKvdp",
     lit "EPjFWdd5AufqSSqeM2qN1xzybapC8G4wEGGkZwyTDt1v");
    (lit "solana:EtWTRABZaYq6iMfeYKouRu166VU2xqa1",
     lit "4zMMC9srt5Ri5X14GAgXhaHii3GnPAEERYPJgZJDncDU") ].

Fixpoint lookup {A} (k : jsstring) (m : list (jsstring * A)) : option A :=
  match m with
  | [] => None
  | (k', v) :: r => if JS.eqb k k' then Some v else lookup k r
  end.

(** Parses a price string like "$0.005" into atomic units *)
Definition parsePrice (priceString : jsstring) (decimals : Z) : jsstring :=
  let numericValue := parseFloat (remove_first 36 priceString) in
  let atomicValue := Num.floor (mul numericValue (pow10 decimals)) in
  toString atomicValue.

(** *** The verifier *)

Inductive facilitator_outcome : Type :=
| Unreachable                      (* [fetch] rejected: [.catch(() => null)] *)
| Responded (ok : bool) (body : option json).
    (* [response.ok], and what [response.json()] resolves to ([None] when
       it rejects) *)

Inductive event : Type :=
| FacilitatorCall (url body : jsstring) (out : facilitator_outcome)
| DateNow (t : Z)
| MathRandom (rendered : jsstring).

(** The verifier's surroundings. [random36] is the text of
    [Math.random().toString(36)], whose digits are the engine's. *)
Record Env : Type := {
  facilitator : list event -> jsstring -> jsstring -> facilitator_outcome;
  NODE_ENV : option jsstring;
  now : list event -> Z;
  random36 : list event -> jsstring
}.

Record VerificationResult : Type := {
  valid : option json;
  txHash : option json;
  error : option json
}.

Definition invalid (reason : jsstring) : VerificationResult :=
  {| valid := Some (JBool false); txHash := None;
     error := Some (JStr reason) |}.

(** [v.k] on a parsed value: a TypeError on [null], the member of an
    object, [undefined] on anything else. *)
Definition prop (v : json) (k : jsstring) : result (option json) :=
  match v with
  | JNull => Throw TypeError
  | JObj m => Ok (assoc k m)
  | _ => Ok None
  end.

(** [x !== 1] *)
Definition not_one (x : option json) : bool :=
  match x with
  | Some (JNum n) => negb (Num.eqb n (of_Z 1))
  | _ => true
  end.

(** [x !== s] for a string [s] *)
Definition not_string (x : option json) (s : jsstring) : bool :=
  match x with
  | Some (JStr t) => negb (JS.eqb t s)
  | _ => true
  end.

Definition decode_payload (paymentSignature : jsstring) : result json :=
  match atob paymentSignature with
  | None => Throw InvalidCharacterError
  | Some payloadJson =>
      match parse payloadJson with
      | None => Throw SyntaxError
      | Some payload => Ok payload
      end
  end.

Definition production : jsstring := lit "production".

Definition dev_txHash (t : Z) (random : jsstring) : jsstring :=
  lit "dev_" ++ string_of_Z t ++ lit "_" ++ slice 2 random.

(** Verifies an x402 payment signature *)
Definition verifyPayment (env : Env) (paymentSignature : jsstring)
           (requirements : PaymentRequirements) (facilitatorUrl : jsstring)
  : M (list event) VerificationResult :=
  try_catch
    (payload <- lift (decode_payload paymentSignature) ;;
     version <- lift (prop payload (lit "x402Version")) ;;
     if not_one version
     then ret (invalid (lit "Invalid x402 version"))
     else
       net <- lift (prop payload (lit "network")) ;;
       if not_string net (r_network requirements)
       then ret (invalid (lit "Network mismatch"))
       else
         let url := facilitatorUrl ++ lit "/verify" in
         let body := stringify
                       (JObj [ (lit "paymentPayload", payload);
                               (lit "paymentRequirements",
                                requirements_json requirements) ]) in
         response <- (fun h => let out := facilitator env h url body in
                               (Ok out, h ++ [FacilitatorCall url body out])) ;;
         match response with
         | Responded true None => throw SyntaxError
         | Responded true (Some result) =>
             v <- lift (prop result (lit "valid")) ;;
             t <- lift (prop result (lit "txHash")) ;;
             m <- lift (prop result (lit "message")) ;;
             ret {| valid := v; txHash := t; error := m |}
         | _ =>
             if negb (match NODE_ENV env with
                      | Some e => JS.eqb e production
                      | None => false
                      end)
             then
               t <- (fun h => let t := now env h in (Ok t, h ++ [DateNow t])) ;;
               r <- (fun h => let r := random36 env h in
                              (Ok r, h ++ [MathRandom r])) ;;
               ret {| valid := Some (JBool true);
                      txHash := Some (JStr (dev_txHash t r));
                      error := None |}
             else ret (invalid (lit "Facilitator unavailable"))
         end)
    (fun error =>
       ret (invalid (match error_message error with
                     | Some m => m
                     | None => lit "Payment verification failed"
                     end))).

(** *** The issuer *)

Record Request : Type := {
  method : jsstring;
  path : jsstring;
  protocol : jsstring;
  host : option jsstring;           (* [req.get('host')] *)
  originalUrl : jsstring;
  headers : list (jsstring * jsstring)
}.

Definition build_requirements (payTo : jsstring) (config : PricingConfig)
           (usdcAddress : jsstring) (req : Request) : PaymentRequirements :=
  {| r_x402Version := of_Z 1;
     r_scheme := lit "exact";
     r_network := network config;
     r_maxAmountRequired := parsePrice (price config) 6;
     r_amount := parsePrice (price config) 6;
     r_resource := protocol req ++ lit "://"
                     ++ match host req with
                        | Some h => h
                        | None => lit "undefined"
                        end
                     ++ originalUrl req;
     r_description := description config;
     r_mimeType := or_default (mimeType config) (lit "application/json");
     r_payTo := payTo;
     r_maxTimeoutSeconds := of_Z 60;
     r_asset := {| address := usdcAddress; decimals := of_Z 6;
                   symbol := lit "USDC" |} |}.

(** What the middleware does with a request. *)
Inductive outcome : Type :=
| PassThrough                      (* [next()]: not a paid route *)
| ConfigurationError               (* 500 *)
| Challenge (header : jsstring) (body : json)
    (* 402; [header] under Payment-Required and X-Payment-Required *)
| PaymentInvalid (message : json)  (* 402 *)
| Verified (txHash : option json) (amount : jsstring).
    (* [next()] with [req.x402Payment] attached *)

(** The header value of a challenge. *)
Definition encode_requirements (r : PaymentRequirements) : option jsstring :=
  btoa (stringify (requirements_json r)).

(** JavaScript truthiness of a parsed value. *)
Definition truthy (v : option json) : bool :=
  match v with
  | None | Some JNull | Some (JBool false) => false
  | Some (JNum x) => negb (match x with
                           | S754_zero _ | S754_nan => true
                           | _ => false
                           end)
  | Some (JStr s) => JS.truthy s
  | _ => true
  end.

Definition paymentMiddleware (env : Env) (payTo : jsstring)
           (pricing : list (jsstring * PricingConfig))
           (facilitatorUrl : jsstring) (req : Request)
  : M (list event) outcome :=
  let routeKey := method req ++ lit " " ++ path req in
  match lookup routeKey pricing with
  | None => ret PassThrough
  | Some config =>
      match JS.or_else (lookup (network config) USDC_ADDRESSES) None with
      | None => ret ConfigurationError
      | Some usdcAddress =>
          let requirements := build_requirements payTo config usdcAddress req in
          match JS.or_else (lookup (lit "payment-signature") (headers req))
                           (lookup (lit "x-payment") (headers req)) with
          | None =>
              match encode_requirements requirements with
              | None => throw InvalidCharacterError
              | Some requirementsBase64 =>
                  ret (Challenge requirementsBase64
                         (JObj [ (lit "error", JStr (lit "Payment Required"));
                                 (lit "message", JStr (description config));
                                 (lit "price", JStr (price config));
                                 (lit "network", JStr (network config)) ]))
              end
          | Some paymentSignature =>
              verification <- verifyPayment env paymentSignature requirements
                                facilitatorUrl ;;
              if negb (truthy (valid verification))
              then ret (PaymentInvalid
                          (if truthy (error verification)
                           then match error verification with
                                | Some m => m
                                | None => JNull
                                end
                           else JStr (lit "Payment verification failed")))
              else ret (Verified (txHash verification) (r_amount requirements))
          end
      end
  end.

End X402Server.

(* ================================================================== *)
(** ** [packages/sdk/src/utils/x402-fetch.ts]: registry and signer *)

Module X402Fetch.
Import JS Num Base64 Json Err.
Local Open Scope js_scope.

Definition headers := list (jsstring * jsstring).

Record Response : Type := {
  status : Z;
  response_headers : headers;   (* names in lower case *)
  text : jsstring               (* what [response.text()] resolves to *)
}.

(** [response.ok] *)
Definition ok (r : Response) : bool :=
  ((200 <=? status r) && (status r <=? 299))%Z.

Fixpoint get (name : jsstring) (hs : headers) : option jsstring :=
  match hs with
  | [] => None
  | (k, v) :: r => if JS.eqb name k then Some v else get name r
  end.

(** One effect of the wrapper with its outcome. *)
Inductive event : Type :=
| DateNow (t : Z)
| Fetch (url : jsstring) (method : option jsstring) (hs : headers)
        (out : result Response)
| SignMessage (message : bytes) (out : result bytes).

(** The wallet: [publicKey] holds [publicKey.toBase58()], [None] when the
    key is [null]; [signMessage] is absent on wallets that cannot sign. *)
Record Wallet : Type := {
  publicKey : option jsstring;
  signMessage : option (list event -> bytes -> result bytes)
}.

(** Configuration for x402 payment wrapper *)
Record PaymentConfig : Type := {
  maxPayment : number;              (* Maximum payment amount in USDC *)
  network : option jsstring;
  timeout : option number;
  enableIdempotency : option bool
}.

Record RequestInit : Type := {
  method : option jsstring;
  init_headers : headers
}.

(** The clock and the network: each answer may depend on everything that
    happened before. A fetch rejects with [AbortError] when the timer of
    [fetchWithTimeout] fires first. *)
Record Env : Type := {
  now : list event -> Z;
  fetch : list event -> jsstring -> option jsstring -> headers
          -> result Response
}.

(** The module's state: the idempotency key storage (a [Map], in
    insertion order) and the effects so far. *)
Record State : Type := {
  idempotencyKeys : list (jsstring * jsstring);
  history : list event
}.

Definition map_get (k : jsstring) (m : list (jsstring * jsstring))
  : option jsstring := get k m.

Fixpoint map_set (k v : jsstring) (m : list (jsstring * jsstring))
  : list (jsstring * jsstring) :=
  match m with
  | [] => [(k, v)]
  | (k', v') :: r =>
      if JS.eqb k k' then (k', v) :: r else (k', v') :: map_set k v r
  end.

Definition Date_now (env : Env) : M State Z :=
  fun s => let t := now env (history s) in
           (Ok t, {| idempotencyKeys := idempotencyKeys s;
                     history := history s ++ [DateNow t] |}).

Definition colon : jsstring := lit ":".

(** Generates a unique idempotency key for a request *)
Definition generateIdempotencyKey (env : Env)
           (url method walletAddress : jsstring) : M State jsstring :=
  timestamp <- Date_now env ;;
  let uniqueKey := walletAddress ++ colon ++ url ++ colon ++ method
                     ++ colon ++ string_of_Z timestamp in
  ret (lit "idem_" ++ to_base64url (utf8 uniqueKey)).

(** Gets or creates an idempotency key for a wallet *)
Definition getIdempotencyKey (env : Env)
           (url method walletAddress : jsstring) : M State jsstring :=
  let cacheKey := walletAddress ++ colon ++ url ++ colon ++ method in
  fun s =>
    match JS.or_else (map_get cacheKey (idempotencyKeys s)) None with
    | Some existing => (Ok existing, s)
    | None =>
        (newKey <- generateIdempotencyKey env url method walletAddress ;;
         (fun s' => (Ok newKey,
                     {| idempotencyKeys :=
                          map_set cacheKey newKey (idempotencyKeys s');
                        history := history s' |}))) s
    end.

(** Clears idempotency keys for a specific wallet *)
Definition clearIdempotencyKeys (walletAddress : jsstring) (s : State)
  : State :=
  {| idempotencyKeys :=
       filter (fun kv => negb (includes (snd kv) walletAddress))
              (idempotencyKeys s);
     history := history s |}.

(** Clears all idempotency keys (use sparingly) *)
Definition clearAllIdempotencyKeys (s : State) : State :=
  {| idempotencyKeys := []; history := history s |}.

(** Parses the PAYMENT-REQUIRED header from a 402 response *)
Definition parsePaymentRequirements (header : jsstring) : result json :=
  match atob header with
  | None =>
      Throw (GanymedeError PAYMENT_DECLINED
               (lit "Failed to parse payment requirements from server") None)
  | Some decoded =>
      match parse decoded with
      | None =>
          Throw (GanymedeError PAYMENT_DECLINED
                   (lit "Failed to parse payment requirements from server")
                   None)
      | Some v => Ok v
      end
  end.

(** [v.k] on a parsed value. *)
Definition prop (v : json) (k : jsstring) : result (option json) :=
  match v with
  | JNull => Throw TypeError
  | JObj m => Ok (assoc k m)
  | _ => Ok None
  end.

(** The properties of the requirement that go into the authorization. *)
Record claim_fields : Type := {
  f_scheme : option json;
  f_network : option json;
  f_amount : option json;
  f_resource : option json;
  f_payTo : option json
}.

Definition read_fields (requirements : json) : result claim_fields :=
  match prop requirements (lit "scheme"), prop requirements (lit "network"),
        prop requirements (lit "amount"), prop requirements (lit "resource"),
        prop requirements (lit "payTo") with
  | Ok scheme, Ok net, Ok amount, Ok resource, Ok payTo =>
      Ok {| f_scheme := scheme; f_network := net; f_amount := amount;
            f_resource := resource; f_payTo := payTo |}
  | Throw e, _, _, _, _ | _, Throw e, _, _, _ | _, _, Throw e, _, _
  | _, _, _, Throw e, _ | _, _, _, _, Throw e => Throw e
  end.

(** The payment authorization message: the text the wallet signs. *)
Definition claim_text (f : claim_fields) (timestamp : Z)
           (payer idempotencyKey : jsstring) : jsstring :=
  stringify
    (JObj (object
       [ (lit "x402Version", Some (JNum (of_Z 1)));
         (lit "scheme", f_scheme f);
         (lit "network", f_network f);
         (lit "amount", f_amount f);
         (lit "resource", f_resource f);
         (lit "payTo", f_payTo f);
         (lit "timestamp", Some (JNum (of_Z timestamp)));
         (lit "payer", Some (JStr payer));
         (lit "idempotencyKey", Some (JStr idempotencyKey)) ])).

(** The payment payload object. *)
Definition payload_json (f : claim_fields) (message : jsstring)
           (signature : bytes) (payer idempotencyKey : jsstring) : json :=
  JObj (object
    [ (lit "x402Version", Some (JNum (of_Z 1)));
      (lit "scheme", f_scheme f);
      (lit "network", f_network f);
      (lit "payload",
       Some (JObj [ (lit "message", JStr message);
                    (lit "signature", JStr (to_base64 signature));
                    (lit "publicKey", JStr payer);
                    (lit "idempotencyKey", JStr idempotencyKey) ])) ]).

(** Creates a payment payload for x402 *)
Definition createPaymentPayload (env : Env) (wallet : Wallet)
           (requirements : json) (idempotencyKey : jsstring)
  : M State jsstring :=
  match signMessage wallet with
  | None =>
      throw (GanymedeError WALLET_SIGNING_FAILED
               (lit "Wallet does not support message signing required for x402 payments")
               None)
  | Some sign =>
      match publicKey wallet with
      | None =>
          throw (GanymedeError WALLET_NOT_CONNECTED
                   (lit "Wallet public key is not available") None)
      | Some payer =>
          (* Create the payment authorization message *)
          f <- lift (read_fields requirements) ;;
          timestamp <- Date_now env ;;
          let message := claim_text f timestamp payer idempotencyKey in
          (* Sign the message with the wallet *)
          let messageBytes := utf8 message in
          signature <- (fun s =>
                          let out := sign (history s) messageBytes in
                          (out, {| idempotencyKeys := idempotencyKeys s;
                                   history := history s
                                              ++ [SignMessage messageBytes out] |})) ;;
          (* Create the payment payload *)
          match btoa (stringify
                        (payload_json f message signature payer idempotencyKey)) with
          | Some p => ret p
          | None => throw InvalidCharacterError
          end
      end
  end.

(** Creates a fetch request with timeout *)
Definition fetchWithTimeout (env : Env) (input : jsstring)
           (method : option jsstring) (hs : headers) (timeoutMs : number)
  : M State Response :=
  fun s =>
    let out := fetch env (history s) input method hs in
    let s' := {| idempotencyKeys := idempotencyKeys s;
                 history := history s ++ [Fetch input method hs out] |} in
    match out with
    | Ok response => (Ok response, s')
    | Throw error =>
        if match error_name error with
           | Some n => JS.eqb n (lit "AbortError")
           | None => false
           end
        then (Throw (GanymedeError NETWORK_ERROR
                       (lit "Request timeout after " ++ toString timeoutMs
                          ++ lit "ms") None), s')
        else (Throw error, s')
    end.

(** [{...hs, k: v}]: an own property keeps its place, a new one goes
    last. *)
Definition with_header (hs : headers) (k v : jsstring) : headers :=
  map_set k v hs.

(** [parseInt(requirements.amount) / Math.pow(10, requirements.asset.decimals)]
    for a [decimals] that is absent or an integral number; other values of
    [decimals] are not modelled. *)
Definition requiredAmount (requirements : json) : result number :=
  match prop requirements (lit "amount") with
  | Throw e => Throw e
  | Ok amount =>
      let a := parseInt (match amount with
                         | Some v => to_string v
                         | None => lit "undefined"
                         end) in
      match prop requirements (lit "asset") with
      | Throw e => Throw e
      | Ok None => Throw TypeError
      | Ok (Some asset) =>
          match prop asset (lit "decimals") with
          | Throw e => Throw e
          | Ok None => Ok (div a NaN)
          | Ok (Some (JNum d)) =>
              match to_Z d with
              | Some z => Ok (div a (pow10 z))
              | None => Throw Unmodelled
              end
          | Ok (Some _) => Throw Unmodelled
          end
      end
  end.

Definition truthy_number (x : number) : bool :=
  match x with
  | S754_zero _ | S754_nan => false
  | _ => true
  end.

(** The key of one call of the wrapper: cached per (wallet, url, method)
    unless [enableIdempotency] is [false]. *)
Definition select_idempotencyKey (env : Env) (config : PaymentConfig)
           (url method_ walletAddress : jsstring) : M State jsstring :=
  if negb (match enableIdempotency config with
            | Some false => true
            | _ => false
            end)
  then getIdempotencyKey env url method_ walletAddress
  else generateIdempotencyKey env url method_ walletAddress.

(** [config.timeout || 30000] *)
Definition timeout_of (config : PaymentConfig) : number :=
  match timeout config with
  | Some t => if truthy_number t then t else of_Z 30000
  | None => of_Z 30000
  end.

(** [signableWallet.publicKey?.toBase58() || 'unknown'] *)
Definition address_of (wallet : Wallet) : jsstring :=
  or_default (publicKey wallet) (lit "unknown").

(** The wrapper from the first response on (inside its [try] block). *)
Definition on_response (env : Env) (wallet : Wallet) (config : PaymentConfig)
           (url : jsstring) (init : RequestInit) (idempotencyKey : jsstring)
           (timeoutMs : number) (response : Response) : M State Response :=
  (* If not a 402, return as-is *)
  if negb (status response =? 402)%Z then ret response
  else
    (* Extract payment requirements *)
    match JS.or_else (get (lit "payment-required") (response_headers response))
                     (get (lit "x-payment-required")
                          (response_headers response)) with
    | None =>
        throw (GanymedeError PAYMENT_DECLINED
                 (lit "Server returned 402 but no payment requirements were provided")
                 None)
    | Some paymentHeader =>
        requirements <- lift (parsePaymentRequirements paymentHeader) ;;
        (* Validate payment amount against limit *)
        required <- lift (requiredAmount requirements) ;;
        if gtb required (maxPayment config)
        then throw (GanymedeError PAYMENT_EXCEEDED_LIMIT
                      (lit "Payment of $" ++ toString required
                         ++ lit " exceeds maximum limit of $"
                         ++ toString (maxPayment config)) None)
        else
          (* Create and sign payment with idempotency key *)
          paymentPayload <- createPaymentPayload env wallet requirements
                              idempotencyKey ;;
          (* Retry request with payment signature *)
          let retryHeaders :=
            with_header
              (with_header
                 (with_header (init_headers init)
                    (lit "payment-signature") paymentPayload)
                 (lit "x-payment") paymentPayload)
              (lit "x-idempotency-key") idempotencyKey in
          paidResponse <- fetchWithTimeout env url (method init)
                            retryHeaders timeoutMs ;;
          if negb (ok paidResponse)
          then throw (GanymedeError PAYMENT_DECLINED
                        (lit "Payment was rejected: "
                           ++ string_of_Z (status paidResponse)
                           ++ lit " " ++ text paidResponse) None)
          else ret paidResponse
    end.

(** The [catch] block of the wrapper. *)
Definition on_error (error : thrown) : M State Response :=
  if is_GanymedeError error then throw error
  else
    let errorMessage := match error_message error with
                        | Some m => m
                        | None => lit "Unknown error"
                        end in
    throw (GanymedeError NETWORK_ERROR
             (lit "Payment request failed: " ++ errorMessage)
             (Some error)).

(** Wraps fetch with automatic x402 payment handling *)
Definition wrapFetchWithPayment (env : Env) (wallet : Wallet)
           (config : PaymentConfig) (input : jsstring) (init : RequestInit)
  : M State Response :=
  let url := input in
  let method_ := or_default (method init) (lit "GET") in
  (* Get wallet address for idempotency *)
  let walletAddress := address_of wallet in
  idempotencyKey <-
    select_idempotencyKey env config url method_ walletAddress ;;
  let timeoutMs := timeout_of config in
  try_catch
    ((* Make the initial request with timeout *)
     response <- fetchWithTimeout env url (method init)
                   (with_header (init_headers init)
                      (lit "x-idempotency-key") idempotencyKey)
                   timeoutMs ;;
     on_response env wallet config url init idempotencyKey timeoutMs response)
    on_error.

End X402Fetch.

(* ================================================================== *)
(** ** [packages/sdk/src/utils/wallet.ts]: what the SDK asks of a wallet *)

Module WalletUtils.
Import JS Base64 Err.

(** A transaction, by its bytes. *)
Definition transaction := bytes.

(** The wallet adapter as the SDK sees it: [publicKey] holds
    [publicKey.toBase58()], [None] when the key is [null]; a signing
    method is [None] when it is not a function. [signTransaction] answers
    given the transactions it was asked to sign before. *)
Record WalletAdapter : Type := {
  connected : bool;
  publicKey : option jsstring;
  signMessage : option (list X402Fetch.event -> bytes -> result bytes);
  signTransaction : option (list transaction -> transaction
                            -> result transaction)
}.

(** Wallet connection state check *)
Record WalletConnectionState : Type := {
  state_connected : bool;
  publicKeyAvailable : bool;
  canSignTransaction : bool;
  canSignMessage : bool
}.

Definition is_some {A} (o : option A) : bool :=
  match o with Some _ => true | None => false end.

(** Gets comprehensive wallet connection state *)
Definition getWalletConnectionState (wallet : WalletAdapter)
  : WalletConnectionState :=
  {| state_connected := connected wallet;
     publicKeyAvailable := is_some (publicKey wallet);
     canSignTransaction := is_some (signTransaction wallet);
     canSignMessage := is_some (signMessage wallet) |}.

(** Validates that a wallet is properly connected and ready for use *)
Definition validateWallet (wallet : WalletAdapter) : result unit :=
  if negb (connected wallet)
  then Throw (GanymedeError WALLET_NOT_CONNECTED
                (lit "Wallet is not connected. Please connect your wallet first.")
                None)
  else if negb (is_some (publicKey wallet))
  then Throw (GanymedeError WALLET_NOT_CONNECTED
                (lit "Wallet public key is not available.") None)
  else Ok tt.

(** Validates that a wallet supports transaction signing *)
Definition validateWalletForTransaction (wallet : WalletAdapter)
  : result unit :=
  match validateWallet wallet with
  | Throw e => Throw e
  | Ok _ =>
      if negb (is_some (signTransaction wallet))
      then Throw (GanymedeError WALLET_SIGNING_FAILED
                    (lit "Wallet does not support transaction signing required for swaps.")
                    None)
      else Ok tt
  end.

(** Validates that a wallet supports message signing (required for x402
    payments) *)
Definition validateWalletForPayment (wallet : WalletAdapter) : result unit :=
  match validateWallet wallet with
  | Throw e => Throw e
  | Ok _ =>
      if negb (is_some (signMessage wallet))
      then Throw (GanymedeError WALLET_SIGNING_FAILED
                    (lit "Wallet does not support message signing required for x402 payments.")
                    None)
      else Ok tt
  end.

(** Checks if wallet supports message signing *)
Definition supportsMessageSigning (wallet : WalletAdapter) : bool :=
  is_some (signMessage wallet).

(** Checks if wallet supports transaction signing *)
Definition supportsTransactionSigning (wallet : WalletAdapter) : bool :=
  is_some (signTransaction wallet).

(** Gets the wallet's public key as a base58 string. After
    [validateWallet] the key is there; [wallet.publicKey!.toBase58()] on
    [null] would be a TypeError. *)
Definition getWalletAddress (wallet : WalletAdapter) : result jsstring :=
  match validateWallet wallet with
  | Throw e => Throw e
  | Ok _ =>
      match publicKey wallet with
      | Some address => Ok address
      | None => Throw TypeError
      end
  end.

(** [s.slice(-n)]: the last [n] code units, all of [s] when it is
    shorter. *)
Definition last_chars (n : nat) (s : jsstring) : jsstring :=
  skipn (List.length s - n) s.

(** Creates a unique wallet identifier for logging/analytics *)
Definition getWalletIdentifier (wallet : WalletAdapter) : jsstring :=
  match publicKey wallet with
  | None => lit "unknown"
  | Some address => firstn 4 address ++ lit "..." ++ last_chars 4 address
  end.

(** [wallet as unknown as MessageSignableWallet]: the same wallet, seen by
    the payment wrapper. *)
Definition as_signable (wallet : WalletAdapter) : X402Fetch.Wallet :=
  {| X402Fetch.publicKey := publicKey wallet;
     X402Fetch.signMessage := signMessage wallet |}.

End WalletUtils.

(* ================================================================== *)
(** ** [packages/sdk/src/utils/x402-fetch.ts]: the payment receipt *)

Module X402Receipt.
Import JS X402Fetch.

(** Extracts the payment transaction hash from response headers *)
Definition extractPaymentTxHash (response : Response) : option jsstring :=
  or_else (get (lit "x-payment-response") (response_headers response))
          (or_else (get (lit "x-payment-txhash") (response_headers response))
                   None).

End X402Receipt.

(* ================================================================== *)
(** ** [packages/sdk/src/client.ts]: the [GanymedeClient] class *)

Module GanymedeClient.
Import JS Num Base64 Json Err WalletUtils.
Local Open Scope js_scope.

(** Default API endpoint for the Ganymede premium server *)
Definition DEFAULT_API_ENDPOINT : jsstring := lit "http://localhost:3001".
(** Default maximum payment per swap in USDC *)
Definition DEFAULT_MAX_PAYMENT : number := parseFloat (lit "0.01").
(** Default slippage in basis points (0.5%) *)
Definition DEFAULT_SLIPPAGE_BPS : number := of_Z 50.

(** Configuration for the Ganymede client *)
Record GanymedeConfig : Type := {
  wallet : WalletAdapter;
  connection : Client.Connection;
  apiEndpoint : option jsstring;
  enablePremium : option bool;
  maxPaymentPerSwap : option number;
  network : option jsstring
}.

(** [Required<GanymedeConfig>]: the configuration the constructor
    stores. *)
Record Settings : Type := {
  the_wallet : WalletAdapter;
  the_connection : Client.Connection;
  the_apiEndpoint : jsstring;
  premium_enabled : bool;
  the_maxPaymentPerSwap : number;
  the_network : jsstring
}.

(** [a ?? d] *)
Definition nullish {A} (a : option A) (d : A) : A :=
  match a with Some x => x | None => d end.

Definition constructor (config : GanymedeConfig) : Settings :=
  {| the_wallet := wallet config;
     the_connection := connection config;
     the_apiEndpoint := or_default (apiEndpoint config) DEFAULT_API_ENDPOINT;
     premium_enabled := nullish (enablePremium config) true;
     the_maxPaymentPerSwap :=
       nullish (maxPaymentPerSwap config) DEFAULT_MAX_PAYMENT;
     the_network := or_default (network config) (lit "devnet") |}.

(** Parameters for requesting a swap quote or execution *)
Record SwapParams : Type := {
  inputMint : jsstring;
  outputMint : jsstring;
  amount : number;
  slippageBps : option number;
  mevProtection : option bool;
  optimizePriorityFee : option bool;
  includeAnalytics : option bool
}.

Record QuoteGetRequest : Type := {
  quote_inputMint : jsstring;
  quote_outputMint : jsstring;
  quote_amount : number;
  quote_slippageBps : number;
  restrictIntermediateTokens : bool
}.

(** Result of a swap request; the objects that come from Jupiter and
    from the premium server are kept as the JSON values they are. *)
Record SwapResult : Type := {
  transaction : transaction;
  quote : option json;
  mevAnalysis : option json;
  recommendedPriorityFee : option json;
  routeAnalytics : option json;
  paymentTxHash : option jsstring
}.

(** The calls of the class that go to Jupiter and to the wallet's
    transaction signer, each with its outcome. *)
Inductive event : Type :=
| QuoteGet (request : QuoteGetRequest) (out : result (option json))
| SwapPost (quoteResponse : json) (userPublicKey : jsstring)
           (out : result jsstring)
| SignTransaction (tx : WalletUtils.transaction)
                  (out : result WalletUtils.transaction).

(** The surroundings of a client: the network and clock of the payment
    wrapper, the Jupiter API client (an answer may depend on the calls
    made before; [quoteGet] answers [None] for a falsy quote), and
    [VersionedTransaction.deserialize(Buffer.from(s, 'base64'))]. *)
Record Env : Type := {
  net : X402Fetch.Env;
  quoteGet : list event -> QuoteGetRequest -> result (option json);
  swapPost : list event -> json -> jsstring -> result jsstring;
  deserialize : jsstring -> result WalletUtils.transaction
}.

(** Everything a call of the client can change or observe: the payment
    wrapper's state, the calls to the ledger, the calls of the class. *)
Record World : Type := {
  payments : X402Fetch.State;
  ledger : list Client.call;
  calls : list event
}.

Definition on_payments {A} (m : M X402Fetch.State A) : M World A :=
  fun w => let (r, s) := m (payments w) in
           (r, {| payments := s; ledger := ledger w; calls := calls w |}).

Definition on_ledger {A} (m : M (list Client.call) A) : M World A :=
  fun w => let (r, l) := m (ledger w) in
           (r, {| payments := payments w; ledger := l; calls := calls w |}).

Definition perform {A} (answer : list event -> result A)
           (record : result A -> event) : M World A :=
  fun w => let out := answer (calls w) in
           (out, {| payments := payments w; ledger := ledger w;
                    calls := calls w ++ [record out] |}).

(** The transactions the wallet was asked to sign so far. *)
Definition signing_requests (l : list event) : list WalletUtils.transaction :=
  flat_map (fun e => match e with
                     | SignTransaction tx _ => [tx]
                     | _ => []
                     end) l.

(** [error instanceof Error ? error.message : 'Unknown error'] *)
Definition message_of (error : thrown) : jsstring :=
  match error_message error with
  | Some m => m
  | None => lit "Unknown error"
  end.

(** Free tier: Get a swap quote directly from Jupiter *)
Definition getQuote (env : Env) (params : SwapParams) : M World json :=
  try_catch
    (let quoteRequest :=
       {| quote_inputMint := inputMint params;
          quote_outputMint := outputMint params;
          quote_amount := amount params;
          quote_slippageBps := nullish (slippageBps params) DEFAULT_SLIPPAGE_BPS;
          restrictIntermediateTokens := true |} in
     quote <- perform (fun l => quoteGet env l quoteRequest)
                      (QuoteGet quoteRequest) ;;
     match quote with
     | None =>
         throw (GanymedeError QUOTE_FAILED
                  (lit "No route found for the requested swap") None)
     | Some q => ret q
     end)
    (fun error =>
       if is_GanymedeError error then throw error
       else throw (GanymedeError QUOTE_FAILED
                     (lit "Failed to get quote: " ++ message_of error)
                     (Some error))).

(** Free tier: Build a swap transaction from a quote *)
Definition buildSwap (env : Env) (settings : Settings) (params : SwapParams)
  : M World SwapResult :=
  lift (validateWallet (the_wallet settings)) ;;;
  quote <- getQuote env params ;;
  try_catch
    (userPublicKey <- lift (getWalletAddress (the_wallet settings)) ;;
     swapTransaction <- perform (fun l => swapPost env l quote userPublicKey)
                                (SwapPost quote userPublicKey) ;;
     transaction <- lift (deserialize env swapTransaction) ;;
     ret {| transaction := transaction; quote := Some quote;
            mevAnalysis := None; recommendedPriorityFee := None;
            routeAnalytics := None; paymentTxHash := None |})
    (fun error =>
       throw (GanymedeError SWAP_FAILED
                (lit "Failed to build swap transaction: " ++ message_of error)
                (Some error))).

(** The wrapper the client makes for itself on first use. *)
Definition paidFetch (env : Env) (settings : Settings)
  : jsstring -> X402Fetch.RequestInit -> M X402Fetch.State X402Fetch.Response :=
  X402Fetch.wrapFetchWithPayment (net env) (as_signable (the_wallet settings))
    {| X402Fetch.maxPayment := the_maxPaymentPerSwap settings;
       X402Fetch.network := Some (the_network settings);
       X402Fetch.timeout := None;
       X402Fetch.enableIdempotency := None |}.

Definition premium_url (settings : Settings) : jsstring :=
  the_apiEndpoint settings ++ lit "/v1/swap/enhanced".

Definition premium_init : X402Fetch.RequestInit :=
  {| X402Fetch.method := Some (lit "POST");
     X402Fetch.init_headers :=
       [ (lit "Content-Type", lit "application/json");
         (lit "Accept", lit "application/json") ] |}.

(** [VersionedTransaction.deserialize(Buffer.from(data.swapTransaction,
    'base64'))] for the property of a parsed answer: a string is decoded;
    [undefined], [null], a number or a boolean make [Buffer.from] throw a
    TypeError; arrays and objects are not modelled. *)
Definition deserialize_property (env : Env) (v : option json)
  : result WalletUtils.transaction :=
  match v with
  | Some (JStr s) => deserialize env s
  | Some (JArr _) | Some (JObj _) => Throw Unmodelled
  | _ => Throw TypeError
  end.

(** Fetches premium swap data from the x402-protected API. The request
    body (the swap parameters as JSON) is not part of the modelled
    request, as in the wrapper. *)
Definition fetchPremiumSwap (env : Env) (settings : Settings)
           (params : SwapParams) : M World SwapResult :=
  try_catch
    (lift (getWalletAddress (the_wallet settings)) ;;;
     response <- on_payments (paidFetch env settings (premium_url settings)
                                premium_init) ;;
     if negb (X402Fetch.ok response)
     then throw (GanymedeError SWAP_FAILED
                   (lit "Premium swap request failed: "
                      ++ string_of_Z (X402Fetch.status response)
                      ++ lit " " ++ X402Fetch.text response) None)
     else
       data <- lift (match parse (X402Fetch.text response) with
                     | Some v => Ok v
                     | None => Throw SyntaxError
                     end) ;;
       swapTransaction <- lift (X402Fetch.prop data (lit "swapTransaction")) ;;
       transaction <- lift (deserialize_property env swapTransaction) ;;
       quote <- lift (X402Fetch.prop data (lit "quote")) ;;
       mev <- lift (X402Fetch.prop data (lit "mevAnalysis")) ;;
       fee <- lift (X402Fetch.prop data (lit "recommendedPriorityFee")) ;;
       analytics <- lift (X402Fetch.prop data (lit "routeAnalytics")) ;;
       ret {| transaction := transaction; quote := quote;
              mevAnalysis := mev; recommendedPriorityFee := fee;
              routeAnalytics := analytics;
              paymentTxHash := X402Receipt.extractPaymentTxHash response |})
    (fun error =>
       if is_GanymedeError error then throw error
       else throw (GanymedeError NETWORK_ERROR
                     (lit "Failed to fetch premium swap: " ++ message_of error)
                     (Some error))).

(** [a || b || c] on optional booleans *)
Definition flag (b : option bool) : bool := nullish b false.

(** Premium tier: Get an enhanced swap with MEV protection, priority
    fees, and analytics *)
Definition getEnhancedSwap (env : Env) (settings : Settings)
           (params : SwapParams) : M World SwapResult :=
  lift (validateWallet (the_wallet settings)) ;;;
  let hasPremiumFeatures :=
    flag (mevProtection params) || flag (optimizePriorityFee params)
    || flag (includeAnalytics params) in
  (* Fall back to free tier if no premium features requested or premium
     disabled *)
  if negb hasPremiumFeatures || negb (premium_enabled settings)
  then buildSwap env settings params
  else fetchPremiumSwap env settings params.

(** Executes a swap transaction with robust error handling and retry
    logic *)
Definition executeSwap (settings : Settings) (result : SwapResult)
  : M World jsstring :=
  lift (validateWallet (the_wallet settings)) ;;;
  match signTransaction (the_wallet settings) with
  | None =>
      throw (GanymedeError WALLET_SIGNING_FAILED
               (lit "Wallet does not support transaction signing") None)
  | Some sign =>
      try_catch
        ((* Sign the transaction *)
         signed <- perform (fun l => sign (signing_requests l)
                                          (transaction result))
                           (SignTransaction (transaction result)) ;;
         (* Get fresh blockhash for sending *)
         blockhashData <- on_ledger (Client.getLatestBlockhash
                                       (the_connection settings)) ;;
         (* Send with retry logic *)
         txid <- on_ledger (Client.sendTransactionWithRetry
                              (the_connection settings) signed blockhashData) ;;
         ret txid)
        (fun error =>
           if is_GanymedeError error then throw error
           else throw (GanymedeError SWAP_FAILED
                         (lit "Failed to execute swap: " ++ message_of error)
                         (Some error)))
  end.

(** Convenience method: Get quote, build, and execute swap in one call *)
Definition swap (env : Env) (settings : Settings) (params : SwapParams)
  : M World (jsstring * SwapResult) :=
  result <- getEnhancedSwap env settings params ;;
  txid <- executeSwap settings result ;;
  ret (txid, result).

End GanymedeClient.

(* ================================================================== *)
(** * Properties *)

(** ** The retry delay *)

Section RetryDelay.
Import Client.
Local Open Scope Z_scope.

Lemma getRetryDelay_unfold (n : Z) :
  getRetryDelay n = Z.min (500 * 2 ^ n) 5000.
Proof. reflexivity. Qed.

Lemma getRetryDelay_le_cap (n : Z) : getRetryDelay n <= MAX_RETRY_DELAY.
Proof. unfold getRetryDelay. apply Z.le_min_r. Qed.

Lemma getRetryDelay_mono (n m : Z) :
  0 <= n <= m -> getRetryDelay n <= getRetryDelay m.
Proof.
  intros H. rewrite !getRetryDelay_unfold.
  assert (2 ^ n <= 2 ^ m) by (apply Z.pow_le_mono_r; lia).
  lia.
Qed.

Lemma getRetryDelay_capped (n : Z) : 4 <= n -> getRetryDelay n = 5000.
Proof.
  intros H. rewrite getRetryDelay_unfold.
  assert (2 ^ 4 <= 2 ^ n) by (apply Z.pow_le_mono_r; lia).
  change (2 ^ 4) with 16 in *. lia.
Qed.

(** C7. For every attempt number [n >= 0] the delay is
    [min (500 * 2^n) 5000]; the delays do not decrease with the attempt
    number, and once a delay is the cap of 5000 ms every later one is
    too (which happens from attempt 4 on). *)
Theorem getRetryDelay_exponential_backoff (n m : Z) :
  0 <= n <= m ->
  getRetryDelay n = Z.min (BASE_RETRY_DELAY * 2 ^ n) MAX_RETRY_DELAY /\
  getRetryDelay n <= getRetryDelay m /\
  (getRetryDelay n = MAX_RETRY_DELAY -> getRetryDelay m = MAX_RETRY_DELAY) /\
  (4 <= n -> getRetryDelay n = MAX_RETRY_DELAY).
Proof.
  intros H. split; [reflexivity|]. split; [now apply getRetryDelay_mono|].
  split.
  - intros E. pose proof (getRetryDelay_mono H).
    pose proof (getRetryDelay_le_cap m). lia.
  - apply getRetryDelay_capped.
Qed.

Lemma getRetryDelay_exponential_backoff_witness :
  0 <= 2 <= 5 /\
  getRetryDelay 2 = 2000 /\ getRetryDelay 2 <= getRetryDelay 5.
Proof.
  split; [lia|].
  destruct (@getRetryDelay_exponential_backoff 2 5 ltac:(lia)) as (E & L & _).
  split; [exact E | exact L].
Defined.
End RetryDelay.

(** ** Decimal digits *)

Section Digits.
Import JS.
Local Open Scope N_scope.

Lemma value_of_digits_snoc ds c :
  value_of_digits (ds ++ [c]) = (value_of_digits ds * 10 + (Z.of_N c - 48))%Z.
Proof. unfold value_of_digits. now rewrite fold_left_app. Qed.

Lemma is_digit_of_mod n : is_digit (48 + n mod 10) = true.
Proof.
  unfold is_digit. pose proof (N.mod_upper_bound n 10 ltac:(discriminate)) as H.
  revert H. generalize (n mod 10). intros r H.
  apply andb_true_iff. split; apply N.leb_le; lia.
Qed.

(** [digits_fuel] puts the digits of [n] in front of the accumulator. *)
Lemma digits_fuel_spec fuel : forall n acc,
  exists ds,
    digits_fuel fuel n acc = ds ++ acc /\
    forallb is_digit ds = true /\
    (fuel <> O -> ds <> []) /\
    (n < 10 ^ N.of_nat fuel -> value_of_digits ds = Z.of_N n).
Proof.
  induction fuel as [|fuel IH]; intros n acc.
  - exists []. repeat split; try congruence.
    cbn. intros H. apply N.lt_1_r in H. now subst.
  - cbn [digits_fuel]. destruct (n <? 10) eqn:L.
    + exists [48 + n mod 10]. apply N.ltb_lt in L.
      repeat split; try discriminate.
      * cbn [forallb]. now rewrite is_digit_of_mod.
      * intros _. rewrite N.mod_small by exact L.
        unfold value_of_digits. cbn [fold_left]. lia.
    + apply N.ltb_ge in L.
      destruct (IH (n / 10) ((48 + n mod 10) :: acc)) as (ds & E & D & _ & V).
      exists (ds ++ [48 + n mod 10]). repeat split.
      * now rewrite E, <- app_assoc.
      * rewrite forallb_app, D. cbn [forallb]. now rewrite is_digit_of_mod.
      * intros _ H. now destruct ds.
      * intros B. rewrite value_of_digits_snoc, V.
        -- pose proof (N.div_mod n 10 ltac:(discriminate)) as Hd.
           revert Hd. generalize (n / 10) (n mod 10). intros q r Hd. lia.
        -- rewrite Nat2N.inj_succ, N.pow_succ_r' in B.
           apply N.Div0.div_lt_upper_bound. lia.
Qed.

Lemma digits_of_N_spec n :
  forallb is_digit (digits_of_N n) = true /\
  digits_of_N n <> [] /\
  value_of_digits (digits_of_N n) = Z.of_N n.
Proof.
  unfold digits_of_N.
  destruct (digits_fuel_spec (S (N.to_nat (N.log2 n))) n []) as (ds & E & D & NE & V).
  rewrite E, app_nil_r. split; [exact D|]. split; [now apply NE|].
  apply V. rewrite Nat2N.inj_succ, N2Nat.id.
  destruct n as [|p]; [reflexivity|].
  apply N.lt_le_trans with (2 ^ N.succ (N.log2 (Npos p))).
  - apply N.log2_spec. reflexivity.
  - apply N.pow_le_mono_l. discriminate.
Qed.

Lemma digits_of_N_inj n m : digits_of_N n = digits_of_N m -> n = m.
Proof.
  intros E. apply N2Z.inj.
  rewrite <- (proj2 (proj2 (digits_of_N_spec n))).
  rewrite <- (proj2 (proj2 (digits_of_N_spec m))). now rewrite E.
Qed.

(** The decimal rendering of an integer determines it. *)
Lemma string_of_Z_inj (a b : Z) : string_of_Z a = string_of_Z b -> a = b.
Proof.
  assert (Hminus : forall p q, digits_of_N (Npos p) <> 45 :: q).
  { intros p q E. pose proof (proj1 (digits_of_N_spec (Npos p))) as D.
    rewrite E in D. discriminate. }
  assert (H0 : digits_of_N 0 = [48]) by reflexivity.
  destruct a as [|p|p], b as [|q|q]; cbn [string_of_Z]; intros E;
    try reflexivity; try (now apply Hminus in E);
    try (symmetry in E; now apply Hminus in E);
    try discriminate.
  - rewrite <- H0 in E. apply digits_of_N_inj in E. discriminate.
  - rewrite <- H0 in E. apply digits_of_N_inj in E. discriminate.
  - apply digits_of_N_inj in E. congruence.
  - injection E as E. apply digits_of_N_inj in E. congruence.
Qed.

(** It consists of digits and at most a leading minus sign. *)
Lemma string_of_Z_chars (a : Z) :
  forallb (fun c => is_digit c || (c =? 45)) (string_of_Z a) = true.
Proof.
  assert (W : forall ds, forallb is_digit ds = true ->
                         forallb (fun c => is_digit c || (c =? 45)) ds = true).
  { induction ds as [|c ds IH]; cbn; [reflexivity|].
    intros H. apply andb_true_iff in H as [-> H]. cbn. auto. }
  destruct a as [|p|p]; cbn [string_of_Z].
  - reflexivity.
  - apply W, digits_of_N_spec.
  - cbn. apply W, digits_of_N_spec.
Qed.

End Digits.

(** ** The submission retry loop *)

Section Submission.
Import JS Err Client.
Local Open Scope Z_scope.

Variable connection : Connection.
Variable serializedTransaction : list N.
Variable blockhashData : BlockhashData.

Local Abbreviation deadline := (lastValidBlockHeight blockhashData).
Local Abbreviation loop :=
  (attempts_from connection serializedTransaction blockhashData).

(** The ledger reported a height past the deadline. *)
Definition observes_expiry (c : call) : Prop :=
  exists height, c = GetBlockHeight (Ok height) /\ deadline < height.

Definition observes_expiry_b (c : call) : bool :=
  match c with
  | GetBlockHeight (Ok height) => deadline <? height
  | _ => false
  end.

Definition is_submit (c : call) : bool :=
  match c with SendRawTransaction _ _ => true | _ => false end.

Lemma observes_expiry_iff (c : call) :
  observes_expiry c <-> observes_expiry_b c = true.
Proof.
  unfold observes_expiry, observes_expiry_b. split.
  - intros (ht & -> & L). now apply Z.ltb_lt.
  - destruct c as [[ht|e]| | | |]; try discriminate.
    intros L. exists ht. split; [reflexivity | now apply Z.ltb_lt].
Qed.

Lemma expired_message_recognised :
  includes
    (lit "Transaction blockhash has expired. Please rebuild the transaction.")
    (lit "blockhash has expired") = true.
Proof. vm_compute. reflexivity. Qed.

Lemma attempts_from_S remaining attempt lastError :
  loop (S remaining) attempt lastError
  = try_catch
      (attempt_body connection serializedTransaction blockhashData)
      (fun error =>
         match error_message error with
         | None => throw TypeError
         | Some message =>
             if includes message (lit "blockhash has expired")
             then throw error
             else if (MAX_RETRY_ATTEMPTS <=? attempt)%Z
             then throw
                    (GanymedeError SWAP_FAILED
                       (lit "Transaction failed after "
                          ++ string_of_Z MAX_RETRY_ATTEMPTS
                          ++ lit " retry attempts: " ++ message)
                       (Some error))
             else
               bind (sleep (getRetryDelay attempt))
                 (fun _ => loop remaining (attempt + 1)%Z (Some error))
         end).
Proof. reflexivity. Qed.

(** One attempt whose height check finds the deadline passed: the
    attempt throws the expiry error at once, and the loop rethrows it. *)
Lemma expired_attempt remaining attempt lastError h height :
  getBlockHeight connection h = Ok height ->
  deadline < height ->
  loop (S remaining) attempt lastError h
  = (Throw expired_error, h ++ [GetBlockHeight (Ok height)]).
Proof.
  intros G L. apply Z.ltb_lt in L.
  rewrite attempts_from_S.
  unfold try_catch, attempt_body, hasTransactionExpired, bind, perform, ret.
  rewrite G. rewrite L. unfold throw at 1.
  cbn [expired_error error_message].
  rewrite expired_message_recognised. reflexivity.
Qed.

(** What a run of the loop appends to the history: an expiry observation
    can only be the last call, and then the result is the expiry
    error. *)
Definition terminal_expiry (res : result jsstring) (l : list call) : Prop :=
  forall pre c post,
    l = pre ++ c :: post -> observes_expiry c ->
    post = [] /\ res = Throw expired_error.

Definition quiet (l : list call) : Prop :=
  forallb (fun c => negb (observes_expiry_b c)) l = true.

Lemma terminal_expiry_nil res : terminal_expiry res [].
Proof. intros pre c post E. destruct pre; discriminate. Qed.

Lemma terminal_expiry_cons res c l :
  observes_expiry_b c = false -> terminal_expiry res l ->
  terminal_expiry res (c :: l).
Proof.
  intros Hc Hl pre c0 post E Ho. destruct pre as [|c' pre]; cbn in E.
  - inversion E; subst. apply observes_expiry_iff in Ho. congruence.
  - inversion E; subst. exact (Hl _ _ _ eq_refl Ho).
Qed.

Lemma terminal_expiry_app res l1 l2 :
  quiet l1 -> terminal_expiry res l2 -> terminal_expiry res (l1 ++ l2).
Proof.
  unfold quiet. induction l1 as [|c l1 IH]; cbn; intros Q H; [exact H|].
  apply andb_true_iff in Q as [Qc Q].
  apply terminal_expiry_cons; [now apply negb_true_iff | auto].
Qed.

Lemma terminal_expiry_quiet res l : quiet l -> terminal_expiry res l.
Proof.
  intros Q. rewrite <- (app_nil_r l).
  apply terminal_expiry_app; [exact Q | apply terminal_expiry_nil].
Qed.

Lemma terminal_expiry_last c :
  terminal_expiry (Throw expired_error) [c].
Proof.
  intros pre c0 post E _. destruct pre as [|c' [|? ?]]; cbn in E;
    inversion E; subst. auto.
Qed.

(** The calls of one attempt: either the height check alone, which saw
    the deadline passed and made the attempt throw the expiry error, or
    calls none of which saw the deadline passed. *)
Lemma attempt_body_calls h :
  exists lb,
    snd (attempt_body connection serializedTransaction blockhashData h)
    = h ++ lb /\
    ((exists height, lb = [GetBlockHeight (Ok height)] /\ deadline < height /\
        fst (attempt_body connection serializedTransaction blockhashData h)
        = Throw expired_error)
     \/ quiet lb).
Proof.
  unfold attempt_body, hasTransactionExpired, confirmTransaction,
    getLatestBlockhash, bind, perform, ret, throw, quiet.
  destruct (getBlockHeight connection h) as [height|e] eqn:G.
  - destruct (deadline <? height) eqn:L.
    + eexists. split; [reflexivity|]. left. exists height.
      apply Z.ltb_lt in L. auto.
    + destruct (sendRawTransaction connection _ _) as [txid|e].
      * destruct (latestBlockhash connection _) as [bh|e].
        -- destruct (confirm connection _ _ _) as [[err|]|e];
             (eexists; split;
              [cbn; rewrite <- !app_assoc; reflexivity
              | right; cbn; now rewrite L]).
        -- eexists; split; [cbn; rewrite <- !app_assoc; reflexivity|].
           right; cbn; now rewrite L.
      * eexists; split; [cbn; rewrite <- !app_assoc; reflexivity|].
        right; cbn; now rewrite L.
  - eexists. split; [reflexivity|]. right. reflexivity.
Qed.

Lemma loop_appends remaining : forall attempt lastError h,
  exists l, snd (loop remaining attempt lastError h) = h ++ l /\
            terminal_expiry (fst (loop remaining attempt lastError h)) l.
Proof.
  induction remaining as [|remaining IH]; intros attempt lastError h.
  - exists []. cbn. rewrite app_nil_r. split; [reflexivity|].
    apply terminal_expiry_nil.
  - destruct (attempt_body_calls h) as (lb & Hs & [(height & -> & L & Hr)|Q]).
    + assert (G : getBlockHeight connection h = Ok height).
      { revert Hs. unfold attempt_body, hasTransactionExpired, bind, perform, ret.
        destruct (getBlockHeight connection h) as [ht|e] eqn:G.
        - destruct (lastValidBlockHeight blockhashData <? ht).
          + cbn. intros E. apply app_inv_head in E. congruence.
          + destruct (sendRawTransaction _ _ _); cbn;
              [destruct (latestBlockhash _ _); cbn;
               [destruct (confirm _ _ _ _) as [[?|]|?]; cbn|]|];
              rewrite <- ?app_assoc; intros E; apply app_inv_head in E;
              discriminate.
        - cbn. intros E. apply app_inv_head in E. discriminate. }
      rewrite (expired_attempt remaining attempt lastError h G L).
      eexists. split; [reflexivity|]. apply terminal_expiry_last.
    + rewrite attempts_from_S. unfold try_catch.
      destruct (attempt_body connection serializedTransaction blockhashData h)
        as [[txid|e] h'] eqn:B; cbn in Hs; subst h'.
      * exists lb. split; [reflexivity|]. now apply terminal_expiry_quiet.
      * destruct e as [code msg cause|name msg| |];
          cbn [error_message]; unfold throw;
          try (exists lb; split; [reflexivity|];
               now apply terminal_expiry_quiet).
        -- destruct (includes msg _);
             [exists lb; split; [reflexivity|]; now apply terminal_expiry_quiet|].
           destruct (MAX_RETRY_ATTEMPTS <=? attempt);
             [exists lb; split; [reflexivity|]; now apply terminal_expiry_quiet|].
           unfold bind, sleep.
           destruct (IH (attempt + 1) (Some (GanymedeError code msg cause))
                       ((h ++ lb) ++ [Sleep (getRetryDelay attempt)]))
             as (l & El & Hl).
           destruct (loop remaining _ _ _) as [r hh]; cbn [fst snd] in El, Hl |- *.
           subst hh. exists (lb ++ Sleep (getRetryDelay attempt) :: l).
           split; [now rewrite <- !app_assoc|].
           apply terminal_expiry_app; [exact Q|].
           apply terminal_expiry_cons; [reflexivity | exact Hl].
        -- destruct (includes msg _);
             [exists lb; split; [reflexivity|]; now apply terminal_expiry_quiet|].
           destruct (MAX_RETRY_ATTEMPTS <=? attempt);
             [exists lb; split; [reflexivity|]; now apply terminal_expiry_quiet|].
           unfold bind, sleep.
           destruct (IH (attempt + 1) (Some (JsError name msg))
                       ((h ++ lb) ++ [Sleep (getRetryDelay attempt)]))
             as (l & El & Hl).
           destruct (loop remaining _ _ _) as [r hh]; cbn [fst snd] in El, Hl |- *.
           subst hh. exists (lb ++ Sleep (getRetryDelay attempt) :: l).
           split; [now rewrite <- !app_assoc|].
           apply terminal_expiry_app; [exact Q|].
           apply terminal_expiry_cons; [reflexivity | exact Hl].
Qed.

(** C3. At every attempt of the retry loop (any attempt number, any
    number of attempts left), a height check that finds the ledger past
    the deadline makes the loop throw the blockhash-expired error with
    the height query as its only call: no submit, no sleep, no further
    attempt. And in a whole run of [sendTransactionWithRetry], a height
    past the deadline is only ever observed by the last call of the run,
    whose result is then the expiry error; so no transaction is
    submitted after it. *)
Theorem expired_submission_is_terminal :
  (forall remaining attempt lastError h height,
      getBlockHeight connection h = Ok height ->
      deadline < height ->
      attempts_from connection serializedTransaction blockhashData
        (S remaining) attempt lastError h
      = (Throw expired_error, h ++ [GetBlockHeight (Ok height)])) /\
  (forall h,
      exists l,
        snd (sendTransactionWithRetry connection serializedTransaction
               blockhashData h) = h ++ l /\
        forall pre c post,
          l = pre ++ c :: post -> observes_expiry c ->
          post = [] /\
          fst (sendTransactionWithRetry connection serializedTransaction
                 blockhashData h) = Throw expired_error).
Proof.
  split.
  - intros. now apply expired_attempt.
  - intros h. unfold sendTransactionWithRetry. apply loop_appends.
Qed.
End Submission.

(** A ledger that is at height 100 for the first attempt, refuses the
    transaction, and has passed the deadline of 150 when the second attempt
    checks. *)
Module ExpiryScenario.
Import JS Err Client.

Definition connection : Connection :=
  {| getBlockHeight := fun h => match h with [] => Ok 100%Z | _ => Ok 151%Z end;
     latestBlockhash := fun _ =>
       Ok {| blockhash := lit "9xQeWvG8"; lastValidBlockHeight := 300 |};
     sendRawTransaction := fun _ _ => Throw (JsError (lit "Error") (lit "Node is behind"));
     confirm := fun _ _ _ => Ok None |}.

Definition blockhashData : BlockhashData :=
  {| blockhash := lit "4vJ9JU1b"; lastValidBlockHeight := 150 |}.

Definition transaction : list N := [1; 2; 3]%N.

Definition after_first_attempt : list call :=
  [ GetBlockHeight (Ok 100%Z);
    SendRawTransaction transaction
      (Throw (JsError (lit "Error") (lit "Node is behind")));
    Sleep 500 ].

End ExpiryScenario.

Lemma expired_submission_is_terminal_witness :
  Client.attempts_from ExpiryScenario.connection ExpiryScenario.transaction
    ExpiryScenario.blockhashData 3 1%Z
    (Some (Err.JsError (JS.lit "Error") (JS.lit "Node is behind")))
    ExpiryScenario.after_first_attempt
  = (Err.Throw Client.expired_error,
     ExpiryScenario.after_first_attempt
       ++ [Client.GetBlockHeight (Err.Ok 151%Z)]).
Proof.
  apply (proj1 (@expired_submission_is_terminal ExpiryScenario.connection
                  ExpiryScenario.transaction ExpiryScenario.blockhashData)).
  - reflexivity.
  - reflexivity.
Defined.

Example expiry_scenario_run :
  Client.sendTransactionWithRetry ExpiryScenario.connection
    ExpiryScenario.transaction ExpiryScenario.blockhashData []
  = (Err.Throw Client.expired_error,
     ExpiryScenario.after_first_attempt
       ++ [Client.GetBlockHeight (Err.Ok 151%Z)]).
Proof. vm_compute. reflexivity. Qed.

(** ** The payment wrapper: the spending ceiling *)

Section Ceiling.
Import JS Num Base64 Json Err X402Fetch.

(** How often the wallet was asked to sign, and how many requests went
    out. *)
Definition signing_calls (h : list event) : nat :=
  List.length (filter (fun e => match e with
                                | SignMessage _ _ => true
                                | _ => false
                                end) h).

Definition fetch_calls (h : list event) : nat :=
  List.length (filter (fun e => match e with
                                | Fetch _ _ _ _ => true
                                | _ => false
                                end) h).

Lemma signing_calls_app h1 h2 :
  signing_calls (h1 ++ h2) = (signing_calls h1 + signing_calls h2)%nat.
Proof. unfold signing_calls. now rewrite filter_app, length_app. Qed.

Lemma fetch_calls_app h1 h2 :
  fetch_calls (h1 ++ h2) = (fetch_calls h1 + fetch_calls h2)%nat.
Proof. unfold fetch_calls. now rewrite filter_app, length_app. Qed.

(** Choosing the key never throws, never signs and never fetches: it
    reads the clock when it makes a new key, and nothing else. *)
Lemma select_idempotencyKey_effects env config url method_ walletAddress s :
  exists key s1,
    select_idempotencyKey env config url method_ walletAddress s = (Ok key, s1) /\
    signing_calls (history s1) = signing_calls (history s) /\
    fetch_calls (history s1) = fetch_calls (history s).
Proof.
  unfold select_idempotencyKey, getIdempotencyKey, generateIdempotencyKey,
    Date_now, bind, ret.
  destruct (negb _).
  - destruct (or_else _ None) as [existing|].
    + eauto.
    + eexists _, _. split; [reflexivity|]. cbn [history].
      rewrite signing_calls_app, fetch_calls_app. cbn. lia.
  - eexists _, _. split; [reflexivity|]. cbn [history].
    rewrite signing_calls_app, fetch_calls_app. cbn. lia.
Qed.


End Ceiling.

(** The scenario of the SDK's test "should throw when payment exceeds
    limit": 10000 atomic units of a 6-decimal asset against a ceiling of
    0.001. *)
Module CeilingScenario.
Import JS Num Base64 Json Err X402Fetch.

Definition requirements : json :=
  JObj [ (lit "x402Version", JNum (of_Z 1));
         (lit "scheme", JStr (lit "exact"));
         (lit "network", JStr (lit "solana:EtWTRABZaYq6iMfeYKouRu166VU2xqa1"));
         (lit "amount", JStr (lit "10000"));
         (lit "resource", JStr (lit "https://api.example.com/premium"));
         (lit "description", JStr (lit "Premium feature"));
         (lit "mimeType", JStr (lit "application/json"));
         (lit "payTo", JStr (lit "RecipientAddress"));
         (lit "maxTimeoutSeconds", JNum (of_Z 60));
         (lit "asset",
          JObj [ (lit "address", JStr (lit "USDC_ADDRESS"));
                 (lit "decimals", JNum (of_Z 6));
                 (lit "symbol", JStr (lit "USDC")) ]) ].

Definition paymentHeader : jsstring := to_base64 (stringify requirements).

Definition challenge : Response :=
  {| status := 402;
     response_headers := [(lit "payment-required", paymentHeader)];
     text := lit "Payment Required" |}.

Definition env : Env :=
  {| now := fun h => (1700000000000 + Z.of_nat (List.length h))%Z;
     fetch := fun _ _ _ _ => Ok challenge |}.

Definition wallet : Wallet :=
  {| publicKey := Some (lit "11111111111111111111111111111111");
     signMessage := Some (fun _ _ => Ok (repeat 1%N 64)) |}.

Definition config : PaymentConfig :=
  {| maxPayment := parseFloat (lit "0.001"); network := None;
     timeout := None; enableIdempotency := None |}.

Definition url : jsstring := lit "https://api.example.com/premium".
Definition init : RequestInit := {| method := None; init_headers := [] |}.
Definition start : State := {| idempotencyKeys := []; history := [] |}.

Definition required : number := div (parseInt (lit "10000")) (pow10 6).
Definition idempotencyKey : jsstring :=
  lit "idem_" ++ to_base64url
    (utf8 (lit "11111111111111111111111111111111:https://api.example.com/premium:GET:1700000000000")).
Definition after_key : State :=
  {| idempotencyKeys :=
       [(lit "11111111111111111111111111111111:https://api.example.com/premium:GET",
         idempotencyKey)];
     history := [DateNow 1700000000000] |}.

End CeilingScenario.


(** ** The idempotency registry *)

Section Registry.
Import JS Num Base64 Json Err X402Fetch.

Lemma eqb_eq (a b : jsstring) : JS.eqb a b = true <-> a = b.
Proof. unfold JS.eqb. destruct (list_eq_dec N.eq_dec a b); split; congruence. Qed.

Lemma eqb_refl (a : jsstring) : JS.eqb a a = true.
Proof. now apply eqb_eq. Qed.

Lemma eqb_neq (a b : jsstring) : JS.eqb a b = false <-> a <> b.
Proof. unfold JS.eqb. destruct (list_eq_dec N.eq_dec a b); split; congruence. Qed.

Lemma map_get_set_same k v m : map_get k (map_set k v m) = Some v.
Proof.
  unfold map_get. induction m as [|[k' v'] m IH]; cbn.
  - now rewrite eqb_refl.
  - destruct (JS.eqb k k') eqn:E; cbn; rewrite E; [reflexivity | exact IH].
Qed.

Lemma map_get_set_other k k' v m :
  k <> k' -> map_get k (map_set k' v m) = map_get k m.
Proof.
  intros D. unfold map_get. induction m as [|[k0 v0] m IH]; cbn.
  - apply eqb_neq in D. now rewrite D.
  - destruct (JS.eqb k' k0) eqn:E; cbn.
    + apply eqb_eq in E. subst k0. apply eqb_neq in D. now rewrite D.
    + destruct (JS.eqb k k0); [reflexivity | exact IH].
Qed.

(** The key under which a (payer, url, method) triple is stored. *)
Definition cacheKey (url method walletAddress : jsstring) : jsstring :=
  walletAddress ++ colon ++ url ++ colon ++ method.

(** The registry holds a usable token for the triple. *)
Definition holds (m : list (jsstring * jsstring))
           (url method walletAddress token : jsstring) : Prop :=
  map_get (cacheKey url method walletAddress) m = Some token /\
  truthy token = true.

Lemma getIdempotencyKey_hit env url method walletAddress token s :
  holds (idempotencyKeys s) url method walletAddress token ->
  getIdempotencyKey env url method walletAddress s = (Ok token, s).
Proof.
  intros [G T]. unfold getIdempotencyKey. fold (cacheKey url method walletAddress).
  rewrite G. unfold or_else. now rewrite T.
Qed.

Lemma generated_key_truthy env url method walletAddress s :
  exists token s',
    generateIdempotencyKey env url method walletAddress s = (Ok token, s') /\
    truthy token = true /\ idempotencyKeys s' = idempotencyKeys s.
Proof.
  unfold generateIdempotencyKey, Date_now, bind, ret.
  eexists _, _. split; [reflexivity|]. split; reflexivity.
Qed.

(** A lookup returns a token and leaves the registry holding it. *)
Lemma getIdempotencyKey_holds env url method walletAddress s :
  exists token s',
    getIdempotencyKey env url method walletAddress s = (Ok token, s') /\
    holds (idempotencyKeys s') url method walletAddress token.
Proof.
  unfold getIdempotencyKey. fold (cacheKey url method walletAddress).
  destruct (map_get _ _) as [existing|] eqn:G; unfold or_else;
    [destruct (truthy existing) eqn:T|].
  - exists existing, s. repeat split; assumption.
  - unfold bind.
    destruct (generated_key_truthy env url method walletAddress s)
      as (token & s' & -> & T' & _).
    eexists _, _. split; [reflexivity|]. split; [|exact T'].
    cbn [idempotencyKeys]. apply map_get_set_same.
  - unfold bind.
    destruct (generated_key_truthy env url method walletAddress s)
      as (token & s' & -> & T' & _).
    eexists _, _. split; [reflexivity|]. split; [|exact T'].
    cbn [idempotencyKeys]. apply map_get_set_same.
Qed.

(** A lookup keeps every usable token that is already stored. *)
Lemma getIdempotencyKey_keeps env url method walletAddress s k v :
  map_get k (idempotencyKeys s) = Some v -> truthy v = true ->
  map_get k (idempotencyKeys
               (snd (getIdempotencyKey env url method walletAddress s)))
  = Some v.
Proof.
  intros G T. unfold getIdempotencyKey. fold (cacheKey url method walletAddress).
  destruct (list_eq_dec N.eq_dec k (cacheKey url method walletAddress)) as [->|D].
  - rewrite G. unfold or_else. rewrite T. exact G.
  - destruct (or_else _ None); [exact G|].
    unfold bind.
    destruct (generated_key_truthy env url method walletAddress s)
      as (token & s' & -> & _ & K).
    cbn [snd idempotencyKeys]. rewrite K. now rewrite map_get_set_other.
Qed.

(** Any number of further lookups, for any triples, in any surroundings. *)
Fixpoint lookups (ops : list (Env * (jsstring * jsstring * jsstring)))
         (s : State) : State :=
  match ops with
  | [] => s
  | (env, (url, method, walletAddress)) :: ops' =>
      lookups ops' (snd (getIdempotencyKey env url method walletAddress s))
  end.

Lemma lookups_keep ops : forall s k v,
  map_get k (idempotencyKeys s) = Some v -> truthy v = true ->
  map_get k (idempotencyKeys (lookups ops s)) = Some v.
Proof.
  induction ops as [|[env [[url method] walletAddress]] ops IH]; intros s k v G T.
  - exact G.
  - cbn. apply IH; [|exact T]. now apply getIdempotencyKey_keeps.
Qed.

(** Same (payer, url, method) before invalidation: same token, however
    many other lookups happen in between. *)
Lemma idempotency_key_is_stable env env' url method walletAddress s ops :
  exists token s1,
    getIdempotencyKey env url method walletAddress s = (Ok token, s1) /\
    getIdempotencyKey env' url method walletAddress (lookups ops s1)
    = (Ok token, lookups ops s1).
Proof.
  destruct (getIdempotencyKey_holds env url method walletAddress s)
    as (token & s1 & E & G & T).
  exists token, s1. split; [exact E|].
  apply getIdempotencyKey_hit. split; [|exact T].
  now apply lookups_keep.
Qed.

(** Invalidation by wallet address keeps every token that does not contain
    the address as a substring. *)
Lemma clearIdempotencyKeys_keeps walletAddress s k v :
  map_get k (idempotencyKeys s) = Some v ->
  includes v walletAddress = false ->
  map_get k (idempotencyKeys (clearIdempotencyKeys walletAddress s)) = Some v.
Proof.
  unfold clearIdempotencyKeys, map_get. cbn [idempotencyKeys].
  induction (idempotencyKeys s) as [|[k' v'] m IH]; cbn; [discriminate|].
  destruct (JS.eqb k k') eqn:E.
  - intros [= ->] I. rewrite I. cbn. now rewrite E.
  - intros G I. destruct (includes v' walletAddress); cbn; [|rewrite E]; auto.
Qed.

End Registry.

(** *** Invalidation by wallet address *)

(** One payer asks for a token, invalidates their entries, and asks
    again one minute later. *)
Module InvalidationScenario.
Import JS Num Base64 Json Err X402Fetch.

Definition payer : jsstring := lit "7xKXtg2CW87d97TXJSDpbD5jBkheTqA83TZRuJosgAsU".
Definition url : jsstring := lit "http://localhost:3001/v1/swap/enhanced".
Definition method : jsstring := lit "POST".

Definition env : Env :=
  {| now := fun h => (1700000000000 + 60000 * Z.of_nat (List.length h))%Z;
     fetch := fun _ _ _ _ => Throw NonError |}.

Definition start : State := {| idempotencyKeys := []; history := [] |}.

Definition token : jsstring :=
  lit "idem_" ++ to_base64url
    (utf8 (payer ++ lit ":" ++ url ++ lit ":" ++ method ++ lit ":1700000000000")).

Definition first_lookup : result jsstring * State :=
  getIdempotencyKey env url method payer start.

Definition invalidated : State := clearIdempotencyKeys payer (snd first_lookup).

Definition second_lookup : result jsstring * State :=
  getIdempotencyKey env url method payer invalidated.

End InvalidationScenario.

(** C2 (the code at the failing input). The payer's first lookup makes a
    token; [clearIdempotencyKeys] with that payer's address removes
    nothing, because it searches the address in the stored token, which
    holds it only base64url-encoded; so the lookup after the invalidation
    returns the old token, without reading the clock, although a token
    made then would differ. *)
Theorem clearIdempotencyKeys_keeps_the_token :
  fst InvalidationScenario.first_lookup = Err.Ok InvalidationScenario.token /\
  X402Fetch.idempotencyKeys InvalidationScenario.invalidated
  = X402Fetch.idempotencyKeys (snd InvalidationScenario.first_lookup) /\
  InvalidationScenario.second_lookup
  = (Err.Ok InvalidationScenario.token, InvalidationScenario.invalidated) /\
  exists fresh,
    fst (X402Fetch.generateIdempotencyKey InvalidationScenario.env
           InvalidationScenario.url InvalidationScenario.method
           InvalidationScenario.payer InvalidationScenario.invalidated)
    = Err.Ok fresh /\
    fresh <> InvalidationScenario.token.
Proof.
  split; [vm_compute; reflexivity|].
  split; [vm_compute; reflexivity|].
  split; [vm_compute; reflexivity|].
  eexists. split; [vm_compute; reflexivity|].
  apply eqb_neq. vm_compute. reflexivity.
Qed.

(** After [clearAllIdempotencyKeys] the entry is gone, and the next lookup
    makes a new token from the clock. *)
Example clearAllIdempotencyKeys_gives_a_new_token :
  exists fresh s,
    X402Fetch.getIdempotencyKey InvalidationScenario.env
      InvalidationScenario.url InvalidationScenario.method
      InvalidationScenario.payer
      (X402Fetch.clearAllIdempotencyKeys (snd InvalidationScenario.first_lookup))
    = (Err.Ok fresh, s) /\
    JS.eqb fresh InvalidationScenario.token = false.
Proof. eexists _, _. split; vm_compute; reflexivity. Qed.

(** ** The payment wrapper: what a call does to the module's state *)

Section Wrapper.
Import JS Num Base64 Json Err X402Fetch.

(** [s'] comes after [s]: same registry, a longer history. *)
Definition appends (s s' : State) : Prop :=
  idempotencyKeys s' = idempotencyKeys s /\
  exists l, history s' = history s ++ l.

Definition monotone {A} (m : M State A) : Prop :=
  forall s, appends s (snd (m s)).

Lemma appends_refl s : appends s s.
Proof. split; [reflexivity|]. exists []. now rewrite app_nil_r. Qed.

Lemma appends_trans s1 s2 s3 : appends s1 s2 -> appends s2 s3 -> appends s1 s3.
Proof.
  intros [K1 [l1 H1]] [K2 [l2 H2]]. split; [congruence|].
  exists (l1 ++ l2). now rewrite H2, H1, app_assoc.
Qed.

Lemma monotone_ret A (a : A) : monotone (ret a).
Proof. intros s. apply appends_refl. Qed.

Lemma monotone_throw A e : monotone (@throw State A e).
Proof. intros s. apply appends_refl. Qed.

Lemma monotone_lift A (r : result A) : monotone (lift r).
Proof. intros s. apply appends_refl. Qed.

Lemma monotone_bind A B (m : M State A) (k : A -> M State B) :
  monotone m -> (forall a, monotone (k a)) -> monotone (bind m k).
Proof.
  intros Hm Hk s. unfold bind. specialize (Hm s).
  destruct (m s) as [[a|e] s']; cbn in Hm |- *; [|exact Hm].
  eapply appends_trans; [exact Hm | apply Hk].
Qed.

Lemma monotone_try_catch A (m : M State A) (h : thrown -> M State A) :
  monotone m -> (forall e, monotone (h e)) -> monotone (try_catch m h).
Proof.
  intros Hm Hh s. unfold try_catch. specialize (Hm s).
  destruct (m s) as [[a|e] s']; cbn in Hm |- *; [exact Hm|].
  destruct e; try exact Hm; (eapply appends_trans; [exact Hm | apply Hh]).
Qed.

Lemma try_catch_bind A B (m : M State A) (k : A -> M State B) h s :
  try_catch (bind m k) h s
  = match m s with
    | (Ok a, s') => try_catch (k a) h s'
    | (Throw e, s') => try_catch (throw e) h s'
    end.
Proof. unfold try_catch, bind, throw. now destruct (m s) as [[a|e] s']. Qed.

Lemma monotone_Date_now env : monotone (Date_now env).
Proof. intros s. split; [reflexivity|]. cbn. eauto. Qed.

Lemma monotone_fetchWithTimeout env input method hs timeoutMs :
  monotone (fetchWithTimeout env input method hs timeoutMs).
Proof.
  intros s. unfold fetchWithTimeout.
  destruct (fetch env _ _ _ _) as [r|e];
    [|destruct (match error_name e with Some _ => _ | None => _ end)];
    (split; [reflexivity|]; cbn; eauto).
Qed.

Lemma monotone_createPaymentPayload env wallet requirements idempotencyKey :
  monotone (createPaymentPayload env wallet requirements idempotencyKey).
Proof.
  unfold createPaymentPayload.
  destruct (signMessage wallet) as [sign|]; [|apply monotone_throw].
  destruct (publicKey wallet) as [payer|]; [|apply monotone_throw].
  apply monotone_bind; [apply monotone_lift|]. intros f.
  apply monotone_bind; [apply monotone_Date_now|]. intros timestamp.
  apply monotone_bind.
  - intros s. split; [reflexivity|]. cbn [snd history]. eauto.
  - intros signature. destruct (btoa _); [apply monotone_ret | apply monotone_throw].
Qed.

Lemma monotone_on_response env wallet config url init key timeoutMs response :
  monotone (on_response env wallet config url init key timeoutMs response).
Proof.
  unfold on_response.
  destruct (negb _); [apply monotone_ret|].
  destruct (or_else _ _) as [paymentHeader|]; [|apply monotone_throw].
  apply monotone_bind; [apply monotone_lift|]. intros requirements.
  apply monotone_bind; [apply monotone_lift|]. intros required.
  destruct (gtb _ _); [apply monotone_throw|].
  apply monotone_bind; [apply monotone_createPaymentPayload|]. intros payload.
  apply monotone_bind; [apply monotone_fetchWithTimeout|]. intros paid.
  destruct (negb _); [apply monotone_throw | apply monotone_ret].
Qed.

Lemma monotone_on_error e : monotone (on_error e).
Proof.
  unfold on_error. destruct (is_GanymedeError e); apply monotone_throw.
Qed.

(** The key a call sends: the [x-idempotency-key] header of the first
    request issued after the history [before]. *)
Definition sent_key (before after : list event) : option jsstring :=
  match find (fun e => match e with Fetch _ _ _ _ => true | _ => false end)
             (skipn (List.length before) after) with
  | Some (Fetch _ _ hs _) => get (lit "x-idempotency-key") hs
  | _ => None
  end.

Lemma get_with_header hs k v : get k (with_header hs k v) = Some v.
Proof. apply map_get_set_same. Qed.

(** Once the key is chosen the wrapper issues its first request, carrying
    the key, whatever happens next; and it leaves the registry as the key
    selection left it. *)
Lemma wrapper_first_request env wallet config input init s key s1 :
  select_idempotencyKey env config input
    (or_default (method init) (lit "GET")) (address_of wallet) s
  = (Ok key, s1) ->
  exists out rest,
    history (snd (wrapFetchWithPayment env wallet config input init s))
    = history s1
        ++ Fetch input (method init)
             (with_header (init_headers init) (lit "x-idempotency-key") key)
             out :: rest /\
    idempotencyKeys (snd (wrapFetchWithPayment env wallet config input init s))
    = idempotencyKeys s1.
Proof.
  intros Hkey.
  assert (E : wrapFetchWithPayment env wallet config input init s
              = try_catch
                  (bind (fetchWithTimeout env input (method init)
                           (with_header (init_headers init)
                              (lit "x-idempotency-key") key) (timeout_of config))
                        (on_response env wallet config input init key
                           (timeout_of config)))
                  on_error s1).
  { unfold wrapFetchWithPayment, bind at 1. now rewrite Hkey. }
  rewrite E, try_catch_bind. unfold fetchWithTimeout.
  set (hs := with_header (init_headers init) (lit "x-idempotency-key") key).
  set (out := fetch env (history s1) input (method init) hs).
  set (s' := {| idempotencyKeys := idempotencyKeys s1;
                history := history s1 ++ [Fetch input (method init) hs out] |}).
  assert (Hafter : forall (m : M State Response),
             monotone m ->
             exists rest,
               history (snd (m s'))
               = history s1 ++ Fetch input (method init) hs out :: rest /\
               idempotencyKeys (snd (m s')) = idempotencyKeys s1).
  { intros m Hm. destruct (Hm s') as [K [l H]]. exists l. split; [|exact K].
    rewrite H. cbn. now rewrite <- app_assoc. }
  exists out. subst s'.
  destruct out as [response|e];
    [|destruct (match error_name e with Some _ => _ | None => _ end)];
    match goal with
    | |- context [snd (try_catch ?m ?h _)] => apply (Hafter (try_catch m h))
    end;
    apply monotone_try_catch;
    auto using monotone_on_response, monotone_on_error, monotone_throw.
Qed.

Lemma skipn_length_app A (l1 l2 : list A) :
  skipn (List.length l1) (l1 ++ l2) = l2.
Proof. induction l1; cbn; auto. Qed.

Lemma sent_key_first before pre url method hs out rest :
  (pre = [] \/ exists t, pre = [DateNow t]) ->
  sent_key before (before ++ pre ++ Fetch url method hs out :: rest)
  = get (lit "x-idempotency-key") hs.
Proof.
  intros H. unfold sent_key. rewrite skipn_length_app.
  destruct H as [->|[t ->]]; reflexivity.
Qed.

(** A lookup reads the clock at most once and does nothing else to the
    history. *)
Lemma getIdempotencyKey_history env url method walletAddress s :
  exists pre,
    history (snd (getIdempotencyKey env url method walletAddress s))
    = history s ++ pre /\
    (pre = [] \/ exists t, pre = [DateNow t]).
Proof.
  unfold getIdempotencyKey, generateIdempotencyKey, Date_now, bind, ret.
  destruct (or_else _ None).
  - exists []. cbn. rewrite app_nil_r. auto.
  - eexists. cbn. split; [reflexivity|]. right. eauto.
Qed.

(** C10. With a wallet whose [publicKey] is [null] the wrapper does not
    fail before its request: it takes the idempotency key of the payer
    ['unknown'] and sends the request with it. With key caching on (the
    default), a later call by any other disconnected wallet for the same
    url and method, with any lookups in between and no invalidation, sends
    the very same token. *)
Theorem disconnected_wallets_share_idempotency_key
        (env1 env2 : Env) (wallet1 wallet2 : Wallet)
        (config1 config2 : PaymentConfig) (url : jsstring)
        (init1 init2 : RequestInit) (s : State)
        (ops : list (Env * (jsstring * jsstring * jsstring))) :
  publicKey wallet1 = None -> publicKey wallet2 = None ->
  enableIdempotency config1 <> Some false ->
  enableIdempotency config2 <> Some false ->
  or_default (method init1) (lit "GET") = or_default (method init2) (lit "GET") ->
  exists token,
    fst (getIdempotencyKey env1 url (or_default (method init1) (lit "GET"))
           (lit "unknown") s) = Ok token /\
    sent_key (history s)
      (history (snd (wrapFetchWithPayment env1 wallet1 config1 url init1 s)))
    = Some token /\
    sent_key
      (history (lookups ops
                  (snd (wrapFetchWithPayment env1 wallet1 config1 url init1 s))))
      (history
         (snd (wrapFetchWithPayment env2 wallet2 config2 url init2
                 (lookups ops
                    (snd (wrapFetchWithPayment env1 wallet1 config1 url
                            init1 s))))))
    = Some token.
Proof.
  intros P1 P2 C1 C2 Hm.
  assert (A1 : address_of wallet1 = lit "unknown")
    by (unfold address_of; now rewrite P1).
  assert (A2 : address_of wallet2 = lit "unknown")
    by (unfold address_of; now rewrite P2).
  assert (S1 : forall m w, select_idempotencyKey env1 config1 url m w
                           = getIdempotencyKey env1 url m w).
  { intros m w. unfold select_idempotencyKey.
    destruct (enableIdempotency config1) as [[|]|]; try reflexivity.
    now destruct C1. }
  assert (S2 : forall m w, select_idempotencyKey env2 config2 url m w
                           = getIdempotencyKey env2 url m w).
  { intros m w. unfold select_idempotencyKey.
    destruct (enableIdempotency config2) as [[|]|]; try reflexivity.
    now destruct C2. }
  set (m1 := or_default (method init1) (lit "GET")) in *.
  destruct (getIdempotencyKey_holds env1 url m1 (lit "unknown") s)
    as (token & s1 & E1 & Hholds).
  destruct (getIdempotencyKey_history env1 url m1 (lit "unknown") s)
    as (pre & Hpre & Hshape).
  rewrite E1 in Hpre. cbn [snd] in Hpre.
  destruct (@wrapper_first_request env1 wallet1 config1 url init1 s token s1)
    as (out1 & rest1 & H1 & K1).
  { fold m1. now rewrite A1, S1. }
  exists token. split; [now rewrite E1|]. split.
  - rewrite H1, Hpre, <- app_assoc.
    rewrite (sent_key_first _ _ _ _ _ _ Hshape). apply get_with_header.
  - set (between := lookups ops _) in *.
    assert (Hb : holds (idempotencyKeys between) url m1 (lit "unknown") token).
    { destruct Hholds as [G T]. split; [|exact T].
      apply lookups_keep; [|exact T]. now rewrite K1. }
    destruct (@wrapper_first_request env2 wallet2 config2 url init2 between
                token between) as (out2 & rest2 & H2 & _).
    { rewrite <- Hm. fold m1. rewrite A2, S2.
      now apply getIdempotencyKey_hit. }
    rewrite H2.
    etransitivity;
      [apply (sent_key_first (history between) (pre := []) _ _ _ _ _
                (or_introl eq_refl))
      | apply get_with_header].
Qed.

End Wrapper.

(** Two wallets without a public key, one of which cannot even sign,
    calling the same endpoint one after the other. *)
Module DisconnectedScenario.
Import JS Num Base64 Json Err X402Fetch.

Definition wallet1 : Wallet :=
  {| publicKey := None; signMessage := Some (fun _ _ => Ok (repeat 1%N 64)) |}.
Definition wallet2 : Wallet := {| publicKey := None; signMessage := None |}.

Definition welcome : Response :=
  {| status := 200; response_headers := []; text := lit "ok" |}.

Definition env : Env :=
  {| now := fun h => (1700000000000 + Z.of_nat (List.length h))%Z;
     fetch := fun _ _ _ _ => Ok welcome |}.

Definition config : PaymentConfig :=
  {| maxPayment := parseFloat (lit "0.01"); network := None;
     timeout := None; enableIdempotency := None |}.

Definition url : jsstring := lit "http://localhost:3001/v1/swap/enhanced".
Definition init : RequestInit :=
  {| method := Some (lit "POST"); init_headers := [] |}.
Definition start : State := {| idempotencyKeys := []; history := [] |}.

Definition token : jsstring :=
  lit "idem_" ++ to_base64url
    (utf8 (lit "unknown:http://localhost:3001/v1/swap/enhanced:POST:1700000000000")).

End DisconnectedScenario.

Lemma disconnected_wallets_share_idempotency_key_witness :
  exists token,
    fst (X402Fetch.getIdempotencyKey DisconnectedScenario.env
           DisconnectedScenario.url (JS.lit "POST") (JS.lit "unknown")
           DisconnectedScenario.start) = Err.Ok token /\
    sent_key []
      (X402Fetch.history
         (snd (X402Fetch.wrapFetchWithPayment DisconnectedScenario.env
                 DisconnectedScenario.wallet1 DisconnectedScenario.config
                 DisconnectedScenario.url DisconnectedScenario.init
                 DisconnectedScenario.start)))
    = Some token /\
    sent_key
      (X402Fetch.history
         (snd (X402Fetch.wrapFetchWithPayment DisconnectedScenario.env
                 DisconnectedScenario.wallet1 DisconnectedScenario.config
                 DisconnectedScenario.url DisconnectedScenario.init
                 DisconnectedScenario.start)))
      (X402Fetch.history
         (snd (X402Fetch.wrapFetchWithPayment DisconnectedScenario.env
                 DisconnectedScenario.wallet2 DisconnectedScenario.config
                 DisconnectedScenario.url DisconnectedScenario.init
                 (snd (X402Fetch.wrapFetchWithPayment DisconnectedScenario.env
                         DisconnectedScenario.wallet1
                         DisconnectedScenario.config DisconnectedScenario.url
                         DisconnectedScenario.init
                         DisconnectedScenario.start)))))
    = Some token.
Proof.
  apply (@disconnected_wallets_share_idempotency_key
           DisconnectedScenario.env DisconnectedScenario.env
           DisconnectedScenario.wallet1 DisconnectedScenario.wallet2
           DisconnectedScenario.config DisconnectedScenario.config
           DisconnectedScenario.url DisconnectedScenario.init
           DisconnectedScenario.init DisconnectedScenario.start []).
  - reflexivity.
  - reflexivity.
  - discriminate.
  - discriminate.
  - reflexivity.
Defined.

Example disconnected_scenario_token :
  sent_key []
    (X402Fetch.history
       (snd (X402Fetch.wrapFetchWithPayment DisconnectedScenario.env
               DisconnectedScenario.wallet2 DisconnectedScenario.config
               DisconnectedScenario.url DisconnectedScenario.init
               DisconnectedScenario.start)))
  = Some DisconnectedScenario.token.
Proof. vm_compute. reflexivity. Qed.

(** ** The authorization payload *)

Section Authorization.
Import JS Num Base64 Json Err X402Fetch.

(** What a successful [createPaymentPayload] did: it read the clock, had
    the wallet sign the claim stamped with that reading, and encoded the
    payload around that claim and signature. *)
Lemma createPaymentPayload_ok env wallet requirements key s p s' :
  createPaymentPayload env wallet requirements key s = (Ok p, s') ->
  exists payer f signature,
    publicKey wallet = Some payer /\
    read_fields requirements = Ok f /\
    let t := now env (history s) in
    let message := claim_text f t payer key in
    history s'
    = history s ++ [DateNow t; SignMessage (utf8 message) (Ok signature)] /\
    btoa (stringify (payload_json f message signature payer key)) = Some p.
Proof.
  unfold createPaymentPayload.
  destruct (signMessage wallet) as [sign|]; [|discriminate].
  destruct (publicKey wallet) as [payer|]; [|discriminate].
  unfold bind at 1, lift.
  destruct (read_fields requirements) as [f|e]; [|discriminate].
  unfold bind at 1, Date_now. unfold bind. cbn [history idempotencyKeys].
  destruct (sign _ _) as [signature|e] eqn:Hs; [|discriminate].
  destruct (btoa _) as [p'|] eqn:Hb; [|discriminate].
  unfold ret. intros E.
  pose proof (f_equal fst E) as E1. pose proof (f_equal snd E) as E2.
  change (Ok p' = Ok p) in E1. injection E1 as <-.
  match type of E2 with snd (_, ?x) = _ => change (x = s') in E2 end.
  subst s'.
  exists payer, f, signature. cbn zeta.
  repeat split; try assumption.
  cbn [history]. now rewrite <- app_assoc.
Qed.

(** C4 (amended). Two invocations that build a payload for the same
    idempotency key, wallet and requirement each read the clock and ask the
    wallet for a signature of their own; the two payloads are the same
    function of that clock reading and that signature, with the same
    idempotency key, requirement fields and public key. They are
    identical when the clock readings and the signatures are. *)
Theorem authorization_payload_rebuilt_per_invocation
        (env1 env2 : Env) (wallet : Wallet) (requirements : json)
        (key : jsstring) (s1 s2 s1' s2' : State) (p1 p2 : jsstring) :
  createPaymentPayload env1 wallet requirements key s1 = (Ok p1, s1') ->
  createPaymentPayload env2 wallet requirements key s2 = (Ok p2, s2') ->
  exists payer f signature1 signature2,
    publicKey wallet = Some payer /\
    read_fields requirements = Ok f /\
    let t1 := now env1 (history s1) in
    let t2 := now env2 (history s2) in
    history s1'
    = history s1
        ++ [DateNow t1;
            SignMessage (utf8 (claim_text f t1 payer key)) (Ok signature1)] /\
    history s2'
    = history s2
        ++ [DateNow t2;
            SignMessage (utf8 (claim_text f t2 payer key)) (Ok signature2)] /\
    btoa (stringify (payload_json f (claim_text f t1 payer key) signature1
                       payer key)) = Some p1 /\
    btoa (stringify (payload_json f (claim_text f t2 payer key) signature2
                       payer key)) = Some p2 /\
    (t1 = t2 -> signature1 = signature2 -> p1 = p2).
Proof.
  intros H1 H2.
  destruct (createPaymentPayload_ok _ _ _ _ _ H1)
    as (payer & f & sig1 & P & F & Hh1 & Hp1).
  destruct (createPaymentPayload_ok _ _ _ _ _ H2)
    as (payer' & f' & sig2 & P' & F' & Hh2 & Hp2).
  rewrite P in P'. injection P' as <-. rewrite F in F'. injection F' as <-.
  exists payer, f, sig1, sig2. cbn zeta in *.
  repeat split; try assumption.
  intros Et Es. rewrite Et, Es in Hp1. congruence.
Qed.

(** The payload a call sends: the [payment-signature] header of its last
    request. *)
Definition sent_payload (before after : list event) : option jsstring :=
  match rev (skipn (List.length before) after) with
  | Fetch _ _ hs _ :: _ => get (lit "payment-signature") hs
  | _ => None
  end.

End Authorization.

(** A server that challenges every unpaid request with the same
    requirement and accepts every paid one; the same connected wallet calls
    the same endpoint twice, a little later the second time. *)
Module RepeatScenario.
Import JS Num Base64 Json Err X402Fetch.

Definition requirements : json :=
  JObj [ (lit "x402Version", JNum (of_Z 1));
         (lit "scheme", JStr (lit "exact"));
         (lit "network", JStr (lit "solana:EtWTRABZaYq6iMfeYKouRu166VU2xqa1"));
         (lit "amount", JStr (lit "5000"));
         (lit "resource", JStr (lit "https://api.example.com/premium"));
         (lit "payTo", JStr (lit "RecipientAddress"));
         (lit "asset",
          JObj [ (lit "address", JStr (lit "USDC_ADDRESS"));
                 (lit "decimals", JNum (of_Z 6));
                 (lit "symbol", JStr (lit "USDC")) ]) ].

Definition challenge : Response :=
  {| status := 402;
     response_headers :=
       [(lit "payment-required", to_base64 (stringify requirements))];
     text := lit "Payment Required" |}.

Definition premium : Response :=
  {| status := 200; response_headers := []; text := lit "premium" |}.

Definition env : Env :=
  {| now := fun h => (1700000000000 + Z.of_nat (List.length h))%Z;
     fetch := fun _ _ _ hs =>
                match get (lit "payment-signature") hs with
                | Some _ => Ok premium
                | None => Ok challenge
                end |}.

Definition wallet : Wallet :=
  {| publicKey := Some (lit "11111111111111111111111111111111");
     signMessage := Some (fun _ _ => Ok (repeat 1%N 64)) |}.

Definition config : PaymentConfig :=
  {| maxPayment := parseFloat (lit "0.01"); network := None;
     timeout := None; enableIdempotency := None |}.

Definition url : jsstring := lit "https://api.example.com/premium".
Definition init : RequestInit := {| method := None; init_headers := [] |}.
Definition start : State := {| idempotencyKeys := []; history := [] |}.

Definition key : jsstring := lit "idem_MTExMTEx".
Definition later : State :=
  {| idempotencyKeys := []; history := [DateNow 1700000000000] |}.

Definition built1 : result jsstring * State :=
  createPaymentPayload env wallet requirements key start.
Definition built2 : result jsstring * State :=
  createPaymentPayload env wallet requirements key later.
Definition payload_of (r : result jsstring * State) : jsstring :=
  match fst r with Ok p => p | Throw _ => [] end.

Definition first : result Response * State :=
  wrapFetchWithPayment env wallet config url init start.
Definition second : result Response * State :=
  wrapFetchWithPayment env wallet config url init (snd first).

End RepeatScenario.

(** C4 (as stated, refuted). Both calls resolve to the same idempotency
    key and both are paid, yet the two authorization payloads differ: the
    second call built and signed a new one. *)
Lemma authorization_payload_differs_for_same_key :
  sent_key [] (X402Fetch.history (snd RepeatScenario.first))
  = sent_key (X402Fetch.history (snd RepeatScenario.first))
             (X402Fetch.history (snd RepeatScenario.second)) /\
  sent_key [] (X402Fetch.history (snd RepeatScenario.first)) <> None /\
  exists p1 p2,
    sent_payload [] (X402Fetch.history (snd RepeatScenario.first)) = Some p1 /\
    sent_payload (X402Fetch.history (snd RepeatScenario.first))
                 (X402Fetch.history (snd RepeatScenario.second)) = Some p2 /\
    p1 <> p2.
Proof.
  split; [vm_compute; reflexivity|].
  split; [vm_compute; discriminate|].
  eexists _, _. split; [vm_compute; reflexivity|].
  split; [vm_compute; reflexivity|].
  apply eqb_neq. vm_compute. reflexivity.
Qed.

Lemma authorization_payload_rebuilt_per_invocation_witness :
  exists payer f signature1 signature2,
    X402Fetch.publicKey RepeatScenario.wallet = Some payer /\
    X402Fetch.read_fields RepeatScenario.requirements = Err.Ok f /\
    X402Fetch.history (snd RepeatScenario.built1)
    = [ X402Fetch.DateNow 1700000000000;
        X402Fetch.SignMessage
          (Base64.utf8 (X402Fetch.claim_text f 1700000000000 payer
                          RepeatScenario.key))
          (Err.Ok signature1) ] /\
    X402Fetch.history (snd RepeatScenario.built2)
    = [ X402Fetch.DateNow 1700000000000;
        X402Fetch.DateNow 1700000000001;
        X402Fetch.SignMessage
          (Base64.utf8 (X402Fetch.claim_text f 1700000000001 payer
                          RepeatScenario.key))
          (Err.Ok signature2) ] /\
    RepeatScenario.payload_of RepeatScenario.built1
    <> RepeatScenario.payload_of RepeatScenario.built2.
Proof.
  destruct (@authorization_payload_rebuilt_per_invocation
              RepeatScenario.env RepeatScenario.env RepeatScenario.wallet
              RepeatScenario.requirements RepeatScenario.key
              RepeatScenario.start RepeatScenario.later
              (snd RepeatScenario.built1) (snd RepeatScenario.built2)
              (RepeatScenario.payload_of RepeatScenario.built1)
              (RepeatScenario.payload_of RepeatScenario.built2))
    as (payer & f & sg1 & sg2 & P & F & H1 & H2 & _).
  - vm_compute. reflexivity.
  - vm_compute. reflexivity.
  - exists payer, f, sg1, sg2.
    split; [exact P|]. split; [exact F|]. split; [exact H1|]. split; [exact H2|].
    apply eqb_neq. vm_compute. reflexivity.
Defined.

(** ** The payment verifier *)

Section Verifier.
Import JS Num Base64 Json Err X402Server.

Variable env : Env.
Variable paymentSignature : jsstring.
Variable requirements : PaymentRequirements.
Variable facilitatorUrl : jsstring.

Local Abbreviation verify :=
  (verifyPayment env paymentSignature requirements facilitatorUrl).

(** [x !== s] tells exactly whether [x] is the string [s]. *)
Lemma not_string_false_iff x s :
  not_string x s = false <-> x = Some (JStr s).
Proof.
  unfold not_string. split.
  - destruct x as [[| | |t| |]|]; try discriminate.
    intros H. apply negb_false_iff, eqb_eq in H. now subst.
  - intros ->. now rewrite eqb_refl.
Qed.

Lemma decode_payload_throws e :
  decode_payload paymentSignature = Throw e ->
  exists name message, e = JsError name message.
Proof.
  unfold decode_payload.
  destruct (atob paymentSignature) as [payloadJson|];
    [destruct (parse payloadJson)|]; intros [= <-];
    unfold SyntaxError, InvalidCharacterError; eauto.
Qed.

Lemma prop_throws v k e :
  prop v k = Throw e -> e = TypeError.
Proof. destruct v; cbn; congruence. Qed.

(** The verifier always returns a result. *)
Lemma verifyPayment_returns h :
  exists result h', verify h = (Ok result, h').
Proof.
  unfold verifyPayment, try_catch, bind, lift, ret, throw.
  destruct (decode_payload paymentSignature) as [payload|e] eqn:D.
  2:{ destruct (decode_payload_throws D) as (n & m & ->). cbn. eauto. }
  destruct (prop payload (lit "x402Version")) as [version|e] eqn:V.
  2:{ apply prop_throws in V. subst e. cbn. eauto. }
  destruct (not_one version); [eauto|].
  destruct (prop payload (lit "network")) as [net|e] eqn:Nw.
  2:{ apply prop_throws in Nw. subst e. cbn. eauto. }
  destruct (not_string net _); [eauto|].
  destruct (facilitator env _ _ _) as [|[|] [result|]];
    try (destruct result); cbn;
    try (destruct (negb _)); eauto.
Qed.

(** C5. The verifier never throws: on every input it returns a
    verification result. An undecodable payload, a protocol version other
    than 1, or a network that is not the requirement's network gives
    [valid: false] with a reason string ("Invalid x402 version", "Network
    mismatch") and no call to the facilitator. The network test is
    equality of strings: it passes only for the requirement's network
    itself. *)
Theorem verifyPayment_never_throws_and_gates (h : list event) :
  (exists result h', verify h = (Ok result, h')) /\
  (forall e, decode_payload paymentSignature = Throw e ->
             exists reason, verify h = (Ok (invalid reason), h)) /\
  (forall payload version,
      decode_payload paymentSignature = Ok payload ->
      prop payload (lit "x402Version") = Ok version ->
      not_one version = true ->
      verify h = (Ok (invalid (lit "Invalid x402 version")), h)) /\
  (forall payload version net,
      decode_payload paymentSignature = Ok payload ->
      prop payload (lit "x402Version") = Ok version ->
      not_one version = false ->
      prop payload (lit "network") = Ok net ->
      net <> Some (JStr (r_network requirements)) ->
      verify h = (Ok (invalid (lit "Network mismatch")), h)).
Proof.
  split; [apply verifyPayment_returns|].
  split; [|split].
  - intros e D. destruct (decode_payload_throws D) as (n & m & ->).
    exists m. unfold verifyPayment, try_catch, bind, lift. now rewrite D.
  - intros payload version D V N1.
    unfold verifyPayment, try_catch, bind, lift. now rewrite D, V, N1.
  - intros payload version net D V N1 Nw Hne.
    assert (N2 : not_string net (r_network requirements) = true).
    { destruct (not_string net _) eqn:E; [reflexivity|].
      now apply not_string_false_iff in E. }
    unfold verifyPayment, try_catch, bind, lift.
    now rewrite D, V, N1, Nw, N2.
Qed.

End Verifier.

(** The payloads of the server's tests "should reject payment with
    network mismatch" (mainnet instead of devnet) and of a network that is
    only a prefix of the required one. *)
Module MismatchScenario.
Import JS Num Base64 Json Err X402Server.

Definition devnet : jsstring := lit "solana:EtWTRABZaYq6iMfeYKouRu166VU2xqa1".
Definition mainnet : jsstring := lit "solana:5eykt4UsFv8P8NJdTREpY1vzqKqZKvdp".

Definition payload (net : jsstring) : json :=
  JObj [ (lit "x402Version", JNum (of_Z 1));
         (lit "scheme", JStr (lit "exact"));
         (lit "network", JStr net);
         (lit "payload", JObj []) ].

Definition signature_of (net : jsstring) : jsstring :=
  to_base64 (stringify (payload net)).

Definition request : Request :=
  {| method := lit "GET"; path := lit "/premium"; protocol := lit "http";
     host := Some (lit "127.0.0.1:3001"); originalUrl := lit "/premium";
     headers := [] |}.

Definition config : PricingConfig :=
  {| price := lit "$0.005"; network := devnet;
     description := lit "Test premium endpoint"; mimeType := None |}.

Definition requirements : PaymentRequirements :=
  build_requirements (lit "TestPaymentWallet") config
    (lit "4zMMC9srt5Ri5X14GAgXhaHii3GnPAEERYPJgZJDncDU") request.

Definition env : Env :=
  {| facilitator := fun _ _ _ => Unreachable;
     NODE_ENV := Some (lit "test");
     now := fun _ => 1700000000000%Z;
     random36 := fun _ => lit "0.4fzyo82mvyr" |}.

End MismatchScenario.

Lemma verifyPayment_never_throws_and_gates_witness :
  X402Server.verifyPayment MismatchScenario.env
    (MismatchScenario.signature_of MismatchScenario.mainnet)
    MismatchScenario.requirements (JS.lit "https://test.facilitator.com") []
  = (Err.Ok (X402Server.invalid (JS.lit "Network mismatch")), []) /\
  X402Server.verifyPayment MismatchScenario.env
    (MismatchScenario.signature_of (JS.lit "solana:EtWTRABZaYq6iMfeYKouRu166"))
    MismatchScenario.requirements (JS.lit "https://test.facilitator.com") []
  = (Err.Ok (X402Server.invalid (JS.lit "Network mismatch")), []).
Proof.
  split.
  - apply (proj2 (proj2 (proj2
             (@verifyPayment_never_throws_and_gates MismatchScenario.env
                (MismatchScenario.signature_of MismatchScenario.mainnet)
                MismatchScenario.requirements
                (JS.lit "https://test.facilitator.com") []))))
      with (payload := MismatchScenario.payload MismatchScenario.mainnet)
           (version := Some (Json.JNum (Num.of_Z 1)))
           (net := Some (Json.JStr MismatchScenario.mainnet));
      try (vm_compute; reflexivity).
    vm_compute. discriminate.
  - apply (proj2 (proj2 (proj2
             (@verifyPayment_never_throws_and_gates MismatchScenario.env
                (MismatchScenario.signature_of
                   (JS.lit "solana:EtWTRABZaYq6iMfeYKouRu166"))
                MismatchScenario.requirements
                (JS.lit "https://test.facilitator.com") []))))
      with (payload := MismatchScenario.payload
                         (JS.lit "solana:EtWTRABZaYq6iMfeYKouRu166"))
           (version := Some (Json.JNum (Num.of_Z 1)))
           (net := Some (Json.JStr (JS.lit "solana:EtWTRABZaYq6iMfeYKouRu166")));
      try (vm_compute; reflexivity).
    vm_compute. discriminate.
Defined.

(** *** The fallback without a facilitator *)

Section DevFallback.
Import JS Num Base64 Json Err X402Server.

Definition underscore : N := 95.

(** Cutting at the first underscore. *)
Lemma split_at_underscore (a a' b b' : jsstring) :
  forallb (fun c => negb (c =? underscore)%N) a = true ->
  forallb (fun c => negb (c =? underscore)%N) a' = true ->
  a ++ underscore :: b = a' ++ underscore :: b' ->
  a = a' /\ b = b'.
Proof.
  revert a'. induction a as [|c a IH]; intros [|c' a'] Ha Ha' E; cbn in *.
  - injection E as ->. auto.
  - injection E as <- _. apply andb_true_iff in Ha' as [Hc _]. discriminate.
  - injection E as -> _. apply andb_true_iff in Ha as [Hc _]. discriminate.
  - injection E as <- E.
    apply andb_true_iff in Ha as [_ Ha]. apply andb_true_iff in Ha' as [_ Ha'].
    destruct (IH a' Ha Ha' E) as [-> ->]. auto.
Qed.

Lemma string_of_Z_no_underscore t :
  forallb (fun c => negb (c =? underscore)%N) (string_of_Z t) = true.
Proof.
  pose proof (string_of_Z_chars t) as H.
  induction (string_of_Z t) as [|c l IH]; cbn in *; [reflexivity|].
  apply andb_true_iff in H as [Hc H]. rewrite (IH H), andb_true_r.
  unfold is_digit, underscore in *.
  destruct (c =? 95)%N eqn:E; [|reflexivity].
  apply N.eqb_eq in E. subst c. discriminate.
Qed.

(** Two pseudo transaction ids are equal exactly when they were made from
    the same clock reading and the same random digits. *)
Lemma dev_txHash_inj t t' r r' :
  dev_txHash t r = dev_txHash t' r' <-> t = t' /\ slice 2 r = slice 2 r'.
Proof.
  split; [|now intros [-> E]; unfold dev_txHash; rewrite E].
  unfold dev_txHash. intros E. apply app_inv_head in E.
  change (lit "_" ++ slice 2 r) with (underscore :: slice 2 r) in E.
  change (lit "_" ++ slice 2 r') with (underscore :: slice 2 r') in E.
  apply split_at_underscore in E; try apply string_of_Z_no_underscore.
  destruct E as [E1 E2]. split; [now apply string_of_Z_inj | exact E2].
Qed.

Lemma dev_txHash_prefix t r : startsWith (lit "dev_") (dev_txHash t r) = true.
Proof. reflexivity. Qed.

(** C6 (amended). The facilitator cannot be reached and the payload decodes
    with version 1 and the requirement's network. Outside production the
    verifier reads the clock and a random number and returns [valid: true]
    with the pseudo transaction id "dev_<clock>_<random digits>", which
    starts with "dev_" and differs between two calls exactly when the
    clock reading or the random digits differ. In production it returns
    [valid: false] with the reason "Facilitator unavailable". *)
Theorem verifyPayment_without_facilitator
        (env : Env) (paymentSignature : jsstring)
        (requirements : PaymentRequirements) (facilitatorUrl : jsstring)
        (h : list event) (payload : json) (version : option json) :
  decode_payload paymentSignature = Ok payload ->
  prop payload (lit "x402Version") = Ok version ->
  not_one version = false ->
  prop payload (lit "network") = Ok (Some (JStr (r_network requirements))) ->
  let url := facilitatorUrl ++ lit "/verify" in
  let body := stringify
                (JObj [ (lit "paymentPayload", payload);
                        (lit "paymentRequirements",
                         requirements_json requirements) ]) in
  facilitator env h url body = Unreachable ->
  let h1 := h ++ [FacilitatorCall url body Unreachable] in
  let t := now env h1 in
  let r := random36 env (h1 ++ [DateNow t]) in
  (NODE_ENV env <> Some production ->
   verifyPayment env paymentSignature requirements facilitatorUrl h
   = (Ok {| valid := Some (JBool true);
            txHash := Some (JStr (dev_txHash t r));
            error := None |},
      (h1 ++ [DateNow t]) ++ [MathRandom r]) /\
   startsWith (lit "dev_") (dev_txHash t r) = true) /\
  (NODE_ENV env = Some production ->
   verifyPayment env paymentSignature requirements facilitatorUrl h
   = (Ok (invalid (lit "Facilitator unavailable")), h1)) /\
  (forall t' r',
      dev_txHash t r = dev_txHash t' r' <-> t = t' /\ slice 2 r = slice 2 r').
Proof.
  intros D V N1 Nw url body F h1 t r.
  assert (N2 : not_string (Some (JStr (r_network requirements)))
                 (r_network requirements) = false)
    by (now apply not_string_false_iff).
  assert (E : verifyPayment env paymentSignature requirements facilitatorUrl h
              = (if negb (match NODE_ENV env with
                          | Some e => JS.eqb e production
                          | None => false
                          end)
                 then (Ok {| valid := Some (JBool true);
                             txHash := Some (JStr (dev_txHash t r));
                             error := None |},
                       (h1 ++ [DateNow t]) ++ [MathRandom r])
                 else (Ok (invalid (lit "Facilitator unavailable")), h1))).
  { unfold verifyPayment, try_catch, bind, lift.
    rewrite D, V, N1, Nw, N2. fold url body. rewrite F. fold h1.
    destruct (negb _); reflexivity. }
  split; [|split].
  - intros Hdev. split; [|apply dev_txHash_prefix].
    rewrite E. destruct (NODE_ENV env) as [e|]; [|reflexivity].
    destruct (JS.eqb e production) eqn:P; [|reflexivity].
    apply eqb_eq in P. congruence.
  - intros Hprod. rewrite E, Hprod, eqb_refl. reflexivity.
  - intros t' r'. apply dev_txHash_inj.
Qed.

End DevFallback.

(** The test "should accept valid payment signature (dev mode)", called
    twice within one millisecond with a random source that repeats. *)
Module FallbackScenario.
Import JS Num Base64 Json Err X402Server.

Definition paymentSignature : jsstring :=
  MismatchScenario.signature_of MismatchScenario.devnet.

Definition first : result VerificationResult * list event :=
  verifyPayment MismatchScenario.env paymentSignature
    MismatchScenario.requirements (lit "https://test.facilitator.com") [].

Definition second : result VerificationResult * list event :=
  verifyPayment MismatchScenario.env paymentSignature
    MismatchScenario.requirements (lit "https://test.facilitator.com")
    (snd first).

Definition txHash_of (r : result VerificationResult * list event)
  : option json :=
  match fst r with Ok v => txHash v | Throw _ => None end.

End FallbackScenario.

(** C6 (as stated, refuted). Two calls in relaxed mode, both accepted, with
    one and the same pseudo transaction id. *)
Lemma dev_txHash_repeats :
  FallbackScenario.txHash_of FallbackScenario.first
  = Some (Json.JStr (JS.lit "dev_1700000000000_4fzyo82mvyr")) /\
  FallbackScenario.txHash_of FallbackScenario.second
  = FallbackScenario.txHash_of FallbackScenario.first /\
  List.length (snd FallbackScenario.second) = 6%nat.
Proof. repeat split; vm_compute; reflexivity. Qed.

Lemma verifyPayment_without_facilitator_witness :
  X402Server.verifyPayment MismatchScenario.env
    FallbackScenario.paymentSignature MismatchScenario.requirements
    (JS.lit "https://test.facilitator.com") []
  = (Err.Ok
       {| X402Server.valid := Some (Json.JBool true);
          X402Server.txHash :=
            Some (Json.JStr (JS.lit "dev_1700000000000_4fzyo82mvyr"));
          X402Server.error := None |},
     snd FallbackScenario.first).
Proof.
  refine (proj1 (proj1 (@verifyPayment_without_facilitator
                          MismatchScenario.env FallbackScenario.paymentSignature
                          MismatchScenario.requirements
                          (JS.lit "https://test.facilitator.com") []
                          (MismatchScenario.payload MismatchScenario.devnet)
                          (Some (Json.JNum (Num.of_Z 1)))
                          _ _ _ _ _) _)).
  - vm_compute. reflexivity.
  - vm_compute. reflexivity.
  - vm_compute. reflexivity.
  - vm_compute. reflexivity.
  - vm_compute. reflexivity.
  - vm_compute. discriminate.
Defined.

(** ** Base64 *)

Section Base64RoundTrip.
Import JS Base64.
Local Open Scope N_scope.

(** A string all of whose code units are bytes. *)
Definition latin1 (s : jsstring) : Prop :=
  forallb (fun c => c <=? 255) s = true.

Lemma latin1_nil : latin1 [].
Proof. reflexivity. Qed.

Lemma latin1_cons c s : latin1 (c :: s) <-> c <= 255 /\ latin1 s.
Proof.
  unfold latin1. cbn. rewrite andb_true_iff, N.leb_le. reflexivity.
Qed.

Lemma latin1_app s t : latin1 (s ++ t) <-> latin1 s /\ latin1 t.
Proof. unfold latin1. now rewrite forallb_app, andb_true_iff. Qed.

(** A property of all numbers below a bound, checked by running through
    them. *)
Lemma below_by_cases (P : N -> bool) (n : nat) :
  forallb P (map N.of_nat (seq 0 n)) = true ->
  forall c, c < N.of_nat n -> P c = true.
Proof.
  intros H c L. rewrite forallb_forall in H. apply H.
  apply in_map_iff. exists (N.to_nat c). split; [apply N2Nat.id|].
  apply in_seq. lia.
Qed.

Definition symbol (i : N) : N := nth (N.to_nat i) alphabet 0.

Lemma sextet_symbol i : i < 64 -> sextet (symbol i) = Some i.
Proof.
  intros L.
  assert (H : (match sextet (symbol i) with
               | Some j => j =? i
               | None => false
               end) = true).
  { revert i L. apply (below_by_cases _ 64). vm_compute. reflexivity. }
  destruct (sextet (symbol i)) as [j|]; [|discriminate].
  apply N.eqb_eq in H. now subst.
Qed.

Lemma symbol_not_whitespace i :
  i < 64 -> is_ascii_whitespace (symbol i) = false.
Proof.
  intros L. apply negb_true_iff. revert i L.
  apply (below_by_cases (fun i => negb (is_ascii_whitespace (symbol i))) 64).
  vm_compute. reflexivity.
Qed.

Lemma symbol_not_padding i : i < 64 -> (symbol i =? pad_char) = false.
Proof.
  intros L. apply negb_true_iff. revert i L.
  apply (below_by_cases (fun i => negb (symbol i =? pad_char)) 64).
  vm_compute. reflexivity.
Qed.

(** Lists three elements at a time. *)
Lemma list_ind3 (A : Type) (P : list A -> Prop) :
  P [] -> (forall a, P [a]) -> (forall a b, P [a; b]) ->
  (forall a b c l, P l -> P (a :: b :: c :: l)) ->
  forall l, P l.
Proof.
  intros H0 H1 H2 H3.
  assert (H : forall l, P l /\ (forall a, P (a :: l)) /\ (forall a b, P (a :: b :: l))).
  { induction l as [|c l (IH0 & IH1 & IH2)]; [auto|].
    split; [apply IH1|]. split; [intros a; apply IH2|].
    intros a b. now apply H3. }
  intros l. apply H.
Qed.

(** The four sextets of three bytes, and back. *)
Lemma sextets_of_bytes a b c :
  a <= 255 -> b <= 255 -> c <= 255 ->
  a / 4 < 64 /\ (a mod 4) * 16 + b / 16 < 64 /\
  (b mod 16) * 4 + c / 64 < 64 /\ c mod 64 < 64 /\
  (a mod 4) * 16 < 64 /\ (b mod 16) * 4 < 64 /\
  a / 4 * 4 + ((a mod 4) * 16 + b / 16) / 16 = a /\
  (((a mod 4) * 16 + b / 16) mod 16) * 16 + ((b mod 16) * 4 + c / 64) / 4 = b /\
  (((b mod 16) * 4 + c / 64) mod 4) * 64 + c mod 64 = c /\
  a / 4 * 4 + ((a mod 4) * 16) / 16 = a /\
  (((a mod 4) * 16 + b / 16) mod 16) * 16 + ((b mod 16) * 4) / 4 = b.
Proof.
  intros Ha Hb Hc.
  pose proof (N.div_mod a 4 ltac:(discriminate)) as A1.
  pose proof (N.mod_upper_bound a 4 ltac:(discriminate)) as A2.
  pose proof (N.div_mod b 16 ltac:(discriminate)) as B1.
  pose proof (N.mod_upper_bound b 16 ltac:(discriminate)) as B2.
  pose proof (N.div_mod c 64 ltac:(discriminate)) as C1.
  pose proof (N.mod_upper_bound c 64 ltac:(discriminate)) as C2.
  revert A1 A2 B1 B2 C1 C2.
  generalize (a / 4) (a mod 4) (b / 16) (b mod 16) (c / 64) (c mod 64).
  intros qa ra qb rb qc rc A1 A2 B1 B2 C1 C2.
  assert (E1 : (ra * 16 + qb) / 16 = ra /\ (ra * 16 + qb) mod 16 = qb).
  { assert (qb < 16) by lia.
    rewrite (N.add_comm (ra * 16)). rewrite N.div_add, N.Div0.mod_add by discriminate.
    rewrite N.div_small, N.mod_small by assumption. auto. }
  assert (E2 : (rb * 4 + qc) / 4 = rb /\ (rb * 4 + qc) mod 4 = qc).
  { assert (qc < 4) by lia.
    rewrite (N.add_comm (rb * 4)). rewrite N.div_add, N.Div0.mod_add by discriminate.
    rewrite N.div_small, N.mod_small by assumption. auto. }
  assert (E3 : ra * 16 / 16 = ra) by (apply N.div_mul; discriminate).
  assert (E4 : rb * 4 / 4 = rb) by (apply N.div_mul; discriminate).
  destruct E1 as [-> ->], E2 as [-> ->]. rewrite E3, E4.
  repeat split; lia.
Qed.

Lemma encode_3 pad a b c l :
  encode alphabet pad (a :: b :: c :: l)
  = symbol (a / 4) :: symbol ((a mod 4) * 16 + b / 16)
      :: symbol ((b mod 16) * 4 + c / 64) :: symbol (c mod 64)
      :: encode alphabet pad l.
Proof. reflexivity. Qed.

Lemma encode_2 pad a b :
  encode alphabet pad [a; b]
  = symbol (a / 4) :: symbol ((a mod 4) * 16 + b / 16)
      :: symbol ((b mod 16) * 4) :: (if pad then [pad_char] else []).
Proof. reflexivity. Qed.

Lemma encode_1 pad a :
  encode alphabet pad [a]
  = symbol (a / 4) :: symbol ((a mod 4) * 16)
      :: (if pad then [pad_char; pad_char] else []).
Proof. reflexivity. Qed.

Ltac bytes_facts :=
  repeat match goal with
         | H : latin1 (_ :: _) |- _ => apply latin1_cons in H; destruct H
         end;
  match goal with
  | Ha : ?a <= 255, Hb : ?b <= 255, Hc : ?c <= 255 |- _ =>
      destruct (sextets_of_bytes Ha Hb Hc)
        as (?S1 & ?S2 & ?S3 & ?S4 & ?S5 & ?S6 & ?D1 & ?D2 & ?D3 & ?D4 & ?D5)
  | Ha : ?a <= 255, Hb : ?b <= 255 |- _ =>
      destruct (sextets_of_bytes Ha Hb Hb)
        as (?S1 & ?S2 & ?S3 & ?S4 & ?S5 & ?S6 & ?D1 & ?D2 & ?D3 & ?D4 & ?D5)
  | Ha : ?a <= 255 |- _ =>
      destruct (sextets_of_bytes Ha Ha Ha)
        as (?S1 & ?S2 & ?S3 & ?S4 & ?S5 & ?S6 & ?D1 & ?D2 & ?D3 & ?D4 & ?D5)
  end.

Definition not_whitespace (c : N) : bool := negb (is_ascii_whitespace c).

Lemma symbol_kept i : i < 64 -> not_whitespace (symbol i) = true.
Proof.
  intros L. unfold not_whitespace. now rewrite symbol_not_whitespace.
Qed.

Lemma encoded_no_whitespace bs :
  latin1 bs -> filter not_whitespace (to_base64 bs) = to_base64 bs.
Proof.
  unfold to_base64. induction bs as [|a|a b|a b c l IH] using list_ind3;
    intros L; [reflexivity | | |];
    rewrite ?encode_1, ?encode_2, ?encode_3; bytes_facts;
    cbn [filter]; rewrite !symbol_kept by assumption;
    [reflexivity | reflexivity | now rewrite IH].
Qed.

Lemma mod4_step n : Nat.modulo (S (S (S (S n)))) 4 = Nat.modulo n 4.
Proof.
  change (S (S (S (S n)))) with (4 + n)%nat.
  rewrite Nat.add_comm. rewrite <- (Nat.mul_1_l 4) at 1.
  apply Nat.Div0.mod_add.
Qed.

Lemma encoded_length bs :
  Nat.modulo (List.length (to_base64 bs)) 4 = 0%nat.
Proof.
  unfold to_base64. induction bs as [|a|a b|a b c l IH] using list_ind3;
    [reflexivity | reflexivity | reflexivity |].
  rewrite encode_3. cbn [List.length]. now rewrite mod4_step.
Qed.

Lemma unpadded_length bs :
  Nat.modulo (List.length (encode alphabet false bs)) 4 <> 1%nat.
Proof.
  induction bs as [|a|a b|a b c l IH] using list_ind3;
    [discriminate | discriminate | discriminate |].
  rewrite encode_3. cbn [List.length]. now rewrite mod4_step.
Qed.

Lemma encoded_drop_padding bs :
  latin1 bs -> drop_padding (to_base64 bs) = encode alphabet false bs.
Proof.
  unfold to_base64. induction bs as [|a|a b|a b c l IH] using list_ind3;
    intros L; [reflexivity | | |];
    rewrite ?encode_1, ?encode_2, ?encode_3; bytes_facts;
    cbn [drop_padding]; rewrite !symbol_not_padding by assumption;
    [reflexivity | reflexivity | now rewrite IH].
Qed.

Lemma unpadded_decode bs :
  latin1 bs ->
  exists vs, sextets (encode alphabet false bs) = Some vs /\ decode vs = bs.
Proof.
  induction bs as [|a|a b|a b c l IH] using list_ind3; intros L.
  - exists []. auto.
  - rewrite encode_1. bytes_facts. cbn [sextets].
    rewrite !sextet_symbol by assumption.
    eexists. split; [reflexivity|]. cbn [decode]. now rewrite D4.
  - rewrite encode_2. bytes_facts. cbn [sextets].
    rewrite !sextet_symbol by assumption.
    eexists. split; [reflexivity|]. cbn [decode]. now rewrite D1, D5.
  - rewrite encode_3. bytes_facts. cbn [sextets].
    rewrite !sextet_symbol by assumption.
    destruct IH as (vs & -> & E); [assumption|].
    eexists. split; [reflexivity|]. cbn [decode]. now rewrite D1, D2, D3, E.
Qed.

(** [atob(btoa(s))] is [s], for every string [btoa] accepts. *)
Lemma atob_btoa s :
  latin1 s -> btoa s = Some (to_base64 s) /\ atob (to_base64 s) = Some s.
Proof.
  intros L. split.
  - unfold btoa. unfold latin1 in L. now rewrite L.
  - unfold atob. fold not_whitespace.
    rewrite (encoded_no_whitespace L), encoded_length. cbn [Nat.eqb].
    rewrite (encoded_drop_padding L).
    destruct (Nat.modulo _ 4 =? 1)%nat eqn:E.
    + apply Nat.eqb_eq in E. now apply unpadded_length in E.
    + destruct (unpadded_decode L) as (vs & -> & D). cbn. now rewrite D.
Qed.

(** [btoa] refuses a string with a code unit above 255. *)
Lemma btoa_refuses s : ~ latin1 s -> btoa s = None.
Proof.
  unfold btoa, latin1. now destruct (forallb _ s).
Qed.

End Base64RoundTrip.

(** ** JSON: [parse] after [stringify] *)

Section JsonStrings.
Import JS Num Base64 Json.
Local Open Scope N_scope.

Lemma latin1_not_surrogate c :
  c <= 255 -> is_high_surrogate c = false /\ is_low_surrogate c = false.
Proof.
  intros L. unfold is_high_surrogate, is_low_surrogate.
  assert (H1 : (55296 <=? c) = false) by (apply N.leb_gt; lia).
  assert (H2 : (56320 <=? c) = false) by (apply N.leb_gt; lia).
  now rewrite H1, H2.
Qed.

(** The four hexadecimal digits of an escape read back as the code
    unit. *)
Lemma hex4_uescape c :
  c < 256 ->
  hex4 (hex_digit (c / 4096)) (hex_digit ((c / 256) mod 16))
       (hex_digit ((c / 16) mod 16)) (hex_digit (c mod 16)) = Some c.
Proof.
  intros L.
  assert (H : (match hex4 (hex_digit (c / 4096)) (hex_digit ((c / 256) mod 16))
                           (hex_digit ((c / 16) mod 16)) (hex_digit (c mod 16)) with
               | Some u => u =? c
               | None => false
               end) = true).
  { revert c L. apply (below_by_cases _ 256). vm_compute. reflexivity. }
  destruct (hex4 _ _ _ _) as [u|]; [|discriminate].
  apply N.eqb_eq in H. now subst.
Qed.

(** A quoted Latin-1 string reads back as itself, up to the closing
    quote. *)
Lemma parse_quote_body s : forall rest,
  latin1 s ->
  parse_string_body (quote_body s ++ 34 :: rest) = Some (s, rest).
Proof.
  induction s as [|c s IH]; intros rest L.
  - reflexivity.
  - apply latin1_cons in L as [Lc L]. specialize (IH rest L).
    destruct (latin1_not_surrogate Lc) as [Hh Hl].
    cbn [quote_body].
    destruct (c =? 8) eqn:E8;
      [apply N.eqb_eq in E8; subst c; cbn; now rewrite IH|].
    destruct (c =? 9) eqn:E9;
      [apply N.eqb_eq in E9; subst c; cbn; now rewrite IH|].
    destruct (c =? 10) eqn:E10;
      [apply N.eqb_eq in E10; subst c; cbn; now rewrite IH|].
    destruct (c =? 12) eqn:E12;
      [apply N.eqb_eq in E12; subst c; cbn; now rewrite IH|].
    destruct (c =? 13) eqn:E13;
      [apply N.eqb_eq in E13; subst c; cbn; now rewrite IH|].
    destruct (c =? 34) eqn:E34;
      [apply N.eqb_eq in E34; subst c; cbn; now rewrite IH|].
    destruct (c =? 92) eqn:E92;
      [apply N.eqb_eq in E92; subst c; cbn; now rewrite IH|].
    destruct (c <? 32) eqn:E32.
    + unfold uescape. cbn [app parse_string_body].
      change (92 =? 34) with false. change (92 =? 92) with true.
      change (117 =? 34) with false. change (117 =? 92) with false.
      change (117 =? 47) with false. change (117 =? 98) with false.
      change (117 =? 102) with false. change (117 =? 110) with false.
      change (117 =? 114) with false. change (117 =? 116) with false.
      change (117 =? 117) with true. cbv iota.
      rewrite hex4_uescape by lia. now rewrite IH.
    + rewrite Hh, Hl. cbn [app parse_string_body].
      now rewrite E34, E92, E32, IH.
Qed.

Lemma parse_quote s rest :
  latin1 s ->
  exists t, quote s ++ rest = 34 :: t /\ parse_string_body t = Some (s, rest).
Proof.
  intros L. exists (quote_body s ++ 34 :: rest). split.
  - unfold quote. cbn. now rewrite <- app_assoc.
  - now apply parse_quote_body.
Qed.

End JsonStrings.

Section JsonValues.
Import JS Num Base64 Json.
Local Open Scope N_scope.

(** Induction on values, through arrays and objects. *)
Section Induction.
Variable P : json -> Prop.
Hypothesis Hnull : P JNull.
Hypothesis Hbool : forall b, P (JBool b).
Hypothesis Hnum : forall x, P (JNum x).
Hypothesis Hstr : forall s, P (JStr s).
Hypothesis Harr : forall l, Forall P l -> P (JArr l).
Hypothesis Hobj : forall m, Forall (fun kv => P (snd kv)) m -> P (JObj m).

Fixpoint json_induction (v : json) : P v :=
  match v with
  | JNull => Hnull
  | JBool b => Hbool b
  | JNum x => Hnum x
  | JStr s => Hstr s
  | JArr l =>
      Harr ((fix all (l : list json) : Forall P l :=
               match l with
               | [] => Forall_nil P
               | x :: r => Forall_cons x (json_induction x) (all r)
               end) l)
  | JObj m =>
      Hobj ((fix all (m : list (jsstring * json))
               : Forall (fun kv => P (snd kv)) m :=
               match m with
               | [] => Forall_nil _
               | kv :: r =>
                   Forall_cons (P := fun kv => P (snd kv)) kv
                     (json_induction (snd kv)) (all r)
               end) m)
  end.
End Induction.

(** The text between the brackets of an array, the braces of an
    object. *)
Fixpoint elements_text (l : list json) : jsstring :=
  match l with
  | [] => []
  | [x] => stringify x
  | x :: r => stringify x ++ 44 :: elements_text r
  end.

Fixpoint members_text (m : list (jsstring * json)) : jsstring :=
  match m with
  | [] => []
  | [(k, x)] => quote k ++ 58 :: stringify x
  | (k, x) :: r => quote k ++ 58 :: stringify x ++ 44 :: members_text r
  end.

Lemma stringify_array l : stringify (JArr l) = 91 :: elements_text l ++ [93].
Proof. reflexivity. Qed.

Lemma stringify_object m : stringify (JObj m) = 123 :: members_text m ++ [125].
Proof. reflexivity. Qed.

(** A number whose text reads back as the number. *)
Definition number_ok (x : number) : Prop :=
  forallb is_number_char (stringify_number x) = true /\
  stringify_number x <> [] /\
  number_of_token (stringify_number x) = Some x.

(** The values this development prints and reads back: numbers that read
    back, Latin-1 strings and member names, no repeated member name. *)
Fixpoint printable (v : json) : Prop :=
  match v with
  | JNull | JBool _ => True
  | JNum x => number_ok x
  | JStr s => latin1 s
  | JArr l =>
      (fix all (l : list json) : Prop :=
         match l with
         | [] => True
         | x :: r => printable x /\ all r
         end) l
  | JObj m =>
      NoDup (map fst m) /\
      (fix all (m : list (jsstring * json)) : Prop :=
         match m with
         | [] => True
         | kv :: r => (latin1 (fst kv) /\ printable (snd kv)) /\ all r
         end) m
  end.

Lemma printable_array l : printable (JArr l) <-> Forall printable l.
Proof.
  cbn [printable]. induction l as [|x r IH].
  - split; auto.
  - rewrite IH. split; [intros [? ?]; now constructor|].
    intros H. inversion H; subst. auto.
Qed.

Lemma printable_object m :
  printable (JObj m) <->
  NoDup (map fst m) /\
  Forall (fun kv => latin1 (fst kv) /\ printable (snd kv)) m.
Proof.
  cbn [printable]. apply and_iff_compat_l. induction m as [|kv r IH].
  - split; auto.
  - rewrite IH. split; [intros [? ?]; now constructor|].
    intros H. inversion H; subst. auto.
Qed.

(** What may follow a value: not a character that would continue a
    number. *)
Definition delimited (rest : jsstring) : Prop :=
  match rest with
  | [] => True
  | c :: _ => is_number_char c = false
  end.

(** How a printed value begins. *)
Definition opens_value (c : N) : Prop :=
  is_json_whitespace c = false /\ (c =? 93) = false /\ (c =? 125) = false.

Lemma number_char_facts c :
  is_number_char c = true ->
  opens_value c /\ (c =? 123) = false /\ (c =? 91) = false /\
  (c =? 34) = false /\ (c =? 116) = false /\ (c =? 102) = false /\
  (c =? 110) = false.
Proof.
  intros H.
  assert (L : c < 102).
  { unfold is_number_char, is_digit in H. cbn in H.
    repeat match type of H with
           | (_ || _)%bool = true => apply orb_true_iff in H; destruct H as [H|H]
           | (_ && _)%bool = true => apply andb_true_iff in H; destruct H as [? H]
           | (_ =? _) = true => apply N.eqb_eq in H
           | (_ <=? _) = true => apply N.leb_le in H
           end; try lia; discriminate. }
  assert (G : (negb (is_number_char c)
               || (negb (is_json_whitespace c) && negb (c =? 93)
                   && negb (c =? 125) && negb (c =? 123) && negb (c =? 91)
                   && negb (c =? 34) && negb (c =? 116) && negb (c =? 102)
                   && negb (c =? 110)))%bool = true).
  { revert c L H. intros c L _. revert c L.
    apply (below_by_cases _ 102). vm_compute. reflexivity. }
  rewrite H in G. cbn [negb orb] in G.
  repeat (apply andb_true_iff in G; destruct G as [G ?]).
  unfold opens_value.
  repeat match goal with
         | H : negb _ = true |- _ => apply negb_true_iff in H
         end.
  repeat split; assumption.
Qed.

Lemma printable_opens v :
  printable v -> exists c t, stringify v = c :: t /\ opens_value c.
Proof.
  destruct v as [|[|]|x|s|l|m]; intros H;
    try (eexists _, _; split; [reflexivity | now vm_compute]).
  destruct H as (Hc & Hn & _). cbn [stringify].
  destruct (stringify_number x) as [|c t]; [congruence|].
  exists c, t. split; [reflexivity|].
  cbn [forallb] in Hc. apply andb_true_iff in Hc as [Hc _].
  now apply number_char_facts in Hc.
Qed.

Lemma skip_ws_opens c t : opens_value c -> skip_ws (c :: t) = c :: t.
Proof. intros [H _]. cbn [skip_ws]. now rewrite H. Qed.

End JsonValues.

Section JsonRoundTrip.
Import JS Num Base64 Json.
Local Open Scope N_scope.

Lemma span_app p tok rest :
  forallb p tok = true ->
  match rest with [] => True | c :: _ => p c = false end ->
  span p (tok ++ rest) = (tok, rest).
Proof.
  induction tok as [|c tok IH]; cbn [app span forallb]; intros H D.
  - destruct rest as [|c rest]; [reflexivity|]. cbn [span]. now rewrite D.
  - apply andb_true_iff in H as [-> H]. now rewrite IH.
Qed.

(** Without repeated names, the object is the list of members as read. *)
Lemma obj_set_new k v m :
  ~ In k (map fst m) -> obj_set k v m = m ++ [(k, v)].
Proof.
  induction m as [|[k' v'] m IH]; cbn; intros H; [reflexivity|].
  destruct (JS.eqb k k') eqn:E.
  - apply eqb_eq in E. subst. tauto.
  - rewrite IH; tauto.
Qed.

Lemma make_object_nodup raw :
  NoDup (map fst raw) -> make_object raw = JObj raw.
Proof.
  unfold make_object. intros H.
  enough (G : forall acc,
             NoDup (map fst (acc ++ raw)) ->
             fold_left (fun m kv => obj_set (fst kv) (snd kv) m) raw acc
             = acc ++ raw) by now rewrite (G []).
  clear H. induction raw as [|[k v] raw IH]; intros acc H; cbn.
  - now rewrite app_nil_r.
  - rewrite obj_set_new.
    + rewrite IH; rewrite <- app_assoc; [reflexivity | exact H].
    + rewrite map_app in H. cbn in H. apply NoDup_remove_2 in H.
      intros I. apply H. apply in_or_app. now left.
Qed.

(** The fuel a value needs: one unit for each value, element and member
    in it. *)
Fixpoint weight (v : json) : nat :=
  match v with
  | JArr l =>
      S ((fix sum (l : list json) : nat :=
            match l with
            | [] => O
            | x :: r => S (weight x + sum r)
            end) l)
  | JObj m =>
      S ((fix sum (m : list (jsstring * json)) : nat :=
            match m with
            | [] => O
            | kv :: r => S (weight (snd kv) + sum r)
            end) m)
  | _ => 1%nat
  end.

Fixpoint weights (l : list json) : nat :=
  match l with
  | [] => O
  | x :: r => S (weight x + weights r)
  end.

Lemma weight_array l : weight (JArr l) = S (weights l).
Proof. reflexivity. Qed.

Lemma weight_object m : weight (JObj m) = S (weights (map snd m)).
Proof.
  cbn [weight]. f_equal. induction m as [|kv r IH]; cbn; congruence.
Qed.

(** [value] reads back the printed [x], whatever delimited text
    follows. *)
Definition reads_back (value : jsstring -> option (json * jsstring))
           (x : json) : Prop :=
  forall rest, delimited rest -> value (stringify x ++ rest) = Some (x, rest).

Lemma elements_text_cons x y l :
  elements_text (x :: y :: l) = stringify x ++ 44 :: elements_text (y :: l).
Proof. reflexivity. Qed.

Lemma members_text_cons k x kv m :
  members_text ((k, x) :: kv :: m)
  = quote k ++ 58 :: stringify x ++ 44 :: members_text (kv :: m).
Proof. destruct kv. reflexivity. Qed.

Lemma parse_elements_step value n x s r c r' :
  value s = Some (x, r) -> skip_ws r = c :: r' ->
  parse_elements value (S n) s
  = if c =? 44
    then match parse_elements value n r' with
         | Some (vs, rest) => Some (x :: vs, rest)
         | None => None
         end
    else if c =? 93 then Some ([x], r') else None.
Proof. intros Hv Hs. cbn [parse_elements]. now rewrite Hv, Hs. Qed.

Lemma parse_members_step value n k x t r1 r2 r c r' :
  parse_string_body t = Some (k, r1) -> skip_ws r1 = 58 :: r2 ->
  value r2 = Some (x, r) -> skip_ws r = c :: r' ->
  parse_members value (S n) (34 :: t)
  = if c =? 44
    then match parse_members value n r' with
         | Some (kvs, rest) => Some ((k, x) :: kvs, rest)
         | None => None
         end
    else if c =? 125 then Some ([(k, x)], r') else None.
Proof.
  intros Hk H1 Hv Hs. cbn [parse_members].
  change (skip_ws (34 :: t)) with (34 :: t). cbn [expect].
  change (34 =? 34) with true. cbv iota. rewrite Hk, H1. cbn [expect].
  change (58 =? 58) with true. cbv iota. now rewrite Hv, Hs.
Qed.

Lemma parse_elements_text value l : forall n rest,
  l <> [] -> Forall (reads_back value) l -> (List.length l <= n)%nat ->
  parse_elements value n (elements_text l ++ 93 :: rest) = Some (l, rest).
Proof.
  induction l as [|x l IH]; intros n rest NE H Hn; [congruence|].
  inversion H as [|? ? Hx Hl]; subst.
  destruct n as [|n]; [cbn in Hn; lia|].
  destruct l as [|y l].
  - cbn [elements_text].
    rewrite (@parse_elements_step value n _ _ _ 93 rest
               (Hx (93 :: rest) eq_refl) eq_refl).
    reflexivity.
  - rewrite elements_text_cons, <- app_assoc. cbn [app].
    rewrite (@parse_elements_step value n _ _ _ 44
               (elements_text (y :: l) ++ 93 :: rest)
               (Hx (44 :: elements_text (y :: l) ++ 93 :: rest) eq_refl)
               eq_refl).
    change (44 =? 44) with true. cbv iota.
    rewrite IH; [reflexivity | discriminate | exact Hl |].
    cbn [List.length] in Hn |- *. lia.
Qed.

Lemma parse_members_text value m : forall n rest,
  m <> [] ->
  Forall (fun kv => latin1 (fst kv) /\ reads_back value (snd kv)) m ->
  (List.length m <= n)%nat ->
  parse_members value n (members_text m ++ 125 :: rest) = Some (m, rest).
Proof.
  induction m as [|[k x] m IH]; intros n rest NE H Hn; [congruence|].
  inversion H as [|? ? [Hk Hx] Hm]; subst. cbn [fst snd] in Hk, Hx.
  destruct n as [|n]; [cbn in Hn; lia|].
  destruct m as [|kv m].
  - cbn [members_text]. rewrite <- app_assoc.
    destruct (@parse_quote k (58 :: stringify x ++ 125 :: rest) Hk) as (t & E & Ht).
    cbn [app] in E |- *. rewrite E.
    rewrite (@parse_members_step value n _ _ _ _ _ _ 125 rest Ht eq_refl
               (Hx (125 :: rest) eq_refl) eq_refl).
    reflexivity.
  - rewrite members_text_cons, <- app_assoc. cbn [app]. rewrite <- app_assoc.
    cbn [app].
    destruct (@parse_quote k
                (58 :: stringify x ++ 44 :: members_text (kv :: m)
                    ++ 125 :: rest) Hk) as (t & E & Ht).
    rewrite E.
    rewrite (@parse_members_step value n _ _ _ _ _ _ 44
               (members_text (kv :: m) ++ 125 :: rest) Ht eq_refl
               (Hx (44 :: members_text (kv :: m) ++ 125 :: rest) eq_refl)
               eq_refl).
    change (44 =? 44) with true. cbv iota.
    rewrite IH; [reflexivity | discriminate | exact Hm |].
    cbn [List.length] in Hn |- *. lia.
Qed.

Lemma parse_value_number f c r :
  is_number_char c = true ->
  parse_value (S f) (c :: r)
  = (let (tok, rest) := span is_number_char (c :: r) in
     match number_of_token tok with
     | Some x => Some (JNum x, rest)
     | None => None
     end).
Proof.
  intros H.
  destruct (number_char_facts c H) as (Ho & E1 & E2 & E3 & E4 & E5 & E6).
  assert (W : forall a p, (c =? a) = false ->
                         startsWith (a :: p) (c :: r) = false).
  { intros a p E. cbn [startsWith]. now rewrite N.eqb_sym, E. }
  assert (T : startsWith (lit "true") (c :: r) = false) by now apply W.
  assert (F : startsWith (lit "false") (c :: r) = false) by now apply W.
  assert (U : startsWith (lit "null") (c :: r) = false) by now apply W.
  cbn [parse_value]. rewrite (@skip_ws_opens c r Ho).
  now rewrite E1, E2, E3, T, F, U.
Qed.

Lemma parse_value_string f t :
  parse_value (S f) (34 :: t)
  = match parse_string_body t with
    | Some (str, rest) => Some (JStr str, rest)
    | None => None
    end.
Proof. reflexivity. Qed.

Lemma parse_value_array f r :
  parse_value (S f) (91 :: r)
  = match expect 93 (skip_ws r) with
    | Some r' => Some (JArr [], r')
    | None =>
        match parse_elements (parse_value f) f r with
        | Some (vs, rest) => Some (JArr vs, rest)
        | None => None
        end
    end.
Proof. reflexivity. Qed.

Lemma parse_value_object f r :
  parse_value (S f) (123 :: r)
  = match expect 125 (skip_ws r) with
    | Some r' => Some (JObj [], r')
    | None =>
        match parse_members (parse_value f) f r with
        | Some (kvs, rest) => Some (make_object kvs, rest)
        | None => None
        end
    end.
Proof. reflexivity. Qed.

(** Text that begins like a value is neither skipped nor taken for a
    closing bracket or brace. *)
Lemma expect_opens c t d :
  opens_value c -> (d = 93 \/ d = 125) -> expect d (skip_ws (c :: t)) = None.
Proof.
  intros Ho Hd. rewrite (@skip_ws_opens c t Ho). destruct Ho as (_ & H1 & H2).
  cbn [expect]. destruct Hd; subst d; [now rewrite H1 | now rewrite H2].
Qed.

Lemma elements_text_opens x l rest :
  printable x ->
  exists c t, elements_text (x :: l) ++ rest = c :: t /\ opens_value c.
Proof.
  intros H. destruct (@printable_opens x H) as (c & t & E & Ho).
  destruct l as [|y l]; [cbn [elements_text] | rewrite elements_text_cons];
    rewrite E; cbn [app]; eauto.
Qed.

Lemma length_le_weights l : (List.length l <= weights l)%nat.
Proof. induction l; cbn; lia. Qed.

Definition reads_back_with_fuel (v : json) : Prop :=
  printable v ->
  forall fuel, (weight v <= fuel)%nat -> reads_back (parse_value fuel) v.

Lemma elements_read_back f l :
  Forall reads_back_with_fuel l -> Forall printable l ->
  (weights l <= f)%nat -> Forall (reads_back (parse_value f)) l.
Proof.
  induction 1 as [|y l Hy _ IH]; intros Hp Hw; [constructor|].
  inversion Hp; subst. cbn [weights] in Hw. constructor.
  - apply Hy; [assumption | lia].
  - apply IH; [assumption | lia].
Qed.

Lemma members_read_back f m :
  Forall (fun kv => reads_back_with_fuel (snd kv)) m ->
  Forall (fun kv => latin1 (fst kv) /\ printable (snd kv)) m ->
  (weights (map snd m) <= f)%nat ->
  Forall (fun kv => latin1 (fst kv) /\ reads_back (parse_value f) (snd kv)) m.
Proof.
  induction 1 as [|kv m Hy _ IH]; intros Hp Hw; [constructor|].
  inversion Hp as [|? ? [Hk Hx] Hm]; subst. cbn [map weights] in Hw.
  constructor.
  - split; [assumption|]. apply Hy; [assumption | lia].
  - apply IH; [assumption | lia].
Qed.

Lemma parse_stringify_value v :
  printable v ->
  forall fuel, (weight v <= fuel)%nat -> reads_back (parse_value fuel) v.
Proof.
  induction v as [|b|x|s|l IH|m IH] using json_induction;
    intros Hp fuel Hw rest Hd;
    (destruct fuel as [|f]; [cbn in Hw; lia|]).
  - reflexivity.
  - destruct b; reflexivity.
  - destruct Hp as (Hc & Hn & Ht). cbn [stringify].
    destruct (stringify_number x) as [|c t] eqn:E; [congruence|].
    cbn [app]. rewrite parse_value_number
      by (cbn [forallb] in Hc; now apply andb_true_iff in Hc).
    change (c :: t ++ rest) with ((c :: t) ++ rest).
    rewrite (@span_app is_number_char (c :: t) rest Hc Hd). now rewrite Ht.
  - cbn [stringify printable] in *.
    destruct (@parse_quote s rest Hp) as (t & -> & Ht).
    now rewrite parse_value_string, Ht.
  - rewrite stringify_array. cbn [app]. rewrite <- app_assoc. cbn [app].
    rewrite parse_value_array. apply printable_array in Hp.
    destruct l as [|x l]; [reflexivity|].
    inversion Hp as [|? ? Hx Hl]; subst.
    destruct (@elements_text_opens x l (93 :: rest) Hx) as (c & t & E & Ho).
    rewrite E, (@expect_opens c t 93 Ho) by auto. rewrite <- E.
    rewrite weight_array in Hw. apply le_S_n in Hw.
    rewrite parse_elements_text; [reflexivity | discriminate | |].
    + now apply elements_read_back.
    + pose proof (length_le_weights (x :: l)). lia.
  - rewrite stringify_object. cbn [app]. rewrite <- app_assoc. cbn [app].
    rewrite parse_value_object. apply printable_object in Hp.
    destruct Hp as [Hnd Hp].
    destruct m as [|[k x] m]; [reflexivity|].
    inversion Hp as [|? ? [Hk Hx] Hm]; subst. cbn [fst snd] in Hk, Hx.
    assert (E : exists t, members_text ((k, x) :: m) ++ 125 :: rest = 34 :: t).
    { destruct m as [|kv m];
        [cbn [members_text] | rewrite members_text_cons];
        unfold quote; cbn [app]; eauto. }
    destruct E as (t & E).
    rewrite E, (@expect_opens 34 t 125) by (auto; now vm_compute).
    rewrite <- E.
    rewrite weight_object in Hw. apply le_S_n in Hw.
    rewrite parse_members_text; [now rewrite make_object_nodup | discriminate | |].
    + now apply members_read_back.
    + pose proof (length_le_weights (map snd ((k, x) :: m))) as L.
      rewrite length_map in L. lia.
Qed.

Definition fits (v : json) : Prop :=
  printable v -> (weight v <= List.length (stringify v))%nat.

Lemma elements_fit l :
  Forall fits l -> Forall printable l ->
  (weights l <= S (List.length (elements_text l)))%nat.
Proof.
  induction 1 as [|x l Hx _ IH]; intros Hp; [cbn; lia|].
  inversion Hp as [|? ? Px Pl]; subst. specialize (Hx Px). specialize (IH Pl).
  destruct l as [|y l]; [cbn [weights elements_text]; lia|].
  rewrite elements_text_cons, length_app. cbn [List.length weights] in *. lia.
Qed.

Lemma members_fit m :
  Forall (fun kv => fits (snd kv)) m ->
  Forall (fun kv => latin1 (fst kv) /\ printable (snd kv)) m ->
  (weights (map snd m) <= S (List.length (members_text m)))%nat.
Proof.
  induction 1 as [|[k x] m Hx _ IH]; intros Hp; [cbn; lia|].
  inversion Hp as [|? ? [_ Px] Pm]; subst. cbn [snd] in *.
  specialize (Hx Px). specialize (IH Pm).
  destruct m as [|kv m].
  - cbn [map weights members_text snd]. rewrite length_app. cbn [List.length]. lia.
  - rewrite members_text_cons, length_app. cbn [List.length].
    rewrite length_app. cbn [map List.length weights snd] in *. lia.
Qed.

Lemma weight_le_length v : fits v.
Proof.
  induction v as [|b|x|s|l IH|m IH] using json_induction; intros Hp.
  - cbn. lia.
  - destruct b; cbn; lia.
  - destruct Hp as (_ & Hn & _). cbn [stringify weight].
    destruct (stringify_number x); [congruence | cbn; lia].
  - cbn. lia.
  - rewrite stringify_array, weight_array. apply printable_array in Hp.
    pose proof (elements_fit IH Hp). cbn [List.length].
    rewrite length_app. cbn [List.length]. lia.
  - rewrite stringify_object, weight_object. apply printable_object in Hp.
    pose proof (members_fit IH (proj2 Hp)). cbn [List.length].
    rewrite length_app. cbn [List.length]. lia.
Qed.

(** [JSON.parse(JSON.stringify(v))] is [v]. *)
Theorem parse_stringify v : printable v -> parse (stringify v) = Some v.
Proof.
  intros Hp. unfold parse.
  pose proof (@parse_stringify_value v Hp (S (List.length (stringify v)))) as H.
  specialize (H ltac:(pose proof (@weight_le_length v Hp); lia) [] I).
  rewrite app_nil_r in H. now rewrite H.
Qed.

End JsonRoundTrip.

(** ** The challenge header *)

Section Latin1Text.
Import JS Num Base64 Json.
Local Open Scope N_scope.

Lemma latin1_forall s : latin1 s <-> Forall (fun c => c <= 255) s.
Proof.
  unfold latin1. rewrite forallb_forall, Forall_forall.
  split; intros H c I; specialize (H c I); now apply N.leb_le.
Qed.

Lemma latin1_digits s : forallb is_digit s = true -> latin1 s.
Proof.
  unfold latin1. induction s as [|c s IH]; cbn [forallb]; [reflexivity|].
  intros H. apply andb_true_iff in H as [Hc H]. rewrite (IH H), andb_true_r.
  unfold is_digit in Hc. apply andb_true_iff in Hc as [_ Hc].
  apply N.leb_le in Hc. apply N.leb_le. lia.
Qed.

Lemma latin1_firstn n : forall s, latin1 s -> latin1 (firstn n s).
Proof.
  induction n as [|n IH]; intros [|c s] L; try reflexivity.
  apply latin1_cons in L as [Lc L]. cbn [firstn]. apply latin1_cons. auto.
Qed.

Lemma latin1_skipn n : forall s, latin1 s -> latin1 (skipn n s).
Proof.
  induction n as [|n IH]; intros [|c s] L; try reflexivity; try assumption.
  apply latin1_cons in L as [Lc L]. cbn [skipn]. auto.
Qed.

Lemma latin1_zeros n : latin1 (zeros n).
Proof.
  unfold zeros. induction (Z.to_nat n); [reflexivity|].
  cbn [repeat]. apply latin1_cons. split; [lia | assumption].
Qed.

Lemma latin1_digits_of_N n : latin1 (digits_of_N n).
Proof. apply latin1_digits, digits_of_N_spec. Qed.

Lemma latin1_render s k n : latin1 (render s k n).
Proof.
  unfold render.
  pose proof (latin1_digits_of_N (Z.to_N s)) as HD.
  pose proof (latin1_digits_of_N (Z.to_N (Z.abs (n - 1)))) as HE.
  repeat match goal with
         | |- latin1 (if ?b then _ else _) => destruct b
         | |- latin1 (_ ++ _) => apply latin1_app; split
         | |- latin1 (_ :: _) => apply latin1_cons; split; [lia|]
         | |- latin1 (firstn _ _) => apply latin1_firstn
         | |- latin1 (skipn _ _) => apply latin1_skipn
         | |- latin1 (zeros _) => apply latin1_zeros
         | |- latin1 [] => reflexivity
         | |- latin1 (digits_of_N _) => assumption
         end.
  - destruct (digits_of_N (Z.to_N s)) as [|d [|d' ds]]; [reflexivity | |];
      apply latin1_cons in HD as [Hd HD].
    + apply latin1_cons; split; [assumption|].
      apply latin1_cons; split; [lia|].
      apply latin1_cons; split; [now destruct (n - 1 <? 0)%Z | assumption].
    + apply latin1_cons; split; [assumption|].
      apply latin1_cons; split; [lia|].
      apply latin1_app; split; [assumption|].
      apply latin1_cons; split; [lia|].
      apply latin1_cons; split; [now destruct (n - 1 <? 0)%Z | assumption].
Qed.

(** The text of a number is ASCII. *)
Lemma latin1_toString x : latin1 (toString x).
Proof.
  destruct x as [sg|sg| |sg m e]; try (destruct sg); try reflexivity;
    unfold toString;
    destruct (if (0 <=? e)%Z then _ else _) as [num den];
    destruct (shortest _ _ _ _ _ _) as [[s k] n'];
    apply latin1_app; split; try reflexivity; apply latin1_render.
Qed.

Lemma latin1_hex_digit n : n < 16 -> hex_digit n <= 255.
Proof. unfold hex_digit. destruct (n <? 10); lia. Qed.

Lemma latin1_quote_body s : latin1 s -> latin1 (quote_body s).
Proof.
  induction s as [|c s IH]; intros L; [reflexivity|].
  apply latin1_cons in L as [Lc L]. specialize (IH L).
  destruct (latin1_not_surrogate Lc) as [Hh Hl].
  cbn [quote_body]. rewrite Hh, Hl.
  assert (U : latin1 (uescape c)).
  { unfold uescape.
    repeat (apply latin1_cons; split;
            [try lia; apply latin1_hex_digit;
             try (apply N.mod_upper_bound; discriminate);
             apply N.Div0.div_lt_upper_bound; lia|]).
    reflexivity. }
  repeat match goal with
         | |- latin1 (if ?b then _ else _) => destruct b
         | |- latin1 (_ ++ _) => apply latin1_app; split
         | |- latin1 (_ :: _) => apply latin1_cons; split; [lia|]
         end; assumption.
Qed.

Lemma latin1_quote s : latin1 s -> latin1 (quote s).
Proof.
  intros L. unfold quote. apply latin1_cons. split; [lia|].
  apply latin1_app. split; [now apply latin1_quote_body | reflexivity].
Qed.

Lemma latin1_number_chars s : forallb is_number_char s = true -> latin1 s.
Proof.
  unfold latin1. induction s as [|c s IH]; cbn [forallb]; [reflexivity|].
  intros H. apply andb_true_iff in H as [Hc H]. rewrite (IH H), andb_true_r.
  apply N.leb_le.
  unfold is_number_char, is_digit in Hc. cbn in Hc.
  repeat match type of Hc with
         | (_ || _)%bool = true => apply orb_true_iff in Hc; destruct Hc as [Hc|Hc]
         | (_ && _)%bool = true => apply andb_true_iff in Hc; destruct Hc as [? Hc]
         | (_ =? _) = true => apply N.eqb_eq in Hc
         | (_ <=? _) = true => apply N.leb_le in Hc
         end; try lia; discriminate.
Qed.

(** Printing a printable value gives text that [btoa] accepts. *)
Lemma latin1_stringify v : printable v -> latin1 (stringify v).
Proof.
  induction v as [|b|x|s|l IH|m IH] using json_induction; intros Hp.
  - reflexivity.
  - destruct b; reflexivity.
  - destruct Hp as (Hc & _). now apply latin1_number_chars.
  - now apply latin1_quote.
  - rewrite stringify_array. apply printable_array in Hp.
    apply latin1_cons. split; [lia|]. apply latin1_app. split; [|reflexivity].
    induction IH as [|x l Hx _ IHl]; [reflexivity|].
    inversion Hp; subst.
    destruct l as [|y l]; [cbn [elements_text]; auto|].
    rewrite elements_text_cons. apply latin1_app. split; [auto|].
    apply latin1_cons. split; [lia | auto].
  - rewrite stringify_object. apply printable_object in Hp as [_ Hp].
    apply latin1_cons. split; [lia|]. apply latin1_app. split; [|reflexivity].
    induction IH as [|[k x] m Hx _ IHm]; [reflexivity|].
    inversion Hp as [|? ? [Hk Px] Pm]; subst. cbn [fst snd] in *.
    destruct m as [|kv m].
    + cbn [members_text]. apply latin1_app. split; [now apply latin1_quote|].
      apply latin1_cons. split; [lia | auto].
    + rewrite members_text_cons. apply latin1_app.
      split; [now apply latin1_quote|].
      apply latin1_cons. split; [lia|]. apply latin1_app. split; [auto|].
      apply latin1_cons. split; [lia | auto].
Qed.

(** Names that differ pairwise. *)
Fixpoint distinct (l : list jsstring) : bool :=
  match l with
  | [] => true
  | k :: r => negb (existsb (JS.eqb k) r) && distinct r
  end.

Lemma distinct_NoDup l : distinct l = true -> NoDup l.
Proof.
  induction l as [|k r IH]; cbn [distinct]; intros H; [constructor|].
  apply andb_true_iff in H as [Hk Hr]. constructor; [|auto].
  intros I. apply negb_true_iff in Hk.
  assert (E : existsb (JS.eqb k) r = true)
    by (apply existsb_exists; exists k; split; [assumption | apply eqb_refl]).
  congruence.
Qed.

End Latin1Text.

Section ChallengeHeader.
Import JS Num Base64 Json Err X402Server.

Lemma number_ok_1 : number_ok (of_Z 1).
Proof. repeat split; vm_compute; congruence. Qed.



Lemma latin1_parsePrice priceString decimals :
  latin1 (parsePrice priceString decimals).
Proof. apply latin1_toString. Qed.




End ChallengeHeader.

(** A pricing entry whose description has a dash outside Latin-1
    (U+2014), on the devnet. *)
Module DashScenario.
Import JS Num Base64 Json Err X402Server.

Definition with_dash : jsstring :=
  lit "Enhanced swap " ++ [8212%N] ++ lit " MEV protection".

Definition config : PricingConfig :=
  {| price := lit "$0.005"; network := MismatchScenario.devnet;
     description := with_dash; mimeType := None |}.

Definition request : Request :=
  {| method := lit "POST"; path := lit "/v1/swap/enhanced";
     protocol := lit "http"; host := Some (lit "localhost:3001");
     originalUrl := lit "/v1/swap/enhanced"; headers := [] |}.

Definition payTo : jsstring := lit "9WzDXwBbmkg8ZTbNMqUxvQRAyrZzDsGYdLVL9zYtAWWM".

Definition requirements : PaymentRequirements :=
  build_requirements payTo config
    (lit "4zMMC9srt5Ri5X14GAgXhaHii3GnPAEERYPJgZJDncDU") request.

End DashScenario.



(** ** Price parsing *)

(** C9 (the code at the failing input). A price of $0.005 gives the amount
    "5000" of a 6-decimal asset, in every requirement the issuer builds
    from it. But the product of the parsed price and 10^6 is taken in
    binary floating point before the floor: $1.005 gives "1004999" (one
    atomic unit short of 1005000), and $8.2 gives "8199999". *)
Theorem parsePrice_binary_rounding :
  X402Server.parsePrice (JS.lit "$0.005") 6 = JS.lit "5000" /\
  (forall payTo network description mimeType usdcAddress req,
      X402Server.r_amount
        (X402Server.build_requirements payTo
           {| X402Server.price := JS.lit "$0.005";
              X402Server.network := network;
              X402Server.description := description;
              X402Server.mimeType := mimeType |}
           usdcAddress req)
      = JS.lit "5000") /\
  X402Server.parsePrice (JS.lit "$1.005") 6 = JS.lit "1004999" /\
  X402Server.parsePrice (JS.lit "$8.2") 6 = JS.lit "8199999".
Proof.
  split; [vm_compute; reflexivity|].
  split; [intros; vm_compute; reflexivity|].
  split; vm_compute; reflexivity.
Qed.

(** The product that is floored: 1.005 * 10^6 in binary64 is
    1004999.9999999999. *)
Example price_product_below_integer :
  Num.toString (Num.mul (Num.parseFloat (JS.lit "1.005")) (Num.pow10 6))
  = JS.lit "1004999.9999999999".
Proof. vm_compute. reflexivity. Qed.

(** A price without a number gives no amount at all. *)
Example parsePrice_not_a_number :
  X402Server.parsePrice (JS.lit "free") 6 = JS.lit "NaN".
Proof. vm_compute. reflexivity. Qed.


(* ================================================================== *)
(** * Further properties of the code *)

(** ** The retry loop: how much it does, and how it ends *)

Section RetryBounds.
Import JS Err Client.
Local Open Scope Z_scope.

Variable connection : Connection.
Variable serializedTransaction : list N.
Variable blockhashData : BlockhashData.

Local Abbreviation body :=
  (attempt_body connection serializedTransaction blockhashData).
Local Abbreviation retry :=
  (attempts_from connection serializedTransaction blockhashData).
Local Abbreviation run :=
  (sendTransactionWithRetry connection serializedTransaction blockhashData).

(** The transactions handed to [sendRawTransaction], the timer delays and
    the number of height queries among some calls. *)
Definition submissions (l : list call) : list (list N) :=
  flat_map (fun c => match c with
                     | SendRawTransaction tx _ => [tx]
                     | _ => []
                     end) l.

Definition sleeps (l : list call) : list Z :=
  flat_map (fun c => match c with Sleep ms => [ms] | _ => [] end) l.

Definition height_checks (l : list call) : nat :=
  List.length (filter (fun c => match c with
                                | GetBlockHeight _ => true
                                | _ => false
                                end) l).

(** The delays of [n] consecutive failed attempts from [attempt] on. *)
Definition delays (attempt : Z) (n : nat) : list Z :=
  map (fun i => getRetryDelay (attempt + Z.of_nat i)) (seq 0 n).

Lemma delays_S attempt n :
  delays attempt (S n) = getRetryDelay attempt :: delays (attempt + 1) n.
Proof.
  unfold delays. cbn [seq map]. rewrite Z.add_0_r. f_equal.
  rewrite <- seq_shift, map_map. apply map_ext. intros i. f_equal. lia.
Qed.

Lemma submissions_app l1 l2 :
  submissions (l1 ++ l2) = submissions l1 ++ submissions l2.
Proof. apply flat_map_app. Qed.

Lemma sleeps_app l1 l2 : sleeps (l1 ++ l2) = sleeps l1 ++ sleeps l2.
Proof. apply flat_map_app. Qed.

Lemma height_checks_app l1 l2 :
  height_checks (l1 ++ l2) = (height_checks l1 + height_checks l2)%nat.
Proof. unfold height_checks. now rewrite filter_app, length_app. Qed.

(** What one attempt does: one height query, at most one submission (of
    the transaction it was given), no timer; and when it succeeds, its
    calls are the four of a confirmed submission. *)
Inductive attempt_shape (h : list call) : result jsstring -> list call -> Prop :=
| shape_height_failed e :
    attempt_shape h (Throw e) [GetBlockHeight (Throw e)]
| shape_expired height :
    lastValidBlockHeight blockhashData < height ->
    attempt_shape h (Throw expired_error) [GetBlockHeight (Ok height)]
| shape_refused height e :
    height <= lastValidBlockHeight blockhashData ->
    attempt_shape h (Throw e)
      [GetBlockHeight (Ok height);
       SendRawTransaction serializedTransaction (Throw e)]
| shape_no_blockhash height txid e :
    height <= lastValidBlockHeight blockhashData ->
    attempt_shape h (Throw e)
      [GetBlockHeight (Ok height);
       SendRawTransaction serializedTransaction (Ok txid);
       GetLatestBlockhash (Throw e)]
| shape_unconfirmed height txid bh e :
    height <= lastValidBlockHeight blockhashData ->
    attempt_shape h (Throw e)
      [GetBlockHeight (Ok height);
       SendRawTransaction serializedTransaction (Ok txid);
       GetLatestBlockhash (Ok bh);
       ConfirmTransaction txid bh (Throw e)]
| shape_failed height txid bh err :
    height <= lastValidBlockHeight blockhashData ->
    attempt_shape h
      (Throw (GanymedeError SWAP_FAILED (lit "Transaction failed: " ++ err) None))
      [GetBlockHeight (Ok height);
       SendRawTransaction serializedTransaction (Ok txid);
       GetLatestBlockhash (Ok bh);
       ConfirmTransaction txid bh (Ok (Some err))]
| shape_confirmed height txid bh :
    height <= lastValidBlockHeight blockhashData ->
    attempt_shape h (Ok txid)
      [GetBlockHeight (Ok height);
       SendRawTransaction serializedTransaction (Ok txid);
       GetLatestBlockhash (Ok bh);
       ConfirmTransaction txid bh (Ok None)].

Lemma attempt_body_shape h :
  exists lb, snd (body h) = h ++ lb /\ attempt_shape h (fst (body h)) lb.
Proof.
  unfold attempt_body, hasTransactionExpired, confirmTransaction,
    getLatestBlockhash, bind, perform, ret, throw.
  destruct (getBlockHeight connection h) as [height|e].
  - destruct (lastValidBlockHeight blockhashData <? height) eqn:L.
    + apply Z.ltb_lt in L. eexists. split; [reflexivity|]. now constructor.
    + apply Z.ltb_ge in L.
      destruct (sendRawTransaction connection _ _) as [txid|e].
      * destruct (latestBlockhash connection _) as [bh|e].
        -- destruct (confirm connection _ _ _) as [[err|]|e];
             (eexists; split;
              [cbn [fst snd]; rewrite <- !app_assoc; reflexivity
              | cbn [fst snd]; now constructor]).
        -- eexists; split; [cbn [fst snd]; rewrite <- !app_assoc; reflexivity|].
           cbn [fst snd]. now constructor.
      * eexists; split; [cbn [fst snd]; rewrite <- !app_assoc; reflexivity|].
        cbn [fst snd]. now constructor.
  - eexists. split; [reflexivity|]. constructor.
Qed.

Lemma attempt_shape_counts h r lb :
  attempt_shape h r lb ->
  sleeps lb = [] /\ height_checks lb = 1%nat /\
  (submissions lb = [] \/ submissions lb = [serializedTransaction]).
Proof. intros H. destruct H; cbn; auto. Qed.

(** The step of the loop after a failed attempt. *)
Lemma retry_S remaining attempt lastError h :
  retry (S remaining) attempt lastError h
  = match body h with
    | (Ok txid, h') => (Ok txid, h')
    | (Throw Unmodelled, h') => (Throw Unmodelled, h')
    | (Throw error, h') =>
        match error_message error with
        | None => (Throw TypeError, h')
        | Some message =>
            if includes message (lit "blockhash has expired")
            then (Throw error, h')
            else if MAX_RETRY_ATTEMPTS <=? attempt
            then (Throw
                    (GanymedeError SWAP_FAILED
                       (lit "Transaction failed after 3 retry attempts: "
                          ++ message)
                       (Some error)), h')
            else retry remaining (attempt + 1) (Some error)
                   (h' ++ [Sleep (getRetryDelay attempt)])
        end
    end.
Proof.
  cbn [attempts_from]. unfold try_catch.
  destruct (body h) as [[txid|e] h']; [reflexivity|].
  destruct e as [code msg cause|name msg| |]; cbn [error_message];
    try reflexivity;
    (destruct (includes msg _); [reflexivity|];
     destruct (MAX_RETRY_ATTEMPTS <=? attempt); reflexivity).
Qed.

(** What a run of the loop appends, the attempt number and the attempts
    left adding up to the bound. *)
Definition bounded_run (attempt : Z) (remaining : nat) (l : list call) : Prop :=
  exists k n,
    (k < remaining)%nat /\ sleeps l = delays attempt k /\
    height_checks l = S k /\
    (n <= S k)%nat /\ submissions l = repeat serializedTransaction n.

Lemma bounded_run_stop attempt remaining h r lb :
  attempt_shape h r lb -> bounded_run attempt (S remaining) lb.
Proof.
  intros Hshape. destruct (attempt_shape_counts Hshape) as (Hsl & Hhc & Hsub).
  exists 0%nat. destruct Hsub as [E|E]; [exists 0%nat | exists 1%nat];
    rewrite Hsl, Hhc, E; repeat split; lia.
Qed.

Lemma bounded_run_step attempt remaining h r lb l :
  attempt_shape h r lb -> bounded_run (attempt + 1) remaining l ->
  bounded_run attempt (S remaining) (lb ++ Sleep (getRetryDelay attempt) :: l).
Proof.
  intros Hshape (k & n & Hk & Hd & Hc & Hn & Hsubs).
  destruct (attempt_shape_counts Hshape) as (Hsl & Hhc & Hsub).
  exists (S k).
  assert (Es : sleeps (lb ++ Sleep (getRetryDelay attempt) :: l)
               = delays attempt (S k)).
  { rewrite sleeps_app, Hsl, delays_S. cbn [app].
    change (sleeps (Sleep (getRetryDelay attempt) :: l))
      with (getRetryDelay attempt :: sleeps l). now rewrite Hd. }
  assert (Eh : height_checks (lb ++ Sleep (getRetryDelay attempt) :: l)
               = S (S k)).
  { rewrite height_checks_app, Hhc.
    change (height_checks (Sleep (getRetryDelay attempt) :: l))
      with (height_checks l). now rewrite Hc. }
  assert (Eb : submissions (lb ++ Sleep (getRetryDelay attempt) :: l)
               = submissions lb ++ repeat serializedTransaction n).
  { rewrite submissions_app.
    change (submissions (Sleep (getRetryDelay attempt) :: l))
      with (submissions l). now rewrite Hsubs. }
  destruct Hsub as [E|E]; [exists n | exists (S n)];
    rewrite Es, Eh, Eb, E; repeat split; lia.
Qed.

Lemma retry_bounded remaining : forall attempt lastError h,
  attempt + Z.of_nat remaining = MAX_RETRY_ATTEMPTS + 1 ->
  (1 <= remaining)%nat ->
  exists l,
    snd (retry remaining attempt lastError h) = h ++ l /\
    bounded_run attempt remaining l.
Proof.
  induction remaining as [|remaining IH]; intros attempt lastError h Hsum Hrem;
    [lia|].
  rewrite retry_S.
  destruct (attempt_body_shape h) as (lb & Hs & Hshape).
  pose proof (bounded_run_stop attempt remaining Hshape) as Hstop.
  destruct (body h) as [[txid|e] h'] eqn:B; cbn [fst snd] in Hs, Hshape; subst h'.
  - exists lb. now split.
  - assert (Hgo : forall error,
               (MAX_RETRY_ATTEMPTS <=? attempt) = false ->
               exists l,
                 snd (retry remaining (attempt + 1) (Some error)
                        ((h ++ lb) ++ [Sleep (getRetryDelay attempt)]))
                 = h ++ l /\
                 bounded_run attempt (S remaining) l).
    { intros error Hmax. apply Z.leb_gt in Hmax. unfold MAX_RETRY_ATTEMPTS in *.
      destruct (IH (attempt + 1) (Some error)
                  ((h ++ lb) ++ [Sleep (getRetryDelay attempt)]))
        as (l & El & Hl); try lia.
      exists (lb ++ Sleep (getRetryDelay attempt) :: l). split.
      - rewrite El. now rewrite <- !app_assoc.
      - eapply bounded_run_step; eassumption. }
    destruct e as [code msg cause|name msg| |]; cbn [error_message];
      try (exists lb; now split);
      (destruct (includes msg _); [exists lb; now split|];
       destruct (MAX_RETRY_ATTEMPTS <=? attempt) eqn:Hmax;
       [exists lb; now split | now apply Hgo]).
Qed.

(** X1. Whatever the ledger answers, one run of [sendTransactionWithRetry]
    makes between one and four attempts: one height query per attempt, at
    most one submission per attempt and always of the very transaction it
    was given, and between two attempts one timer, the delays being 500,
    1000 and 2000 ms in this order. *)
Theorem sendTransactionWithRetry_is_bounded (h : list call) :
  exists l k n,
    snd (run h) = h ++ l /\
    (k <= 3)%nat /\ sleeps l = firstn k [500; 1000; 2000] /\
    height_checks l = S k /\
    (n <= S k)%nat /\ submissions l = repeat serializedTransaction n.
Proof.
  destruct (@retry_bounded (Z.to_nat (MAX_RETRY_ATTEMPTS + 1)) 0 None h)
    as (l & El & k & n & Hk & Hd & Hc & Hn & Hsubs);
    [reflexivity | cbn; lia |].
  assert (Hk' : (k <= 3)%nat) by (unfold MAX_RETRY_ATTEMPTS in Hk; lia).
  exists l, k, n. split; [exact El|]. split; [exact Hk'|].
  split; [|auto].
  rewrite Hd.
  destruct k as [|[|[|[|k]]]]; [reflexivity | reflexivity | reflexivity | reflexivity | lia].
Qed.

(** The calls of a confirmed submission. *)
Definition confirmed_submission (height : Z) (txid : jsstring)
           (bh : BlockhashData) : list call :=
  [GetBlockHeight (Ok height);
   SendRawTransaction serializedTransaction (Ok txid);
   GetLatestBlockhash (Ok bh);
   ConfirmTransaction txid bh (Ok None)].

Lemma retry_success remaining : forall attempt lastError h txid,
  fst (retry remaining attempt lastError h) = Ok txid ->
  exists pre height bh,
    snd (retry remaining attempt lastError h)
    = h ++ pre ++ confirmed_submission height txid bh /\
    height <= lastValidBlockHeight blockhashData.
Proof.
  induction remaining as [|remaining IH]; intros attempt lastError h txid;
    [discriminate|].
  rewrite retry_S.
  destruct (attempt_body_shape h) as (lb & Hs & Hshape).
  destruct (body h) as [[txid'|e] h'] eqn:B; cbn [fst snd] in Hs, Hshape; subst h'.
  - intros [= ->]. inversion Hshape; subst.
    exists [], height, bh. split; [reflexivity | assumption].
  - assert (Hgo : forall error,
               fst (retry remaining (attempt + 1) (Some error)
                      ((h ++ lb) ++ [Sleep (getRetryDelay attempt)])) = Ok txid ->
               exists pre height bh,
                 snd (retry remaining (attempt + 1) (Some error)
                        ((h ++ lb) ++ [Sleep (getRetryDelay attempt)]))
                 = h ++ pre ++ confirmed_submission height txid bh /\
                 height <= lastValidBlockHeight blockhashData).
    { intros error Hok.
      destruct (IH _ _ _ _ Hok) as (pre & height & bh & E & L).
      exists (lb ++ Sleep (getRetryDelay attempt) :: pre), height, bh.
      split; [|exact L]. rewrite E. now rewrite <- !app_assoc. }
    destruct e as [code msg cause|name msg| |]; cbn [error_message];
      try discriminate;
      (destruct (includes msg _); [discriminate|];
       destruct (MAX_RETRY_ATTEMPTS <=? attempt); [discriminate|]; apply Hgo).
Qed.

(** X2. When [sendTransactionWithRetry] returns a transaction id, the run
    ended with a confirmed submission: a height query that found the
    ledger within the deadline, the submission that returned this very id,
    a query for the latest blockhash, and a confirmation of the id that
    reported no error. Nothing is called after it. *)
Theorem sendTransactionWithRetry_returns_confirmed_id
        (h : list call) (txid : jsstring) :
  fst (run h) = Ok txid ->
  exists pre height bh,
    snd (run h)
    = h ++ pre
        ++ [GetBlockHeight (Ok height);
            SendRawTransaction serializedTransaction (Ok txid);
            GetLatestBlockhash (Ok bh);
            ConfirmTransaction txid bh (Ok None)] /\
    height <= lastValidBlockHeight blockhashData.
Proof. apply retry_success. Qed.

Definition expiry_phrase : jsstring := lit "blockhash has expired".

Lemma retry_gives_up remaining : forall attempt lastError h code message cause,
  attempt + Z.of_nat remaining = MAX_RETRY_ATTEMPTS + 1 ->
  (1 <= remaining)%nat ->
  fst (retry remaining attempt lastError h)
  = Throw (GanymedeError code message cause) ->
  includes message expiry_phrase = false ->
  exists last reason l,
    code = SWAP_FAILED /\ cause = Some last /\
    error_message last = Some reason /\
    includes reason expiry_phrase = false /\
    message = lit "Transaction failed after 3 retry attempts: " ++ reason /\
    snd (retry remaining attempt lastError h) = h ++ l /\
    sleeps l = delays attempt (remaining - 1) /\
    height_checks l = remaining.
Proof.
  induction remaining as [|remaining IH];
    intros attempt lastError h code message cause Hsum Hrem; [lia|].
  rewrite retry_S.
  destruct (attempt_body_shape h) as (lb & Hs & Hshape).
  destruct (attempt_shape_counts Hshape) as (Hsl & Hhc & _).
  destruct (body h) as [[txid|e] h'] eqn:B; cbn [fst snd] in Hs, Hshape; subst h';
    [discriminate|].
  assert (Hlast : forall error reason,
             error_message error = Some reason ->
             includes reason expiry_phrase = false ->
             (MAX_RETRY_ATTEMPTS <=? attempt) = true ->
             Throw (A := jsstring)
               (GanymedeError SWAP_FAILED
                  (lit "Transaction failed after 3 retry attempts: " ++ reason)
                  (Some error))
             = Throw (GanymedeError code message cause) ->
             exists last reason0 l,
               code = SWAP_FAILED /\ cause = Some last /\
               error_message last = Some reason0 /\
               includes reason0 expiry_phrase = false /\
               message
               = lit "Transaction failed after 3 retry attempts: " ++ reason0 /\
               h ++ lb = h ++ l /\
               sleeps l = delays attempt (S remaining - 1) /\
               height_checks l = S remaining).
  { intros error reason Hm Hinc Hmax [= <- <- <-].
    apply Z.leb_le in Hmax. unfold MAX_RETRY_ATTEMPTS in *.
    assert (remaining = 0%nat) by lia. subst remaining.
    exists error, reason, lb. rewrite Hsl, Hhc. repeat split; auto. }
  assert (Hgo : forall error,
             (MAX_RETRY_ATTEMPTS <=? attempt) = false ->
             fst (retry remaining (attempt + 1) (Some error)
                    ((h ++ lb) ++ [Sleep (getRetryDelay attempt)]))
             = Throw (GanymedeError code message cause) ->
             includes message expiry_phrase = false ->
             exists last reason l,
               code = SWAP_FAILED /\ cause = Some last /\
               error_message last = Some reason /\
               includes reason expiry_phrase = false /\
               message
               = lit "Transaction failed after 3 retry attempts: " ++ reason /\
               snd (retry remaining (attempt + 1) (Some error)
                      ((h ++ lb) ++ [Sleep (getRetryDelay attempt)])) = h ++ l /\
               sleeps l = delays attempt (S remaining - 1) /\
               height_checks l = S remaining).
  { intros error Hmax Hthrow Hinc. apply Z.leb_gt in Hmax.
    unfold MAX_RETRY_ATTEMPTS in *.
    destruct (IH (attempt + 1) (Some error)
                ((h ++ lb) ++ [Sleep (getRetryDelay attempt)])
                code message cause)
      as (last & reason & l & Hc & Hcause & Hm & Hr & Hmsg & El & Hd & Hn);
      try assumption; try lia.
    exists last, reason, (lb ++ Sleep (getRetryDelay attempt) :: l).
    repeat split; try assumption.
    - rewrite El. now rewrite <- !app_assoc.
    - rewrite sleeps_app, Hsl. cbn [app].
      change (sleeps (Sleep (getRetryDelay attempt) :: l))
        with (getRetryDelay attempt :: sleeps l).
      rewrite Hd. destruct remaining as [|remaining]; [lia|].
      replace (S (S remaining) - 1)%nat with (S (S remaining - 1)) by lia.
      now rewrite delays_S.
    - rewrite height_checks_app, Hhc.
      change (height_checks (Sleep (getRetryDelay attempt) :: l))
        with (height_checks l). now rewrite Hn. }
  destruct e as [code' msg cause'|name msg| |]; cbn [error_message fst snd];
    try discriminate.
  - destruct (includes msg (lit "blockhash has expired")) eqn:Hinc.
    + cbn [fst]. intros [= <- <- <-] Hno. unfold expiry_phrase in Hno. congruence.
    + destruct (MAX_RETRY_ATTEMPTS <=? attempt) eqn:Hmax.
      * cbn [fst snd]. intros Hthrow _.
        exact (Hlast (GanymedeError code' msg cause') msg eq_refl Hinc eq_refl
                 Hthrow).
      * now apply Hgo.
  - destruct (includes msg (lit "blockhash has expired")) eqn:Hinc.
    + discriminate.
    + destruct (MAX_RETRY_ATTEMPTS <=? attempt) eqn:Hmax.
      * cbn [fst snd]. intros Hthrow _.
        exact (Hlast (JsError name msg) msg eq_refl Hinc eq_refl Hthrow).
      * now apply Hgo.
Qed.

(** X3. When a run of [sendTransactionWithRetry] fails with a
    GanymedeError whose message does not contain 'blockhash has expired',
    the loop has given up: the error has code SWAP_FAILED and the message
    'Transaction failed after 3 retry attempts: ' followed by the message
    of the error of the last attempt, which it carries as its cause; the
    run made four attempts (four height queries), with the three delays
    500, 1000 and 2000 ms between them. *)
Theorem sendTransactionWithRetry_gives_up_after_four_attempts
        (h : list call) (code : GanymedeErrorCode) (message : jsstring)
        (cause : option thrown) :
  fst (run h) = Throw (GanymedeError code message cause) ->
  includes message (lit "blockhash has expired") = false ->
  exists last reason l,
    code = SWAP_FAILED /\ cause = Some last /\
    error_message last = Some reason /\
    message = lit "Transaction failed after 3 retry attempts: " ++ reason /\
    snd (run h) = h ++ l /\
    sleeps l = [500; 1000; 2000] /\ height_checks l = 4%nat.
Proof.
  intros Hthrow Hinc.
  destruct (@retry_gives_up (Z.to_nat (MAX_RETRY_ATTEMPTS + 1)) 0 None h
              code message cause)
    as (last & reason & l & Hc & Hcause & Hm & _ & Hmsg & El & Hd & Hn);
    [reflexivity | cbn; lia | exact Hthrow | exact Hinc |].
  exists last, reason, l. repeat split; assumption.
Qed.

End RetryBounds.

(** A ledger that refuses the first submission and takes the second. *)
Module SecondAttemptScenario.
Import JS Err Client.

Definition txid : jsstring :=
  lit "5VERv8NMvzbJMEkV8xnrLkEaWRtSz9CosKDYjCJjBRnbJLgp8uirBgmQpjKhoR4tjF3ZpRzrFmBV6UjKdiSZkQUW".

Definition fresh : BlockhashData :=
  {| blockhash := lit "9xQeWvG8"; lastValidBlockHeight := 300 |}.

Definition connection : Connection :=
  {| getBlockHeight := fun _ => Ok 100%Z;
     latestBlockhash := fun _ => Ok fresh;
     sendRawTransaction := fun h _ =>
       match h with
       | [_] => Throw (JsError (lit "Error") (lit "Node is behind"))
       | _ => Ok txid
       end;
     confirm := fun _ _ _ => Ok None |}.

Definition blockhashData : BlockhashData :=
  {| blockhash := lit "4vJ9JU1b"; lastValidBlockHeight := 150 |}.

Definition transaction : list N := [1; 2; 3]%N.

End SecondAttemptScenario.

Lemma sendTransactionWithRetry_returns_confirmed_id_witness :
  exists pre height bh,
    snd (Client.sendTransactionWithRetry SecondAttemptScenario.connection
           SecondAttemptScenario.transaction
           SecondAttemptScenario.blockhashData [])
    = [] ++ pre
        ++ [Client.GetBlockHeight (Err.Ok height);
            Client.SendRawTransaction SecondAttemptScenario.transaction
              (Err.Ok SecondAttemptScenario.txid);
            Client.GetLatestBlockhash (Err.Ok bh);
            Client.ConfirmTransaction SecondAttemptScenario.txid bh
              (Err.Ok None)] /\
    (height <= 150)%Z.
Proof.
  apply (@sendTransactionWithRetry_returns_confirmed_id
           SecondAttemptScenario.connection SecondAttemptScenario.transaction
           SecondAttemptScenario.blockhashData [] SecondAttemptScenario.txid).
  vm_compute. reflexivity.
Defined.

(** A ledger that refuses every submission. *)
Module RefusalScenario.
Import JS Err Client.

Definition refusal : thrown := JsError (lit "Error") (lit "Node is behind").

Definition connection : Connection :=
  {| getBlockHeight := fun _ => Ok 100%Z;
     latestBlockhash := fun _ => Ok SecondAttemptScenario.fresh;
     sendRawTransaction := fun _ _ => Throw refusal;
     confirm := fun _ _ _ => Ok None |}.

Definition message : jsstring :=
  lit "Transaction failed after 3 retry attempts: Node is behind".

End RefusalScenario.

Lemma sendTransactionWithRetry_gives_up_after_four_attempts_witness :
  exists last reason l,
    Err.SWAP_FAILED = Err.SWAP_FAILED /\
    Some RefusalScenario.refusal = Some last /\
    Err.error_message last = Some reason /\
    RefusalScenario.message
    = JS.lit "Transaction failed after 3 retry attempts: " ++ reason /\
    snd (Client.sendTransactionWithRetry RefusalScenario.connection
           SecondAttemptScenario.transaction
           SecondAttemptScenario.blockhashData []) = [] ++ l /\
    sleeps l = [500; 1000; 2000]%Z /\ height_checks l = 4%nat.
Proof.
  apply (@sendTransactionWithRetry_gives_up_after_four_attempts
           RefusalScenario.connection SecondAttemptScenario.transaction
           SecondAttemptScenario.blockhashData [] Err.SWAP_FAILED
           RefusalScenario.message (Some RefusalScenario.refusal)).
  - vm_compute. reflexivity.
  - vm_compute. reflexivity.
Defined.


(** ** The payment wrapper: every way a call can go *)

Section WrapperRuns.
Import JS Num Base64 Json Err X402Fetch.

Variable env : Env.
Variable wallet : Wallet.
Variable config : PaymentConfig.
Variable input : jsstring.
Variable init : RequestInit.

(** The state [s] with the events [l] recorded after it. *)
Definition recorded (s : State) (l : list event) : State :=
  {| idempotencyKeys := idempotencyKeys s; history := history s ++ l |}.

(** The headers of the first request, and those of the paid one. *)
Definition first_headers (key : jsstring) : headers :=
  with_header (init_headers init) (lit "x-idempotency-key") key.

Definition paid_headers (key paymentPayload : jsstring) : headers :=
  with_header
    (with_header
       (with_header (init_headers init) (lit "payment-signature") paymentPayload)
       (lit "x-payment") paymentPayload)
    (lit "x-idempotency-key") key.

(** The wrapper has chosen [key] and sent its first request, which was
    answered by [response]. *)
Definition first_response (s : State) (key : jsstring) (s1 : State)
           (response : Response) : Prop :=
  select_idempotencyKey env config input
    (or_default (method init) (lit "GET")) (address_of wallet) s
  = (Ok key, s1) /\
  fetch env (history s1) input (method init) (first_headers key) = Ok response.

(** The first response is a 402 whose header decodes to [requirements],
    and the amount it asks for is not above the limit. *)
Definition accepted_challenge (response : Response) (requirements : json)
  : Prop :=
  status response = 402%Z /\
  (exists paymentHeader,
      or_else (get (lit "payment-required") (response_headers response))
              (get (lit "x-payment-required") (response_headers response))
      = Some paymentHeader /\
      parsePaymentRequirements paymentHeader = Ok requirements) /\
  exists required,
    requiredAmount requirements = Ok required /\
    gtb required (maxPayment config) = false.

Lemma wrapper_after_key s key s1 :
  select_idempotencyKey env config input
    (or_default (method init) (lit "GET")) (address_of wallet) s
  = (Ok key, s1) ->
  wrapFetchWithPayment env wallet config input init s
  = try_catch
      (bind (fetchWithTimeout env input (method init) (first_headers key)
               (timeout_of config))
            (on_response env wallet config input init key (timeout_of config)))
      on_error s1.
Proof.
  intros Hkey. unfold wrapFetchWithPayment, bind at 1. now rewrite Hkey.
Qed.

Lemma wrapper_after_response s key s1 response :
  first_response s key s1 response ->
  wrapFetchWithPayment env wallet config input init s
  = try_catch
      (on_response env wallet config input init key (timeout_of config)
         response)
      on_error
      (recorded s1 [Fetch input (method init) (first_headers key) (Ok response)]).
Proof.
  intros [Hkey Hfetch]. rewrite (wrapper_after_key _ Hkey).
  rewrite try_catch_bind. unfold fetchWithTimeout. now rewrite Hfetch.
Qed.

Lemma wrapper_after_challenge s key s1 response requirements :
  first_response s key s1 response ->
  accepted_challenge response requirements ->
  wrapFetchWithPayment env wallet config input init s
  = try_catch
      (bind (createPaymentPayload env wallet requirements key)
         (fun paymentPayload =>
            bind (fetchWithTimeout env input (method init)
                    (paid_headers key paymentPayload) (timeout_of config))
              (fun paidResponse =>
                 if negb (ok paidResponse)
                 then throw (GanymedeError PAYMENT_DECLINED
                               (lit "Payment was rejected: "
                                  ++ string_of_Z (status paidResponse)
                                  ++ lit " " ++ text paidResponse) None)
                 else ret paidResponse)))
      on_error
      (recorded s1 [Fetch input (method init) (first_headers key) (Ok response)]).
Proof.
  intros Hfirst (Hstatus & (paymentHeader & Hheader & Hparse)
                 & (required & Hreq & Hgt)).
  rewrite (wrapper_after_response Hfirst).
  unfold on_response. rewrite Hstatus. cbn [Z.eqb Pos.eqb negb].
  rewrite Hheader.
  unfold try_catch at 1. unfold try_catch at 1.
  unfold bind at 1, lift. rewrite Hparse.
  unfold bind at 1. rewrite Hreq, Hgt. reflexivity.
Qed.

(** X4. A first response whose status is not 402 is returned as it is,
    whatever the status (an error status is no exception to the wrapper):
    the call has sent one request, carrying the caller's headers and the
    idempotency key, and has not asked the wallet for anything. *)
Theorem wrapper_returns_other_responses
        (s s1 : State) (key : jsstring) (response : Response) :
  first_response s key s1 response ->
  status response <> 402%Z ->
  wrapFetchWithPayment env wallet config input init s
  = (Ok response,
     recorded s1 [Fetch input (method init) (first_headers key) (Ok response)]).
Proof.
  intros Hfirst Hstatus. rewrite (wrapper_after_response Hfirst).
  unfold on_response. apply Z.eqb_neq in Hstatus. now rewrite Hstatus.
Qed.

(** The [catch] block throws and leaves the state alone. *)
Lemma on_error_throws e s :
  on_error e s
  = (Throw (if is_GanymedeError e then e
            else GanymedeError NETWORK_ERROR
                   (lit "Payment request failed: "
                      ++ match error_message e with
                         | Some m => m
                         | None => lit "Unknown error"
                         end)
                   (Some e)), s).
Proof. unfold on_error. now destruct (is_GanymedeError e). Qed.

Lemma snd_try_catch_on_error (m : M State Response) s :
  snd (try_catch m on_error s) = snd (m s).
Proof.
  unfold try_catch. destruct (m s) as [[r|e] s']; [reflexivity|].
  destruct e; try reflexivity; now rewrite on_error_throws.
Qed.

Lemma recorded_nil s : recorded s [] = s.
Proof. unfold recorded. rewrite app_nil_r. now destruct s. Qed.

Lemma recorded_recorded s l1 l2 :
  recorded (recorded s l1) l2 = recorded s (l1 ++ l2).
Proof. unfold recorded. cbn [idempotencyKeys history]. now rewrite app_assoc. Qed.

(** X5. Whatever is thrown out of the wrapper is a GanymedeError: the
    [catch] block rethrows those and wraps every other failure (of the
    network, of the wallet, of decoding) into one with code NETWORK_ERROR.
    (A run that leaves the modelled range of [asset.decimals] is marked
    as such.) *)
Theorem wrapper_throws_only_GanymedeError (s : State) (e : thrown) :
  fst (wrapFetchWithPayment env wallet config input init s) = Throw e ->
  is_GanymedeError e = true \/ e = Unmodelled.
Proof.
  destruct (select_idempotencyKey_effects env config input
              (or_default (method init) (lit "GET")) (address_of wallet) s)
    as (key & s1 & Hkey & _ & _).
  rewrite (wrapper_after_key _ Hkey). unfold try_catch.
  destruct (bind _ _ s1) as [[r|e'] s2]; [discriminate|].
  destruct e' as [code msg cause|name msg| |];
    try rewrite on_error_throws; cbn [fst is_GanymedeError];
    intros [= <-]; auto.
Qed.

(** The calls of one run of the wrapper after its key is chosen: the
    first request alone; or, after a 402, the clock and the wallet; or
    these and the paid request. *)
Inductive wrapper_calls (key : jsstring) : list event -> Prop :=
| calls_request out :
    wrapper_calls key [Fetch input (method init) (first_headers key) out]
| calls_signature response t message out :
    status response = 402%Z ->
    wrapper_calls key
      [Fetch input (method init) (first_headers key) (Ok response);
       DateNow t; SignMessage message out]
| calls_payment response t message signature paymentPayload out :
    status response = 402%Z ->
    wrapper_calls key
      [Fetch input (method init) (first_headers key) (Ok response);
       DateNow t; SignMessage message (Ok signature);
       Fetch input (method init) (paid_headers key paymentPayload) out].

Lemma fetchWithTimeout_state url method hs timeoutMs s :
  snd (fetchWithTimeout env url method hs timeoutMs s)
  = recorded s [Fetch url method hs (fetch env (history s) url method hs)].
Proof.
  unfold fetchWithTimeout.
  destruct (fetch env _ _ _ _) as [r|e]; [reflexivity|].
  now destruct (match error_name e with Some _ => _ | None => _ end).
Qed.

Lemma createPaymentPayload_calls requirements key s :
  (snd (createPaymentPayload env wallet requirements key s) = s /\
   exists e, fst (createPaymentPayload env wallet requirements key s) = Throw e)
  \/
  exists t message out,
    snd (createPaymentPayload env wallet requirements key s)
    = recorded s [DateNow t; SignMessage message out] /\
    forall p, fst (createPaymentPayload env wallet requirements key s) = Ok p ->
              exists signature, out = Ok signature.
Proof.
  unfold createPaymentPayload.
  destruct (signMessage wallet) as [sign|]; [|left; split; [reflexivity | eexists; reflexivity]].
  destruct (publicKey wallet) as [payer|]; [|left; split; [reflexivity | eexists; reflexivity]].
  unfold bind at 1, lift.
  destruct (read_fields requirements) as [f|e]; [|left; split; [reflexivity | eexists; reflexivity]].
  right. unfold bind at 1, Date_now. unfold bind. cbn [history idempotencyKeys].
  destruct (sign _ _) as [signature|e].
  - destruct (btoa _) as [p'|]; do 3 eexists;
      (split; [unfold recorded; cbn [fst snd history idempotencyKeys];
               now rewrite <- app_assoc
              | intros p _; eexists; reflexivity]).
  - do 3 eexists.
    split; [unfold recorded; cbn [fst snd history idempotencyKeys];
            now rewrite <- app_assoc | discriminate].
Qed.

Lemma paid_request_state hs s :
  snd (bind (fetchWithTimeout env input (method init) hs (timeout_of config))
         (fun paidResponse =>
            if negb (ok paidResponse)
            then throw (GanymedeError PAYMENT_DECLINED
                          (lit "Payment was rejected: "
                             ++ string_of_Z (status paidResponse)
                             ++ lit " " ++ text paidResponse) None)
            else ret paidResponse) s)
  = recorded s [Fetch input (method init) hs
                  (fetch env (history s) input (method init) hs)].
Proof.
  unfold bind.
  pose proof (fetchWithTimeout_state input (method init) hs (timeout_of config) s)
    as Hf.
  destruct (fetchWithTimeout env input (method init) hs (timeout_of config) s)
    as [[paid|e] s'']; cbn [snd] in Hf; subst s'';
    [destruct (negb (ok paid))|]; reflexivity.
Qed.

Lemma on_response_calls key response s :
  exists l,
    snd (on_response env wallet config input init key (timeout_of config)
           response s) = recorded s l /\
    (l = [] \/
     status response = 402%Z /\
     ((exists t message out, l = [DateNow t; SignMessage message out]) \/
      (exists t message signature paymentPayload out,
          l = [DateNow t; SignMessage message (Ok signature);
               Fetch input (method init) (paid_headers key paymentPayload)
                 out]))).
Proof.
  assert (Hstop : forall r : result Response,
             exists l, snd (r, s) = recorded s l /\
                       (l = [] \/
                        status response = 402%Z /\
                        ((exists t message out,
                             l = [DateNow t; SignMessage message out]) \/
                         (exists t message signature paymentPayload out,
                             l = [DateNow t; SignMessage message (Ok signature);
                                  Fetch input (method init)
                                    (paid_headers key paymentPayload) out])))).
  { intros r. exists []. split; [now rewrite recorded_nil | now left]. }
  unfold on_response.
  destruct (status response =? 402)%Z eqn:Hstatus; [|apply Hstop].
  apply Z.eqb_eq in Hstatus. cbn [negb].
  destruct (or_else _ _) as [paymentHeader|]; [|apply Hstop].
  unfold bind at 1, lift.
  destruct (parsePaymentRequirements paymentHeader) as [requirements|e];
    [|apply Hstop].
  unfold bind at 1.
  destruct (requiredAmount requirements) as [required|e]; [|apply Hstop].
  destruct (gtb required (maxPayment config)); [apply Hstop|].
  unfold bind at 1.
  destruct (createPaymentPayload_calls requirements key s)
    as [[Hs [e He]]|(t & message & out & Hs & Hok)].
  - destruct (createPaymentPayload env wallet requirements key s) as [[p|e'] s'];
      cbn [fst snd] in *; [discriminate|]. subst s'. apply (Hstop (Throw e')).
  - destruct (createPaymentPayload env wallet requirements key s) as [[p|e'] s'];
      cbn [fst snd] in *; subst s'.
    + destruct (Hok p eq_refl) as [signature ->].
      unfold bind. fold (paid_headers key p).
      pose proof (fetchWithTimeout_state input (method init) (paid_headers key p)
                    (timeout_of config)
                    (recorded s [DateNow t; SignMessage message (Ok signature)]))
        as Hf.
      destruct (fetchWithTimeout env input (method init) (paid_headers key p)
                  (timeout_of config) _) as [[paid|e] s''];
        cbn [snd] in Hf; subst s'';
        [destruct (negb (ok paid))|]; unfold throw, ret; cbn [snd];
        rewrite recorded_recorded;
        (eexists; split; [reflexivity|]; right; split; [exact Hstatus|];
         right; do 5 eexists; reflexivity).
    + eexists. split; [reflexivity|]. right. split; [exact Hstatus|].
      left. do 3 eexists. reflexivity.
Qed.

(** X6. What one call of the wrapper does, whatever the server and the
    wallet answer: it reads the clock at most once to make a key, sends
    its request, and stops there unless the answer is a 402; after a 402
    it reads the clock and asks the wallet for one signature, and only
    with a signature in hand does it send one more request, to the same
    url with the same method, carrying the payment. There is never a
    third request nor a second signature, whatever the answer to the paid
    request. *)
Theorem wrapper_call_pattern (s : State) :
  exists key pre l,
    history (snd (wrapFetchWithPayment env wallet config input init s))
    = history s ++ pre ++ l /\
    (pre = [] \/ exists t, pre = [DateNow t]) /\
    wrapper_calls key l.
Proof.
  destruct (select_idempotencyKey_effects env config input
              (or_default (method init) (lit "GET")) (address_of wallet) s)
    as (key & s1 & Hkey & _ & _).
  assert (Hpre : exists pre, history s1 = history s ++ pre /\
                             (pre = [] \/ exists t, pre = [DateNow t])).
  { revert Hkey. unfold select_idempotencyKey.
    destruct (negb _).
    - intros Hkey.
      destruct (getIdempotencyKey_history env input
                  (or_default (method init) (lit "GET")) (address_of wallet) s)
        as (pre & Hh & Hshape).
      rewrite Hkey in Hh. eauto.
    - unfold generateIdempotencyKey, Date_now, bind, ret. intros [= _ <-].
      cbn [history]. eauto. }
  destruct Hpre as (pre & Hh & Hshape).
  exists key, pre.
  rewrite (wrapper_after_key _ Hkey), snd_try_catch_on_error.
  unfold bind.
  pose proof (fetchWithTimeout_state input (method init) (first_headers key)
                (timeout_of config) s1) as Hf.
  destruct (fetchWithTimeout env input (method init) (first_headers key)
              (timeout_of config) s1) as [[response|e] s2] eqn:F;
    cbn [snd] in Hf; subst s2.
  - assert (Hout : fetch env (history s1) input (method init) (first_headers key)
                   = Ok response).
    { revert F. unfold fetchWithTimeout.
      destruct (fetch env _ _ _ _) as [r|e]; [now intros [= ->]|].
      now destruct (match error_name e with Some _ => _ | None => _ end). }
    rewrite Hout.
    destruct (on_response_calls key response
                (recorded s1 [Fetch input (method init) (first_headers key)
                                (Ok response)]))
      as (l & E & Hl).
    rewrite E, recorded_recorded. cbn [recorded history].
    rewrite Hh, <- !app_assoc. eexists. split; [reflexivity|].
    split; [exact Hshape|].
    destruct Hl as [->|[Hstatus [(t & message & out & ->)
                                |(t & message & signature & p & out & ->)]]];
      cbn [app]; now constructor.
  - cbn [snd recorded history]. rewrite Hh, <- !app_assoc.
    eexists. split; [reflexivity|]. split; [exact Hshape | constructor].
Qed.

(** [(error as Error).name === 'AbortError'] *)
Definition aborted (e : thrown) : bool :=
  match error_name e with
  | Some n => JS.eqb n (lit "AbortError")
  | None => false
  end.

(** What the wrapper's [catch] block makes of a failure that is no
    GanymedeError. *)
Definition wrapped (e : thrown) : thrown :=
  GanymedeError NETWORK_ERROR
    (lit "Payment request failed: "
       ++ match error_message e with
          | Some m => m
          | None => lit "Unknown error"
          end)
    (Some e).

Lemma try_catch_on_error_throw e s :
  e <> Unmodelled ->
  try_catch (throw e) on_error s
  = (Throw (if is_GanymedeError e then e else wrapped e), s).
Proof.
  intros D. unfold try_catch, throw.
  destruct e; try (now rewrite on_error_throws). now destruct D.
Qed.

Lemma try_catch_bind_throw A e (k : A -> M State Response) s :
  try_catch (bind (throw e) k) on_error s = try_catch (throw e) on_error s.
Proof. reflexivity. Qed.

(** X7. When the first request fails, the wrapper gives up at once, with
    one request sent and nothing asked of the wallet. If the request was
    aborted by the timer, the error has code NETWORK_ERROR and the message
    'Request timeout after <n>ms', [n] being [config.timeout] or 30000
    when that is absent or zero; a GanymedeError is passed on as it is;
    any other failure is wrapped into a NETWORK_ERROR 'Payment request
    failed: <message>' that carries it as its cause. *)
Theorem wrapper_reports_failed_request
        (s s1 : State) (key : jsstring) (e : thrown) :
  select_idempotencyKey env config input
    (or_default (method init) (lit "GET")) (address_of wallet) s
  = (Ok key, s1) ->
  fetch env (history s1) input (method init) (first_headers key) = Throw e ->
  e <> Unmodelled ->
  wrapFetchWithPayment env wallet config input init s
  = (Throw (if aborted e
            then GanymedeError NETWORK_ERROR
                   (lit "Request timeout after " ++ toString (timeout_of config)
                      ++ lit "ms") None
            else if is_GanymedeError e then e else wrapped e),
     recorded s1 [Fetch input (method init) (first_headers key) (Throw e)]).
Proof.
  intros Hkey Hfetch D. rewrite (wrapper_after_key _ Hkey), try_catch_bind.
  unfold fetchWithTimeout. rewrite Hfetch. fold (aborted e).
  destruct (aborted e).
  - now rewrite try_catch_on_error_throw.
  - now rewrite try_catch_on_error_throw.
Qed.

(** [response.headers.get('payment-required') ||
     response.headers.get('x-payment-required')] *)
Definition challenge_header (response : Response) : option jsstring :=
  or_else (get (lit "payment-required") (response_headers response))
          (get (lit "x-payment-required") (response_headers response)).


(** X9. After a 402 within the limit, a wallet that cannot sign messages
    makes the wrapper throw WALLET_SIGNING_FAILED, and one that can but
    has no public key WALLET_NOT_CONNECTED (the first request has already
    gone out, under the payer name 'unknown' in that case). The clock is
    not read, the wallet is not called, and no paid request is sent. *)
Theorem wrapper_needs_a_signing_wallet
        (s s1 : State) (key : jsstring) (response : Response)
        (requirements : json) :
  first_response s key s1 response ->
  accepted_challenge response requirements ->
  signMessage wallet = None \/ publicKey wallet = None ->
  wrapFetchWithPayment env wallet config input init s
  = (Throw (match signMessage wallet with
            | None =>
                GanymedeError WALLET_SIGNING_FAILED
                  (lit "Wallet does not support message signing required for x402 payments")
                  None
            | Some _ =>
                GanymedeError WALLET_NOT_CONNECTED
                  (lit "Wallet public key is not available") None
            end),
     recorded s1 [Fetch input (method init) (first_headers key) (Ok response)]).
Proof.
  intros Hfirst Hchallenge Hwallet.
  rewrite (wrapper_after_challenge Hfirst Hchallenge).
  unfold createPaymentPayload.
  destruct (signMessage wallet) as [sign|].
  - destruct Hwallet as [?| ->]; [discriminate|].
    now rewrite try_catch_bind_throw, try_catch_on_error_throw.
  - now rewrite try_catch_bind_throw, try_catch_on_error_throw.
Qed.

(** A wallet that can sign and has a public key, facing requirements
    whose fields can be read. *)
Definition signing_wallet (requirements : json)
           (sign : list event -> bytes -> result bytes) (payer : jsstring)
           (f : claim_fields) : Prop :=
  signMessage wallet = Some sign /\ publicKey wallet = Some payer /\
  read_fields requirements = Ok f.

Lemma createPaymentPayload_run requirements key sign payer f s :
  signing_wallet requirements sign payer f ->
  let t := now env (history s) in
  let message := claim_text f t payer key in
  let out := sign (history s ++ [DateNow t]) (utf8 message) in
  createPaymentPayload env wallet requirements key s
  = (match out with
     | Ok signature =>
         match btoa (stringify (payload_json f message signature payer key)) with
         | Some p => Ok p
         | None => Throw InvalidCharacterError
         end
     | Throw e => Throw e
     end,
     recorded s [DateNow t; SignMessage (utf8 message) out]).
Proof.
  intros (Hsign & Hkey & Hfields). cbv zeta.
  unfold createPaymentPayload. rewrite Hsign, Hkey.
  unfold bind at 1, lift. rewrite Hfields.
  unfold bind at 1, Date_now. unfold bind. cbn [history idempotencyKeys].
  unfold recorded.
  destruct (sign _ _) as [signature|e].
  - destruct (btoa _) as [p|]; unfold ret, throw;
      cbn [history idempotencyKeys]; now rewrite <- app_assoc.
  - cbn [history idempotencyKeys]. now rewrite <- app_assoc.
Qed.

(** X10. When the wallet refuses to sign (its [signMessage] rejects), no
    paid request is sent. The wrapper passes a GanymedeError on and wraps
    any other rejection into NETWORK_ERROR 'Payment request failed:
    <message>' with the rejection as its cause; the call has sent one
    request, read the clock and asked for the one signature. *)
Theorem wrapper_reports_refused_signature
        (s s1 : State) (key : jsstring) (response : Response)
        (requirements : json) (sign : list event -> bytes -> result bytes)
        (payer : jsstring) (f : claim_fields) (e : thrown) :
  first_response s key s1 response ->
  accepted_challenge response requirements ->
  signing_wallet requirements sign payer f ->
  let asked := history s1
                 ++ [Fetch input (method init) (first_headers key) (Ok response)] in
  let t := now env asked in
  let message := utf8 (claim_text f t payer key) in
  sign (asked ++ [DateNow t]) message = Throw e ->
  e <> Unmodelled ->
  wrapFetchWithPayment env wallet config input init s
  = (Throw (if is_GanymedeError e then e else wrapped e),
     recorded s1 [Fetch input (method init) (first_headers key) (Ok response);
                  DateNow t; SignMessage message (Throw e)]).
Proof.
  intros Hfirst Hchallenge Hwallet asked t message Hrefused D.
  rewrite (wrapper_after_challenge Hfirst Hchallenge), try_catch_bind.
  rewrite (createPaymentPayload_run key _ Hwallet). cbv zeta.
  cbn [recorded history]. fold asked. fold t. fold message.
  rewrite Hrefused. rewrite try_catch_on_error_throw by exact D.
  unfold recorded. cbn [history idempotencyKeys]. now rewrite <- app_assoc.
Qed.

Lemma get_other hs k k' v :
  k <> k' -> get k (with_header hs k' v) = get k hs.
Proof. apply map_get_set_other. Qed.

(** X11. When the wallet has signed and the payload is built, the
    wrapper sends the request once more, to the same url with the same
    method: the headers are the caller's with the payload under both
    'payment-signature' and 'x-payment' and the idempotency key of the
    first request under 'x-idempotency-key'. An answer with a status from
    200 to 299 is returned; any other answer, a second 402 included, is
    turned into PAYMENT_DECLINED 'Payment was rejected: <status> <body
    text>' and nothing more is sent. *)
Theorem wrapper_sends_the_signed_payment
        (s s1 s3 : State) (key : jsstring) (response : Response)
        (requirements : json) (paymentPayload : jsstring)
        (paidResponse : Response) :
  first_response s key s1 response ->
  accepted_challenge response requirements ->
  createPaymentPayload env wallet requirements key
    (recorded s1 [Fetch input (method init) (first_headers key) (Ok response)])
  = (Ok paymentPayload, s3) ->
  fetch env (history s3) input (method init) (paid_headers key paymentPayload)
  = Ok paidResponse ->
  wrapFetchWithPayment env wallet config input init s
  = (if ok paidResponse then Ok paidResponse
     else Throw (GanymedeError PAYMENT_DECLINED
                   (lit "Payment was rejected: "
                      ++ string_of_Z (status paidResponse)
                      ++ lit " " ++ text paidResponse) None),
     recorded s3 [Fetch input (method init) (paid_headers key paymentPayload)
                    (Ok paidResponse)]) /\
  get (lit "payment-signature") (paid_headers key paymentPayload)
  = Some paymentPayload /\
  get (lit "x-payment") (paid_headers key paymentPayload)
  = Some paymentPayload /\
  get (lit "x-idempotency-key") (paid_headers key paymentPayload)
  = get (lit "x-idempotency-key") (first_headers key).
Proof.
  intros Hfirst Hchallenge Hpayload Hpaid. split; [|split; [|split]].
  - rewrite (wrapper_after_challenge Hfirst Hchallenge), try_catch_bind.
    rewrite Hpayload. rewrite try_catch_bind. unfold fetchWithTimeout.
    rewrite Hpaid. fold (recorded s3 [Fetch input (method init)
                                        (paid_headers key paymentPayload)
                                        (Ok paidResponse)]).
    destruct (ok paidResponse); cbn [negb].
    + reflexivity.
    + now rewrite try_catch_on_error_throw.
  - unfold paid_headers.
    rewrite get_other by (apply eqb_neq; vm_compute; reflexivity).
    rewrite get_other by (apply eqb_neq; vm_compute; reflexivity).
    apply get_with_header.
  - unfold paid_headers.
    rewrite get_other by (apply eqb_neq; vm_compute; reflexivity).
    apply get_with_header.
  - unfold paid_headers, first_headers. now rewrite !get_with_header.
Qed.

(** X12. A challenge whose amount does not come out as a number (the
    code's [parseInt(amount) / Math.pow(10, decimals)] is NaN: the amount
    has no leading digits, or [asset.decimals] is missing) is not stopped
    by the limit, whatever [config.maxPayment] is: [NaN > maxPayment] is
    false, so the wrapper goes on to read the clock and to ask the wallet
    to sign the authorization. *)
Theorem limit_check_passes_when_amount_is_not_a_number
        (s s1 : State) (key : jsstring) (response : Response)
        (paymentHeader : jsstring) (requirements : json)
        (sign : list event -> bytes -> result bytes) (payer : jsstring)
        (f : claim_fields) :
  first_response s key s1 response ->
  status response = 402%Z ->
  challenge_header response = Some paymentHeader ->
  parsePaymentRequirements paymentHeader = Ok requirements ->
  requiredAmount requirements = Ok NaN ->
  signing_wallet requirements sign payer f ->
  exists t out rest,
    history (snd (wrapFetchWithPayment env wallet config input init s))
    = history s1
        ++ [Fetch input (method init) (first_headers key) (Ok response);
            DateNow t;
            SignMessage (utf8 (claim_text f t payer key)) out]
        ++ rest.
Proof.
  intros Hfirst Hstatus Hheader Hparse Hnan Hwallet.
  assert (Hchallenge : accepted_challenge response requirements).
  { split; [exact Hstatus|]. split; [now exists paymentHeader|].
    exists NaN. split; [exact Hnan | now destruct (maxPayment config)]. }
  rewrite (wrapper_after_challenge Hfirst Hchallenge), snd_try_catch_on_error.
  unfold bind at 1. rewrite (createPaymentPayload_run key _ Hwallet). cbv zeta.
  set (s2 := recorded s1 _).
  set (t := now env (history s2)).
  set (message := claim_text f t payer key).
  set (out := sign _ _).
  exists t, out.
  destruct (match out with Ok _ => _ | Throw e => Throw e end) as [p|e].
  - eexists. cbn [snd]. fold (paid_headers key p).
    rewrite paid_request_state, recorded_recorded. subst s2.
    cbn [recorded history]. rewrite <- !app_assoc. reflexivity.
  - exists []. cbn [snd]. subst s2. cbn [recorded history].
    now rewrite <- !app_assoc.
Qed.

End WrapperRuns.

(** A connected wallet posting to the premium endpoint, against a server
    whose answers to the first and to the paid request are given. *)
Module WrapperScenario.
Import JS Num Base64 Json Err X402Fetch.

Definition payer : jsstring := lit "7xKXtg2CW87d97TXJSDpbD5jBkheTqA83TZRuJosgAsU".
Definition url : jsstring := lit "http://localhost:3001/v1/swap/enhanced".

Definition init : RequestInit :=
  {| method := Some (lit "POST");
     init_headers := [(lit "Content-Type", lit "application/json")] |}.

Definition start : State := {| idempotencyKeys := []; history := [] |}.

Definition key : jsstring :=
  lit "idem_" ++ to_base64url
    (utf8 (payer ++ lit ":http://localhost:3001/v1/swap/enhanced:POST:1700000000000")).

Definition after_key : State :=
  {| idempotencyKeys :=
       [(payer ++ lit ":http://localhost:3001/v1/swap/enhanced:POST", key)];
     history := [DateNow 1700000000000] |}.

Definition config : PaymentConfig :=
  {| maxPayment := parseFloat (lit "0.01"); network := Some (lit "devnet");
     timeout := None; enableIdempotency := None |}.

Definition signature : bytes := repeat 7%N 64.

Definition wallet : Wallet :=
  {| publicKey := Some payer; signMessage := Some (fun _ _ => Ok signature) |}.

Definition watch_only : Wallet := {| publicKey := Some payer; signMessage := None |}.

Definition rejection : thrown :=
  JsError (lit "WalletSignMessageError") (lit "User rejected the request.").

Definition refusing : Wallet :=
  {| publicKey := Some payer; signMessage := Some (fun _ _ => Throw rejection) |}.

Definition answering (first paid : result Response) : Env :=
  {| now := fun h => (1700000000000 + Z.of_nat (List.length h))%Z;
     fetch := fun _ _ _ hs =>
                match get (lit "payment-signature") hs with
                | Some _ => paid
                | None => first
                end |}.

Definition requirements (amount : jsstring) : json :=
  JObj [ (lit "x402Version", JNum (of_Z 1));
         (lit "scheme", JStr (lit "exact"));
         (lit "network", JStr (lit "solana:EtWTRABZaYq6iMfeYKouRu166VU2xqa1"));
         (lit "maxAmountRequired", JStr amount);
         (lit "amount", JStr amount);
         (lit "resource", JStr url);
         (lit "description", JStr (lit "Enhanced swap"));
         (lit "mimeType", JStr (lit "application/json"));
         (lit "payTo", JStr (lit "TestPaymentWallet"));
         (lit "maxTimeoutSeconds", JNum (of_Z 60));
         (lit "asset",
          JObj [ (lit "address",
                  JStr (lit "4zMMC9srt5Ri5X14GAgXhaHii3GnPAEERYPJgZJDncDU"));
                 (lit "decimals", JNum (of_Z 6));
                 (lit "symbol", JStr (lit "USDC")) ]) ].

Definition header (amount : jsstring) : jsstring :=
  to_base64 (stringify (requirements amount)).

Definition challenge (amount : jsstring) : Response :=
  {| status := 402;
     response_headers := [(lit "payment-required", header amount)];
     text := lit "Payment Required" |}.


Definition unavailable : Response :=
  {| status := 503; response_headers := [];
     text := lit "Service Unavailable" |}.

Definition premium : Response :=
  {| status := 200;
     response_headers := [(lit "x-payment-response", lit "dev_1700000000000_4fzyo82mvyr")];
     text := lit "premium" |}.

Definition timer : thrown := JsError (lit "AbortError") (lit "This operation was aborted").

Definition first_request (out : result Response) : event :=
  Fetch url (Some (lit "POST"))
    [(lit "Content-Type", lit "application/json");
     (lit "x-idempotency-key", key)] out.

Definition fields : claim_fields :=
  {| f_scheme := Some (JStr (lit "exact"));
     f_network := Some (JStr (lit "solana:EtWTRABZaYq6iMfeYKouRu166VU2xqa1"));
     f_amount := Some (JStr (lit "5000"));
     f_resource := Some (JStr url);
     f_payTo := Some (JStr (lit "TestPaymentWallet")) |}.

End WrapperScenario.

Lemma wrapper_returns_other_responses_witness :
  X402Fetch.wrapFetchWithPayment
    (WrapperScenario.answering (Err.Ok WrapperScenario.unavailable)
       (Err.Ok WrapperScenario.premium))
    WrapperScenario.wallet WrapperScenario.config WrapperScenario.url
    WrapperScenario.init WrapperScenario.start
  = (Err.Ok WrapperScenario.unavailable,
     recorded WrapperScenario.after_key
       [WrapperScenario.first_request (Err.Ok WrapperScenario.unavailable)]).
Proof.
  apply (@wrapper_returns_other_responses
           (WrapperScenario.answering (Err.Ok WrapperScenario.unavailable)
              (Err.Ok WrapperScenario.premium))
           WrapperScenario.wallet WrapperScenario.config WrapperScenario.url
           WrapperScenario.init WrapperScenario.start WrapperScenario.after_key
           WrapperScenario.key WrapperScenario.unavailable).
  - split; vm_compute; reflexivity.
  - discriminate.
Defined.

Lemma wrapper_throws_only_GanymedeError_witness :
  Err.is_GanymedeError
    (wrapped (Err.JsError (JS.lit "TypeError") (JS.lit "fetch failed"))) = true
  \/ wrapped (Err.JsError (JS.lit "TypeError") (JS.lit "fetch failed"))
     = Err.Unmodelled.
Proof.
  apply (@wrapper_throws_only_GanymedeError
           (WrapperScenario.answering
              (Err.Throw (Err.JsError (JS.lit "TypeError") (JS.lit "fetch failed")))
              (Err.Ok WrapperScenario.premium))
           WrapperScenario.wallet WrapperScenario.config WrapperScenario.url
           WrapperScenario.init WrapperScenario.start).
  vm_compute. reflexivity.
Defined.

Lemma wrapper_reports_failed_request_witness :
  X402Fetch.wrapFetchWithPayment
    (WrapperScenario.answering (Err.Throw WrapperScenario.timer)
       (Err.Ok WrapperScenario.premium))
    WrapperScenario.wallet WrapperScenario.config WrapperScenario.url
    WrapperScenario.init WrapperScenario.start
  = (Err.Throw (Err.GanymedeError Err.NETWORK_ERROR
                  (JS.lit "Request timeout after 30000ms") None),
     recorded WrapperScenario.after_key
       [WrapperScenario.first_request (Err.Throw WrapperScenario.timer)]).
Proof.
  refine (eq_trans
            (@wrapper_reports_failed_request
               (WrapperScenario.answering (Err.Throw WrapperScenario.timer)
                  (Err.Ok WrapperScenario.premium))
               WrapperScenario.wallet WrapperScenario.config WrapperScenario.url
               WrapperScenario.init WrapperScenario.start
               WrapperScenario.after_key WrapperScenario.key
               WrapperScenario.timer _ _ _) _).
  - vm_compute. reflexivity.
  - vm_compute. reflexivity.
  - discriminate.
  - vm_compute. reflexivity.
Defined.


Lemma wrapper_needs_a_signing_wallet_witness :
  X402Fetch.wrapFetchWithPayment
    (WrapperScenario.answering
       (Err.Ok (WrapperScenario.challenge (JS.lit "5000")))
       (Err.Ok WrapperScenario.premium))
    WrapperScenario.watch_only WrapperScenario.config WrapperScenario.url
    WrapperScenario.init WrapperScenario.start
  = (Err.Throw
       (Err.GanymedeError Err.WALLET_SIGNING_FAILED
          (JS.lit "Wallet does not support message signing required for x402 payments")
          None),
     recorded WrapperScenario.after_key
       [WrapperScenario.first_request
          (Err.Ok (WrapperScenario.challenge (JS.lit "5000")))]).
Proof.
  refine (@wrapper_needs_a_signing_wallet
            (WrapperScenario.answering
               (Err.Ok (WrapperScenario.challenge (JS.lit "5000")))
               (Err.Ok WrapperScenario.premium))
            WrapperScenario.watch_only WrapperScenario.config WrapperScenario.url
            WrapperScenario.init WrapperScenario.start
            WrapperScenario.after_key WrapperScenario.key
            (WrapperScenario.challenge (JS.lit "5000"))
            (WrapperScenario.requirements (JS.lit "5000")) _ _ _).
  - split; vm_compute; reflexivity.
  - split; [reflexivity|]. split.
    + exists (WrapperScenario.header (JS.lit "5000")).
      split; vm_compute; reflexivity.
    + exists (Num.div (Num.parseInt (JS.lit "5000")) (Num.pow10 6)).
      split; vm_compute; reflexivity.
  - left. reflexivity.
Defined.

Lemma wrapper_reports_refused_signature_witness :
  X402Fetch.wrapFetchWithPayment
    (WrapperScenario.answering
       (Err.Ok (WrapperScenario.challenge (JS.lit "5000")))
       (Err.Ok WrapperScenario.premium))
    WrapperScenario.refusing WrapperScenario.config WrapperScenario.url
    WrapperScenario.init WrapperScenario.start
  = (Err.Throw
       (Err.GanymedeError Err.NETWORK_ERROR
          (JS.lit "Payment request failed: User rejected the request.")
          (Some WrapperScenario.rejection)),
     recorded WrapperScenario.after_key
       [WrapperScenario.first_request
          (Err.Ok (WrapperScenario.challenge (JS.lit "5000")));
        X402Fetch.DateNow 1700000000002;
        X402Fetch.SignMessage
          (Base64.utf8
             (X402Fetch.claim_text WrapperScenario.fields 1700000000002
                WrapperScenario.payer WrapperScenario.key))
          (Err.Throw WrapperScenario.rejection)]).
Proof.
  refine (eq_trans
            (@wrapper_reports_refused_signature
               (WrapperScenario.answering
                  (Err.Ok (WrapperScenario.challenge (JS.lit "5000")))
                  (Err.Ok WrapperScenario.premium))
               WrapperScenario.refusing WrapperScenario.config
               WrapperScenario.url WrapperScenario.init WrapperScenario.start
               WrapperScenario.after_key WrapperScenario.key
               (WrapperScenario.challenge (JS.lit "5000"))
               (WrapperScenario.requirements (JS.lit "5000"))
               (fun _ _ => Err.Throw WrapperScenario.rejection)
               WrapperScenario.payer WrapperScenario.fields
               WrapperScenario.rejection _ _ _ _ _) _).
  - split; vm_compute; reflexivity.
  - split; [reflexivity|]. split.
    + exists (WrapperScenario.header (JS.lit "5000")).
      split; vm_compute; reflexivity.
    + exists (Num.div (Num.parseInt (JS.lit "5000")) (Num.pow10 6)).
      split; vm_compute; reflexivity.
  - repeat split.
  - reflexivity.
  - discriminate.
  - vm_compute. reflexivity.
Defined.

Lemma wrapper_sends_the_signed_payment_witness :
  exists paymentPayload s3,
    X402Fetch.wrapFetchWithPayment
      (WrapperScenario.answering
         (Err.Ok (WrapperScenario.challenge (JS.lit "5000")))
         (Err.Ok WrapperScenario.premium))
      WrapperScenario.wallet WrapperScenario.config WrapperScenario.url
      WrapperScenario.init WrapperScenario.start
    = (Err.Ok WrapperScenario.premium,
       recorded s3
         [X402Fetch.Fetch WrapperScenario.url (Some (JS.lit "POST"))
            [(JS.lit "Content-Type", JS.lit "application/json");
             (JS.lit "payment-signature", paymentPayload);
             (JS.lit "x-payment", paymentPayload);
             (JS.lit "x-idempotency-key", WrapperScenario.key)]
            (Err.Ok WrapperScenario.premium)]) /\
    signing_calls (X402Fetch.history s3) = 1%nat.
Proof.
  pose (env := WrapperScenario.answering
                 (Err.Ok (WrapperScenario.challenge (JS.lit "5000")))
                 (Err.Ok WrapperScenario.premium)).
  pose (built := X402Fetch.createPaymentPayload env WrapperScenario.wallet
                   (WrapperScenario.requirements (JS.lit "5000"))
                   WrapperScenario.key
                   (recorded WrapperScenario.after_key
                      [WrapperScenario.first_request
                         (Err.Ok (WrapperScenario.challenge (JS.lit "5000")))])).
  pose (paymentPayload :=
          match fst built with Err.Ok p => p | Err.Throw _ => [] end).
  exists paymentPayload, (snd built).
  split; [|vm_compute; reflexivity].
  refine (eq_trans
            (proj1
               (@wrapper_sends_the_signed_payment
                  env WrapperScenario.wallet WrapperScenario.config
                  WrapperScenario.url WrapperScenario.init
                  WrapperScenario.start WrapperScenario.after_key (snd built)
                  WrapperScenario.key
                  (WrapperScenario.challenge (JS.lit "5000"))
                  (WrapperScenario.requirements (JS.lit "5000"))
                  paymentPayload WrapperScenario.premium _ _ _ _)) _).
  - split; vm_compute; reflexivity.
  - split; [reflexivity|]. split.
    + exists (WrapperScenario.header (JS.lit "5000")).
      split; vm_compute; reflexivity.
    + exists (Num.div (Num.parseInt (JS.lit "5000")) (Num.pow10 6)).
      split; vm_compute; reflexivity.
  - vm_compute. reflexivity.
  - vm_compute. reflexivity.
  - vm_compute. reflexivity.
Defined.

Lemma limit_check_passes_when_amount_is_not_a_number_witness :
  exists t out rest,
    X402Fetch.history
      (snd (X402Fetch.wrapFetchWithPayment
              (WrapperScenario.answering
                 (Err.Ok (WrapperScenario.challenge (JS.lit "five")))
                 (Err.Ok WrapperScenario.premium))
              WrapperScenario.wallet WrapperScenario.config WrapperScenario.url
              WrapperScenario.init WrapperScenario.start))
    = X402Fetch.history WrapperScenario.after_key
        ++ [WrapperScenario.first_request
              (Err.Ok (WrapperScenario.challenge (JS.lit "five")));
            X402Fetch.DateNow t;
            X402Fetch.SignMessage
              (Base64.utf8
                 (X402Fetch.claim_text
                    {| X402Fetch.f_scheme := Some (Json.JStr (JS.lit "exact"));
                       X402Fetch.f_network :=
                         Some (Json.JStr
                                 (JS.lit "solana:EtWTRABZaYq6iMfeYKouRu166VU2xqa1"));
                       X402Fetch.f_amount := Some (Json.JStr (JS.lit "five"));
                       X402Fetch.f_resource := Some (Json.JStr WrapperScenario.url);
                       X402Fetch.f_payTo :=
                         Some (Json.JStr (JS.lit "TestPaymentWallet")) |}
                    t WrapperScenario.payer WrapperScenario.key))
              out]
        ++ rest.
Proof.
  apply (@limit_check_passes_when_amount_is_not_a_number
           (WrapperScenario.answering
              (Err.Ok (WrapperScenario.challenge (JS.lit "five")))
              (Err.Ok WrapperScenario.premium))
           WrapperScenario.wallet WrapperScenario.config WrapperScenario.url
           WrapperScenario.init WrapperScenario.start WrapperScenario.after_key
           WrapperScenario.key (WrapperScenario.challenge (JS.lit "five"))
           (WrapperScenario.header (JS.lit "five"))
           (WrapperScenario.requirements (JS.lit "five"))
           (fun _ _ => Err.Ok WrapperScenario.signature)).
  - split; vm_compute; reflexivity.
  - reflexivity.
  - vm_compute. reflexivity.
  - vm_compute. reflexivity.
  - vm_compute. reflexivity.
  - repeat split.
Defined.


(** ** The key registry under the wrapper *)

Section RegistryUnderWrapper.
Import JS Num Base64 Json Err X402Fetch.

Variable env : Env.
Variable wallet : Wallet.
Variable config : PaymentConfig.
Variable input : jsstring.
Variable init : RequestInit.

Local Abbreviation method_ := (or_default (method init) (lit "GET")).
Local Abbreviation call :=
  (wrapFetchWithPayment env wallet config input init).

Lemma select_without_caching s :
  enableIdempotency config = Some false ->
  exists key t,
    select_idempotencyKey env config input method_ (address_of wallet) s
    = (Ok key, recorded s [DateNow t]).
Proof.
  intros Hoff. unfold select_idempotencyKey. rewrite Hoff. cbn [negb].
  unfold generateIdempotencyKey, Date_now, bind, ret.
  eexists _, _. reflexivity.
Qed.

Lemma select_with_caching s :
  enableIdempotency config <> Some false ->
  select_idempotencyKey env config input method_ (address_of wallet) s
  = getIdempotencyKey env input method_ (address_of wallet) s.
Proof.
  intros Hon. unfold select_idempotencyKey.
  destruct (enableIdempotency config) as [[|]|]; try reflexivity.
  now destruct Hon.
Qed.

(** X13. A call of the wrapper never drops or replaces a token of the
    registry, however the call ends (paid, declined, failed): every
    non-empty token stored before the call is stored after it. The key
    the call sends is, with caching on (the default), the one the
    registry holds for (wallet address, url, method) afterwards, so the
    next call for the same three sends it again; with
    [enableIdempotency: false] the registry is left exactly as it
    was. *)
Theorem wrapper_keeps_the_registry (s : State) :
  (forall k v,
      map_get k (idempotencyKeys s) = Some v -> truthy v = true ->
      map_get k (idempotencyKeys (snd (call s))) = Some v) /\
  (exists token,
      sent_key (history s) (history (snd (call s))) = Some token /\
      (enableIdempotency config <> Some false ->
       holds (idempotencyKeys (snd (call s))) input method_
             (address_of wallet) token)) /\
  (enableIdempotency config = Some false ->
   idempotencyKeys (snd (call s)) = idempotencyKeys s).
Proof.
  destruct (select_idempotencyKey_effects env config input method_
              (address_of wallet) s) as (key & s1 & Hkey & _ & _).
  destruct (@wrapper_first_request env wallet config input init s key s1 Hkey)
    as (out & rest & Hh & Hk).
  assert (Hpre : exists pre, history s1 = history s ++ pre /\
                             (pre = [] \/ exists t, pre = [DateNow t])).
  { destruct (enableIdempotency config) as [[|]|] eqn:Hidem.
    - rewrite select_with_caching in Hkey by congruence.
      destruct (getIdempotencyKey_history env input method_ (address_of wallet) s)
        as (pre & Hp & Hshape).
      rewrite Hkey in Hp. eauto.
    - destruct (select_without_caching s Hidem) as (key' & t & E).
      rewrite E in Hkey. injection Hkey as _ <-. cbn [recorded history]. eauto.
    - rewrite select_with_caching in Hkey by congruence.
      destruct (getIdempotencyKey_history env input method_ (address_of wallet) s)
        as (pre & Hp & Hshape).
      rewrite Hkey in Hp. eauto. }
  destruct Hpre as (pre & Hp & Hshape).
  split; [|split].
  - intros k v G T. rewrite Hk.
    destruct (enableIdempotency config) as [[|]|] eqn:Hidem.
    + rewrite select_with_caching in Hkey by congruence.
      pose proof (getIdempotencyKey_keeps env input method_ (address_of wallet)
                    s k G T) as Hkeep.
      now rewrite Hkey in Hkeep.
    + destruct (select_without_caching s Hidem) as (key' & t & E).
      rewrite E in Hkey. injection Hkey as _ <-. exact G.
    + rewrite select_with_caching in Hkey by congruence.
      pose proof (getIdempotencyKey_keeps env input method_ (address_of wallet)
                    s k G T) as Hkeep.
      now rewrite Hkey in Hkeep.
  - exists key. split.
    + rewrite Hh, Hp, <- app_assoc.
      rewrite (sent_key_first _ _ _ _ _ _ Hshape). apply get_with_header.
    + intros Hon. rewrite Hk. rewrite select_with_caching in Hkey by exact Hon.
      destruct (getIdempotencyKey_holds env input method_ (address_of wallet) s)
        as (token & s' & E & Hholds).
      rewrite Hkey in E. now injection E as <- <-.
  - intros Hoff. rewrite Hk.
    destruct (select_without_caching s Hoff) as (key' & t & E).
    rewrite E in Hkey. now injection Hkey as _ <-.
Qed.

End RegistryUnderWrapper.

(** ** Cache slots *)

Section CacheSlots.
Import JS Num Base64 Json Err X402Fetch.

(** The string has no [':']. *)
Definition no_colon (s : jsstring) : Prop := ~ In 58%N s.

Lemma split_at_first (c : N) (a1 a2 r1 r2 : jsstring) :
  ~ In c a1 -> ~ In c a2 ->
  a1 ++ c :: r1 = a2 ++ c :: r2 -> a1 = a2 /\ r1 = r2.
Proof.
  revert a2. induction a1 as [|x a1 IH]; intros [|y a2] H1 H2 E; cbn in E.
  - now injection E.
  - injection E as <- _. destruct H2. now left.
  - injection E as -> _. destruct H1. now left.
  - injection E as <- E. destruct (IH a2) as [-> ->]; auto.
    + intros I. apply H1. now right.
    + intros I. apply H2. now right.
Qed.

Lemma split_at_last (c : N) (a1 a2 r1 r2 : jsstring) :
  ~ In c r1 -> ~ In c r2 ->
  a1 ++ c :: r1 = a2 ++ c :: r2 -> a1 = a2 /\ r1 = r2.
Proof.
  intros H1 H2 E. apply (f_equal (@rev N)) in E.
  rewrite !rev_app_distr in E. cbn [rev] in E. rewrite <- !app_assoc in E.
  cbn [app] in E.
  destruct (@split_at_first c (rev r1) (rev r2) (rev a1) (rev a2)) as [Er Ea];
    try (rewrite <- in_rev; assumption); [exact E|].
  split; [now apply rev_inj | now apply rev_inj].
Qed.

(** X14. The registry keeps one token per (wallet address, url, method):
    when the wallet addresses and the methods contain no [':'] (no base58
    address and no HTTP method does), two requests are stored under the
    same cache key only if they agree in all three, whatever the urls
    are. (The key is the three joined by [':'], so an address or a method
    with a colon in it can collide with another request.) *)
Theorem cache_key_identifies_the_request
        (url1 method1 wallet1 url2 method2 wallet2 : jsstring) :
  no_colon wallet1 -> no_colon wallet2 ->
  no_colon method1 -> no_colon method2 ->
  cacheKey url1 method1 wallet1 = cacheKey url2 method2 wallet2 ->
  wallet1 = wallet2 /\ url1 = url2 /\ method1 = method2.
Proof.
  intros Hw1 Hw2 Hm1 Hm2. unfold cacheKey, colon.
  change (lit ":") with [58%N]. cbn [app].
  intros E. apply split_at_first in E as [-> E]; try assumption.
  apply split_at_last in E as [-> ->]; auto.
Qed.

End CacheSlots.

Lemma cache_key_identifies_the_request_witness :
  JS.lit "7xKXtg2CW87d97TXJSDpbD5jBkheTqA83TZRuJosgAsU"
  = JS.lit "7xKXtg2CW87d97TXJSDpbD5jBkheTqA83TZRuJosgAsU" /\
  JS.lit "http://localhost:3001/v1/swap/enhanced"
  = JS.lit "http://localhost:3001/v1/swap/enhanced" /\
  JS.lit "POST" = JS.lit "POST".
Proof.
  apply (@cache_key_identifies_the_request
           (JS.lit "http://localhost:3001/v1/swap/enhanced") (JS.lit "POST")
           (JS.lit "7xKXtg2CW87d97TXJSDpbD5jBkheTqA83TZRuJosgAsU")
           (JS.lit "http://localhost:3001/v1/swap/enhanced") (JS.lit "POST")
           (JS.lit "7xKXtg2CW87d97TXJSDpbD5jBkheTqA83TZRuJosgAsU"));
    try reflexivity;
    (intros I; vm_compute in I; repeat (destruct I as [I|I]; [discriminate|]);
     exact I).
Defined.


(** ** The verifier and the facilitator *)

Section FacilitatorVerdict.
Import JS Num Base64 Json Err X402Server.

Variable env : Env.
Variable paymentSignature : jsstring.
Variable requirements : PaymentRequirements.
Variable facilitatorUrl : jsstring.

Local Abbreviation verify :=
  (verifyPayment env paymentSignature requirements facilitatorUrl).

(** The header decodes to [payload], whose version is 1 and whose network
    is the requirement's. *)
Definition passes_checks (payload : json) : Prop :=
  decode_payload paymentSignature = Ok payload /\
  (exists version, prop payload (lit "x402Version") = Ok version /\
                   not_one version = false) /\
  prop payload (lit "network") = Ok (Some (JStr (r_network requirements))).

(** The request the verifier sends to the facilitator. *)
Definition verify_url : jsstring := facilitatorUrl ++ lit "/verify".
Definition verify_body (payload : json) : jsstring :=
  stringify (JObj [ (lit "paymentPayload", payload);
                    (lit "paymentRequirements",
                     requirements_json requirements) ]).

(** [process.env.NODE_ENV !== 'production'] *)
Definition relaxed : bool :=
  negb (match NODE_ENV env with
        | Some e => JS.eqb e production
        | None => false
        end).

Lemma relaxed_iff : relaxed = false <-> NODE_ENV env = Some production.
Proof.
  unfold relaxed. destruct (NODE_ENV env) as [e|]; cbn.
  - rewrite negb_false_iff, eqb_eq. split; congruence.
  - split; discriminate.
Qed.

(** What the verifier makes of the facilitator's answer. *)
Definition verdict (out : facilitator_outcome) (h1 : list event)
  : result VerificationResult * list event :=
  match out with
  | Responded true None =>
      (Ok (invalid (lit "Unexpected token in JSON")), h1)
  | Responded true (Some result) =>
      match prop result (lit "valid"), prop result (lit "txHash"),
            prop result (lit "message") with
      | Ok v, Ok t, Ok m => (Ok {| valid := v; txHash := t; error := m |}, h1)
      | _, _, _ =>
          (Ok (invalid (lit "Cannot read properties of undefined")), h1)
      end
  | _ =>
      if relaxed
      then let t := now env h1 in
           let r := random36 env (h1 ++ [DateNow t]) in
           (Ok {| valid := Some (JBool true);
                  txHash := Some (JStr (dev_txHash t r));
                  error := None |},
            (h1 ++ [DateNow t]) ++ [MathRandom r])
      else (Ok (invalid (lit "Facilitator unavailable")), h1)
  end.

Lemma verifyPayment_after_checks payload h :
  passes_checks payload ->
  let out := facilitator env h verify_url (verify_body payload) in
  verify h
  = verdict out (h ++ [FacilitatorCall verify_url (verify_body payload) out]).
Proof.
  intros (D & (version & V & N1) & Nw). cbv zeta.
  assert (N2 : not_string (Some (JStr (r_network requirements)))
                 (r_network requirements) = false)
    by (now apply not_string_false_iff).
  unfold verifyPayment, try_catch, bind, lift.
  rewrite D, V, N1, Nw, N2. fold verify_url. fold (verify_body payload).
  unfold verdict. fold relaxed.
  destruct (facilitator env h verify_url (verify_body payload))
    as [|[|] [result|]].
  - destruct relaxed; reflexivity.
  - destruct result; reflexivity.
  - reflexivity.
  - destruct relaxed; reflexivity.
  - destruct relaxed; reflexivity.
Qed.

(** X15. For a payload that passes the version and network checks, the
    facilitator is asked once, at [<facilitatorUrl>/verify], and its
    answer decides. An answer with an ok status and a JSON object is
    returned as the verdict as it is ([valid], [txHash], and [message]
    as the error), in production and outside it. An answer with any
    other status is treated like no answer at all: in production the
    verdict is [valid: false] 'Facilitator unavailable'; outside
    production the payment is accepted under a 'dev_' id. *)
Theorem verifyPayment_follows_the_facilitator (payload : json) (h : list event) :
  passes_checks payload ->
  let out := facilitator env h verify_url (verify_body payload) in
  let h1 := h ++ [FacilitatorCall verify_url (verify_body payload) out] in
  (forall result v t m,
      out = Responded true (Some result) ->
      prop result (lit "valid") = Ok v ->
      prop result (lit "txHash") = Ok t ->
      prop result (lit "message") = Ok m ->
      verify h = (Ok {| valid := v; txHash := t; error := m |}, h1)) /\
  (forall body,
      out = Responded false body ->
      NODE_ENV env = Some production ->
      verify h = (Ok (invalid (lit "Facilitator unavailable")), h1)) /\
  (forall body,
      out = Responded false body ->
      NODE_ENV env <> Some production ->
      exists t r,
        verify h
        = (Ok {| valid := Some (JBool true);
                 txHash := Some (JStr (dev_txHash t r));
                 error := None |},
           h1 ++ [DateNow t; MathRandom r])).
Proof.
  intros Hchecks out h1.
  pose proof (verifyPayment_after_checks h Hchecks) as E. cbv zeta in E.
  fold out in E. fold h1 in E. rewrite E. clear E.
  split; [|split].
  - intros result v t m -> Hv Ht Hm. cbn [verdict]. now rewrite Hv, Ht, Hm.
  - intros body -> Hprod. apply relaxed_iff in Hprod.
    unfold verdict. now rewrite Hprod.
  - intros body -> Hdev. unfold verdict.
    destruct relaxed eqn:R; [|now apply relaxed_iff in R].
    eexists _, _. now rewrite <- app_assoc.
Qed.

(** In production a verdict with a truthy [valid] comes from the
    facilitator. *)
Lemma production_verdict h v h' :
  NODE_ENV env = Some production ->
  verify h = (Ok v, h') ->
  truthy (valid v) = true ->
  exists payload result,
    passes_checks payload /\
    facilitator env h verify_url (verify_body payload)
    = Responded true (Some result) /\
    h' = h ++ [FacilitatorCall verify_url (verify_body payload)
                 (Responded true (Some result))] /\
    prop result (lit "valid") = Ok (valid v) /\
    prop result (lit "txHash") = Ok (txHash v).
Proof.
  intros Hprod. apply relaxed_iff in Hprod.
  destruct (decode_payload paymentSignature) as [payload|e] eqn:D.
  2:{ unfold verifyPayment, try_catch, bind, lift. rewrite D.
      destruct e; intros [= <- <-]; discriminate. }
  destruct (prop payload (lit "x402Version")) as [version|e] eqn:V.
  2:{ unfold verifyPayment, try_catch, bind, lift. rewrite D, V.
      destruct e; intros [= <- <-]; discriminate. }
  destruct (not_one version) eqn:N1.
  1:{ unfold verifyPayment, try_catch, bind, lift. rewrite D, V, N1.
      intros [= <- <-]; discriminate. }
  destruct (prop payload (lit "network")) as [net|e] eqn:Nw.
  2:{ unfold verifyPayment, try_catch, bind, lift. rewrite D, V, N1, Nw.
      destruct e; intros [= <- <-]; discriminate. }
  destruct (not_string net (r_network requirements)) eqn:N2.
  1:{ unfold verifyPayment, try_catch, bind, lift. rewrite D, V, N1, Nw, N2.
      intros [= <- <-]; discriminate. }
  apply not_string_false_iff in N2. subst net.
  assert (Hchecks : passes_checks payload).
  { split; [exact D|]. split; [now exists version | exact Nw]. }
  rewrite (verifyPayment_after_checks h Hchecks).
  destruct (facilitator env h verify_url (verify_body payload))
    as [|[|] [result|]] eqn:F; unfold verdict; rewrite ?Hprod;
    try (intros [= <- <-]; discriminate).
  destruct (prop result (lit "valid")) as [v0|] eqn:Hv;
    [|intros [= <- <-]; discriminate].
  destruct (prop result (lit "txHash")) as [t0|] eqn:Ht;
    [|intros [= <- <-]; discriminate].
  destruct (prop result (lit "message")) as [m0|] eqn:Hm;
    [|intros [= <- <-]; discriminate].
  intros [= <- <-] _. exists payload, result. cbn [valid txHash]. auto.
Qed.

End FacilitatorVerdict.

(** ** The middleware as a gate *)

Section MiddlewareGate.
Import JS Num Base64 Json Err X402Server.

Variable env : Env.
Variable payTo : jsstring.
Variable pricing : list (jsstring * PricingConfig).
Variable facilitatorUrl : jsstring.
Variable req : Request.

Local Abbreviation handle :=
  (paymentMiddleware env payTo pricing facilitatorUrl req).

(** [`${req.method} ${req.path}`] *)
Definition routeKey : jsstring := method req ++ lit " " ++ path req.

(** [req.headers['payment-signature'] || req.headers['x-payment']] *)
Definition payment_header : option jsstring :=
  JS.or_else (lookup (lit "payment-signature") (headers req))
             (lookup (lit "x-payment") (headers req)).

(** X16. The middleware charges by exact match: a request whose
    [METHOD path] string is not literally a key of the pricing table is
    handed to the next handler at once, with no challenge and no
    verification, whether or not it carries a payment header; and this is
    the only way a request gets through with no payment attached. So a
    path that differs from a priced one by letter case or by a trailing
    slash is not charged. *)
Theorem unpriced_requests_pass_unverified (h : list event) :
  (lookup routeKey pricing = None -> handle h = (Ok PassThrough, h)) /\
  (fst (handle h) = Ok PassThrough -> lookup routeKey pricing = None).
Proof.
  unfold paymentMiddleware. fold routeKey.
  destruct (lookup routeKey pricing) as [config|]; split;
    try reflexivity; try discriminate.
  destruct (or_else (lookup (network config) USDC_ADDRESSES) None)
    as [usdcAddress|]; [|discriminate].
  fold payment_header. destruct payment_header as [paymentSignature|].
  - unfold bind.
    destruct (verifyPayment_returns env paymentSignature
                (build_requirements payTo config usdcAddress req)
                facilitatorUrl h) as (v & h' & ->).
    destruct (negb (truthy (valid v))); discriminate.
  - destruct (encode_requirements _); discriminate.
Qed.

(** X17. In production, a request to a priced route reaches the route's
    handler only with the facilitator's approval: when the middleware
    attaches a payment and calls [next()], the request carried a payment
    header that passed the version and network checks, the facilitator
    was asked once and answered with an ok status and a truthy [valid],
    and the amount attached is the route's price in atomic units. *)
Theorem production_needs_facilitator_approval
        (h h' : list event) (paid : option json) (amount : jsstring) :
  NODE_ENV env = Some production ->
  handle h = (Ok (Verified paid amount), h') ->
  exists config usdcAddress paymentSignature payload result approved,
    lookup routeKey pricing = Some config /\
    payment_header = Some paymentSignature /\
    passes_checks paymentSignature
      (build_requirements payTo config usdcAddress req) payload /\
    h' = h ++ [FacilitatorCall (facilitatorUrl ++ lit "/verify")
                 (verify_body
                    (build_requirements payTo config usdcAddress req) payload)
                 (Responded true (Some result))] /\
    prop result (lit "valid") = Ok approved /\ truthy approved = true /\
    prop result (lit "txHash") = Ok paid /\
    amount = parsePrice (price config) 6.
Proof.
  intros Hprod. unfold paymentMiddleware. fold routeKey.
  destruct (lookup routeKey pricing) as [config|]; [|discriminate].
  destruct (or_else (lookup (network config) USDC_ADDRESSES) None)
    as [usdcAddress|]; [|discriminate].
  fold payment_header. destruct payment_header as [paymentSignature|].
  2:{ destruct (encode_requirements _); discriminate. }
  unfold bind.
  destruct (verifyPayment env paymentSignature
              (build_requirements payTo config usdcAddress req)
              facilitatorUrl h) as [[v|e] h1] eqn:Hverify; [|discriminate].
  destruct (truthy (valid v)) eqn:Hvalid; cbn [negb]; [|discriminate].
  unfold ret. intros [= <- <- <-].
  destruct (@production_verdict env paymentSignature
              (build_requirements payTo config usdcAddress req) facilitatorUrl
              h v h1 Hprod Hverify Hvalid)
    as (payload & result & Hchecks & _ & Hh & Hv & Ht).
  exists config, usdcAddress, paymentSignature, payload, result, (valid v).
  split; [reflexivity|]. split; [reflexivity|]. split; [exact Hchecks|].
  split; [exact Hh|]. split; [exact Hv|]. split; [exact Hvalid|].
  split; [exact Ht | reflexivity].
Qed.

End MiddlewareGate.

(** The premium route in production, a request that carries a payment
    header, and a facilitator that approves, or answers with an error
    status. *)
Module ProductionScenario.
Import JS Num Base64 Json Err X402Server.

Definition devnet : jsstring := lit "solana:EtWTRABZaYq6iMfeYKouRu166VU2xqa1".

Definition payload : json :=
  JObj [ (lit "x402Version", JNum (of_Z 1));
         (lit "scheme", JStr (lit "exact"));
         (lit "network", JStr devnet);
         (lit "payload", JObj []) ].

Definition paymentSignature : jsstring := to_base64 (stringify payload).

Definition config : PricingConfig :=
  {| price := lit "$0.005"; network := devnet;
     description := lit "Enhanced swap"; mimeType := None |}.

Definition pricing : list (jsstring * PricingConfig) :=
  [(lit "POST /v1/swap/enhanced", config)].

Definition request : Request :=
  {| method := lit "POST"; path := lit "/v1/swap/enhanced";
     protocol := lit "http"; host := Some (lit "localhost:3001");
     originalUrl := lit "/v1/swap/enhanced";
     headers := [(lit "payment-signature", paymentSignature)] |}.

Definition payTo : jsstring := lit "TestPaymentWallet".
Definition usdc : jsstring := lit "4zMMC9srt5Ri5X14GAgXhaHii3GnPAEERYPJgZJDncDU".
Definition requirements : PaymentRequirements :=
  build_requirements payTo config usdc request.

Definition settled : jsstring :=
  lit "3GkHvb2JqyvPzTSXRbBcqvYrqTnsyJddWPuJ1XJoYbK8sLbiKmJsHRmrxyB2jTqkqTkzMm4kP7uXQn2J3ZZnTt6v".

Definition approval : json :=
  JObj [ (lit "valid", JBool true); (lit "txHash", JStr settled) ].

Definition facilitatorUrl : jsstring := lit "https://x402.org/facilitator".

Definition env (answer : facilitator_outcome) (mode : jsstring) : Env :=
  {| facilitator := fun _ _ _ => answer;
     NODE_ENV := Some mode;
     now := fun _ => 1700000000000%Z;
     random36 := fun _ => lit "0.4fzyo82mvyr" |}.

Definition call (answer : facilitator_outcome) : event :=
  FacilitatorCall (lit "https://x402.org/facilitator/verify")
    (verify_body requirements payload) answer.

End ProductionScenario.

Lemma verifyPayment_follows_the_facilitator_witness :
  exists t r,
    X402Server.verifyPayment
      (ProductionScenario.env
         (X402Server.Responded false None) (JS.lit "development"))
      ProductionScenario.paymentSignature ProductionScenario.requirements
      ProductionScenario.facilitatorUrl []
    = (Err.Ok {| X402Server.valid := Some (Json.JBool true);
                 X402Server.txHash :=
                   Some (Json.JStr (X402Server.dev_txHash t r));
                 X402Server.error := None |},
       ([] ++ [ProductionScenario.call (X402Server.Responded false None)])
         ++ [X402Server.DateNow t; X402Server.MathRandom r]).
Proof.
  refine (proj2 (proj2
            (@verifyPayment_follows_the_facilitator
               (ProductionScenario.env
                  (X402Server.Responded false None) (JS.lit "development"))
               ProductionScenario.paymentSignature
               ProductionScenario.requirements
               ProductionScenario.facilitatorUrl
               ProductionScenario.payload [] _)) None _ _).
  - split; [vm_compute; reflexivity|]. split.
    + exists (Some (Json.JNum (Num.of_Z 1))). split; vm_compute; reflexivity.
    + vm_compute. reflexivity.
  - reflexivity.
  - intros E. apply (f_equal (option_map (@List.length N))) in E.
    vm_compute in E. discriminate.
Defined.

Lemma production_needs_facilitator_approval_witness :
  exists config usdcAddress paymentSignature payload result approved,
    X402Server.lookup (routeKey ProductionScenario.request)
      ProductionScenario.pricing = Some config /\
    payment_header ProductionScenario.request = Some paymentSignature /\
    passes_checks paymentSignature
      (X402Server.build_requirements ProductionScenario.payTo config
         usdcAddress ProductionScenario.request) payload /\
    [ProductionScenario.call
       (X402Server.Responded true (Some ProductionScenario.approval))]
    = [] ++ [X402Server.FacilitatorCall
               (ProductionScenario.facilitatorUrl ++ JS.lit "/verify")
               (verify_body
                  (X402Server.build_requirements ProductionScenario.payTo
                     config usdcAddress ProductionScenario.request) payload)
               (X402Server.Responded true (Some result))] /\
    X402Server.prop result (JS.lit "valid") = Err.Ok approved /\
    X402Server.truthy approved = true /\
    X402Server.prop result (JS.lit "txHash")
    = Err.Ok (Some (Json.JStr ProductionScenario.settled)) /\
    JS.lit "5000" = X402Server.parsePrice (X402Server.price config) 6.
Proof.
  apply (@production_needs_facilitator_approval
           (ProductionScenario.env
              (X402Server.Responded true (Some ProductionScenario.approval))
              (JS.lit "production"))
           ProductionScenario.payTo ProductionScenario.pricing
           ProductionScenario.facilitatorUrl ProductionScenario.request
           []
           [ProductionScenario.call
              (X402Server.Responded true (Some ProductionScenario.approval))]
           (Some (Json.JStr ProductionScenario.settled)) (JS.lit "5000")).
  - reflexivity.
  - vm_compute. reflexivity.
Defined.


(** ** The SDK's payload against the server's checks *)

Section Latin1Values.
Import JS Num Base64 Json.
Local Open Scope N_scope.

(** Values whose strings and member names are Latin-1, whatever their
    numbers. *)
Fixpoint latin1_value (v : json) : Prop :=
  match v with
  | JStr s => latin1 s
  | JArr l =>
      (fix all (l : list json) : Prop :=
         match l with
         | [] => True
         | x :: r => latin1_value x /\ all r
         end) l
  | JObj m =>
      (fix all (m : list (jsstring * json)) : Prop :=
         match m with
         | [] => True
         | kv :: r => (latin1 (fst kv) /\ latin1_value (snd kv)) /\ all r
         end) m
  | _ => True
  end.

Lemma latin1_value_array l : latin1_value (JArr l) <-> Forall latin1_value l.
Proof.
  cbn [latin1_value]. induction l as [|x r IH].
  - split; auto.
  - rewrite IH. split; [intros [? ?]; now constructor|].
    intros H. inversion H; subst. auto.
Qed.

Lemma latin1_value_object m :
  latin1_value (JObj m)
  <-> Forall (fun kv => latin1 (fst kv) /\ latin1_value (snd kv)) m.
Proof.
  cbn [latin1_value]. induction m as [|kv r IH].
  - split; auto.
  - rewrite IH. split; [intros [? ?]; now constructor|].
    intros H. inversion H; subst. auto.
Qed.

Lemma printable_latin1_value v : printable v -> latin1_value v.
Proof.
  induction v as [|b|x|s|l IH|m IH] using json_induction; intros Hp;
    try exact I; try exact Hp.
  - apply latin1_value_array. apply printable_array in Hp.
    induction IH as [|x l Hx _ IHl]; [constructor|].
    inversion Hp; subst. constructor; auto.
  - apply latin1_value_object. apply printable_object in Hp as [_ Hp].
    induction IH as [|kv m Hx _ IHm]; [constructor|].
    inversion Hp as [|? ? [Hk Px] Pm]; subst. constructor; auto.
Qed.

Lemma latin1_stringify_number x : latin1 (stringify_number x).
Proof.
  destruct x as [sg|sg| |sg m e]; try reflexivity.
  apply (latin1_toString (S754_finite sg m e)).
Qed.

(** The text of such a value is text that [btoa] accepts. *)
Lemma latin1_stringify_value v : latin1_value v -> latin1 (stringify v).
Proof.
  induction v as [|b|x|s|l IH|m IH] using json_induction; intros Hp.
  - reflexivity.
  - destruct b; reflexivity.
  - apply latin1_stringify_number.
  - now apply latin1_quote.
  - rewrite stringify_array. apply latin1_value_array in Hp.
    apply latin1_cons. split; [lia|]. apply latin1_app. split; [|reflexivity].
    induction IH as [|x l Hx _ IHl]; [reflexivity|].
    inversion Hp; subst.
    destruct l as [|y l]; [cbn [elements_text]; auto|].
    rewrite elements_text_cons. apply latin1_app. split; [auto|].
    apply latin1_cons. split; [lia | auto].
  - rewrite stringify_object. apply latin1_value_object in Hp.
    apply latin1_cons. split; [lia|]. apply latin1_app. split; [|reflexivity].
    induction IH as [|[k x] m Hx _ IHm]; [reflexivity|].
    inversion Hp as [|? ? [Hk Px] Pm]; subst. cbn [fst snd] in *.
    destruct m as [|kv m].
    + cbn [members_text]. apply latin1_app. split; [now apply latin1_quote|].
      apply latin1_cons. split; [lia | auto].
    + rewrite members_text_cons. apply latin1_app.
      split; [now apply latin1_quote|].
      apply latin1_cons. split; [lia|]. apply latin1_app. split; [auto|].
      apply latin1_cons. split; [lia | auto].
Qed.

(** Base64 text is ASCII, whatever the bytes. *)
Lemma latin1_symbol alpha i :
  latin1 alpha -> nth i alpha 0 <= 255.
Proof.
  intros L. destruct (nth_in_or_default i alpha 0) as [Hin| ->]; [|lia].
  apply latin1_forall in L. rewrite Forall_forall in L. now apply L.
Qed.

Lemma latin1_encode alpha pad bs : latin1 alpha -> latin1 (encode alpha pad bs).
Proof.
  intros L. induction bs as [|a|a b|a b c l IH] using list_ind3.
  - reflexivity.
  - cbn [encode].
    repeat (apply latin1_cons; split; [now apply latin1_symbol|]).
    destruct pad; reflexivity.
  - cbn [encode].
    repeat (apply latin1_cons; split; [now apply latin1_symbol|]).
    destruct pad; reflexivity.
  - change (encode alpha pad (a :: b :: c :: l))
      with (nth (N.to_nat (a / 4)) alpha 0
              :: nth (N.to_nat ((a mod 4) * 16 + b / 16)) alpha 0
              :: nth (N.to_nat ((b mod 16) * 4 + c / 64)) alpha 0
              :: nth (N.to_nat (c mod 64)) alpha 0 :: encode alpha pad l).
    repeat (apply latin1_cons; split; [now apply latin1_symbol|]).
    exact IH.
Qed.

Lemma latin1_to_base64 bs : latin1 (to_base64 bs).
Proof. apply latin1_encode. reflexivity. Qed.

End Latin1Values.

Section EndToEnd.
Import JS Num Base64 Json Err.

Variable payTo : jsstring.
Variable config : X402Server.PricingConfig.
Variable usdcAddress : jsstring.
Variable req : X402Server.Request.

(** The strings of the route's configuration and of the request are
    Latin-1, so that the issuer has a challenge header to send. *)
Definition latin1_route : Prop :=
  latin1 payTo /\ latin1 (X402Server.network config) /\
  latin1 (X402Server.description config) /\
  (forall m, X402Server.mimeType config = Some m -> latin1 m) /\
  latin1 (X402Server.protocol req) /\
  (forall h, X402Server.host req = Some h -> latin1 h) /\
  latin1 (X402Server.originalUrl req) /\ latin1 usdcAddress.

Local Abbreviation requirements :=
  (X402Server.build_requirements payTo config usdcAddress req).

(** What the client reads from the issuer's requirement. *)
Definition issued_fields : X402Fetch.claim_fields :=
  {| X402Fetch.f_scheme := Some (JStr (lit "exact"));
     X402Fetch.f_network := Some (JStr (X402Server.network config));
     X402Fetch.f_amount :=
       Some (JStr (X402Server.parsePrice (X402Server.price config) 6));
     X402Fetch.f_resource := Some (JStr (X402Server.r_resource requirements));
     X402Fetch.f_payTo := Some (JStr payTo) |}.

Lemma read_issued_fields :
  X402Fetch.read_fields (X402Server.requirements_json requirements)
  = Ok issued_fields.
Proof. reflexivity. Qed.

Lemma latin1_resource :
  latin1_route -> latin1 (X402Server.r_resource requirements).
Proof.
  intros (_ & _ & _ & _ & Hproto & Hhost & Hurl & _).
  cbn [X402Server.build_requirements X402Server.r_resource].
  repeat (apply latin1_app; split); try assumption; try reflexivity.
  destruct (X402Server.host req) as [h|]; [now apply Hhost | reflexivity].
Qed.

Lemma latin1_claim_text t payer key :
  latin1_route -> latin1 payer -> latin1 key ->
  latin1 (X402Fetch.claim_text issued_fields t payer key).
Proof.
  intros Hroute Hpayer Hkey. pose proof (latin1_resource Hroute) as Hres.
  destruct Hroute as (HpayTo & Hnet & _).
  unfold X402Fetch.claim_text. apply latin1_stringify_value.
  cbn [issued_fields X402Fetch.f_scheme X402Fetch.f_network X402Fetch.f_amount
         X402Fetch.f_resource X402Fetch.f_payTo object].
  apply latin1_value_object.
  repeat (apply Forall_cons; [split; [reflexivity|]; cbn [snd latin1_value]|]);
    try apply Forall_nil; try assumption; try exact I;
    try apply latin1_parsePrice; reflexivity.
Qed.

Lemma payload_printable message signature payer key :
  latin1_route -> latin1 message -> latin1 payer -> latin1 key ->
  printable (X402Fetch.payload_json issued_fields message signature payer key).
Proof.
  intros (_ & Hnet & _) Hmessage Hpayer Hkey.
  unfold X402Fetch.payload_json.
  cbn [issued_fields X402Fetch.f_scheme X402Fetch.f_network object].
  apply printable_object. split; [apply distinct_NoDup; reflexivity|].
  repeat (apply Forall_cons; [split; [reflexivity|]; cbn [snd printable]|]);
    try apply Forall_nil; try assumption; try apply number_ok_1;
    try reflexivity.
  change (printable (JObj [ (lit "message", JStr message);
                            (lit "signature", JStr (to_base64 signature));
                            (lit "publicKey", JStr payer);
                            (lit "idempotencyKey", JStr key) ])).
  apply printable_object. split; [apply distinct_NoDup; reflexivity|].
  repeat (apply Forall_cons; [split; [reflexivity|]; cbn [snd printable]|]);
    try apply Forall_nil; try assumption.
  apply latin1_to_base64.
Qed.

(** X18. The payload the SDK builds for the server's own challenge passes
    the server's checks. When the strings of the route and of the request
    are Latin-1 (so that there is a challenge to answer), and so are the
    wallet's address and the idempotency key (base58 and base64url text
    are), every payload [createPaymentPayload] returns for the issuer's
    requirement is decoded by the verifier to an object with protocol
    version 1 and the route's network: the verifier answers neither
    'Invalid x402 version' nor 'Network mismatch' but goes on to the
    facilitator; and outside production, with no facilitator to reach,
    the payment is accepted. *)
Theorem sdk_payload_passes_the_server_checks
        (cenv : X402Fetch.Env) (wallet : X402Fetch.Wallet)
        (key paymentPayload : jsstring) (s s' : X402Fetch.State) :
  latin1_route ->
  latin1 key ->
  (forall payer, X402Fetch.publicKey wallet = Some payer -> latin1 payer) ->
  X402Fetch.createPaymentPayload cenv wallet
    (X402Server.requirements_json requirements) key s
  = (Ok paymentPayload, s') ->
  exists payload,
    passes_checks paymentPayload requirements payload /\
    forall (senv : X402Server.Env) (facilitatorUrl : jsstring)
           (h : list X402Server.event),
      X402Server.facilitator senv h (verify_url facilitatorUrl)
        (verify_body requirements payload) = X402Server.Unreachable ->
      X402Server.NODE_ENV senv <> Some X402Server.production ->
      exists t r rest,
        X402Server.verifyPayment senv paymentPayload requirements
          facilitatorUrl h
        = (Ok {| X402Server.valid := Some (JBool true);
                 X402Server.txHash :=
                   Some (JStr (X402Server.dev_txHash t r));
                 X402Server.error := None |},
           h ++ X402Server.FacilitatorCall (verify_url facilitatorUrl)
                  (verify_body requirements payload) X402Server.Unreachable
                :: rest).
Proof.
  intros Hroute Hkey Hpayer Hbuilt.
  destruct (createPaymentPayload_ok _ _ _ _ _ Hbuilt)
    as (payer & f & signature & Hpk & Hf & Hrun).
  cbv zeta in Hrun. destruct Hrun as [_ Hb].
  rewrite read_issued_fields in Hf. injection Hf as <-.
  specialize (Hpayer payer Hpk).
  set (t := X402Fetch.now cenv (X402Fetch.history s)) in *.
  set (message := X402Fetch.claim_text issued_fields t payer key) in *.
  assert (Hmessage : latin1 message) by now apply latin1_claim_text.
  set (payload := X402Fetch.payload_json issued_fields message signature payer
                    key) in *.
  assert (Hp : printable payload) by now apply payload_printable.
  destruct (atob_btoa (@latin1_stringify payload Hp)) as [Hb' Ha].
  rewrite Hb' in Hb.
  apply (f_equal (fun o => match o with Some x => x | None => [] end)) in Hb.
  change (to_base64 (stringify payload) = paymentPayload) in Hb.
  subst paymentPayload.
  exists payload.
  assert (Hchecks : passes_checks (to_base64 (stringify payload)) requirements
                      payload).
  { split; [|split].
    - unfold X402Server.decode_payload. rewrite Ha.
      now rewrite (@parse_stringify payload Hp).
    - exists (Some (JNum (of_Z 1))). split; [reflexivity|].
      vm_compute. reflexivity.
    - reflexivity. }
  split; [exact Hchecks|].
  intros senv facilitatorUrl h Hout Hdev.
  rewrite (verifyPayment_after_checks senv facilitatorUrl h Hchecks).
  rewrite Hout. unfold verdict.
  destruct (relaxed senv) eqn:R; [|now apply relaxed_iff in R].
  eexists _, _, _. rewrite <- !app_assoc. reflexivity.
Qed.

End EndToEnd.

(** The wallet of the wrapper scenario paying the premium route. *)
Module EndToEndScenario.
Import JS Num Base64 Json Err.

Definition requirements : X402Server.PaymentRequirements :=
  X402Server.build_requirements ProductionScenario.payTo
    ProductionScenario.config ProductionScenario.usdc
    ProductionScenario.request.

Definition clock : X402Fetch.Env :=
  WrapperScenario.answering (Ok WrapperScenario.premium)
    (Ok WrapperScenario.premium).

Definition built : result jsstring * X402Fetch.State :=
  X402Fetch.createPaymentPayload clock WrapperScenario.wallet
    (X402Server.requirements_json requirements) WrapperScenario.key
    WrapperScenario.after_key.

Definition paymentPayload : jsstring :=
  match fst built with Ok p => p | Throw _ => [] end.

End EndToEndScenario.

Lemma sdk_payload_passes_the_server_checks_witness :
  exists payload,
    passes_checks EndToEndScenario.paymentPayload
      EndToEndScenario.requirements payload /\
    forall (senv : X402Server.Env) (facilitatorUrl : JS.jsstring)
           (h : list X402Server.event),
      X402Server.facilitator senv h (verify_url facilitatorUrl)
        (verify_body EndToEndScenario.requirements payload)
      = X402Server.Unreachable ->
      X402Server.NODE_ENV senv <> Some X402Server.production ->
      exists t r rest,
        X402Server.verifyPayment senv EndToEndScenario.paymentPayload
          EndToEndScenario.requirements facilitatorUrl h
        = (Err.Ok {| X402Server.valid := Some (Json.JBool true);
                     X402Server.txHash :=
                       Some (Json.JStr (X402Server.dev_txHash t r));
                     X402Server.error := None |},
           h ++ X402Server.FacilitatorCall (verify_url facilitatorUrl)
                  (verify_body EndToEndScenario.requirements payload)
                  X402Server.Unreachable
                :: rest).
Proof.
  apply (@sdk_payload_passes_the_server_checks
           ProductionScenario.payTo ProductionScenario.config
           ProductionScenario.usdc ProductionScenario.request
           EndToEndScenario.clock WrapperScenario.wallet WrapperScenario.key
           EndToEndScenario.paymentPayload WrapperScenario.after_key
           (snd EndToEndScenario.built)).
  - repeat split; try reflexivity; intros x; cbn; intros [= <-]; reflexivity.
  - reflexivity.
  - intros payer. cbn. intros [= <-]. reflexivity.
  - vm_compute. reflexivity.
Defined.


(** ** Wallet checks *)

Section WalletChecks.
Import JS Base64 Err WalletUtils.

(** X19. The three validations agree with the connection state that
    [getWalletConnectionState] reports. [validateWallet] succeeds exactly
    when the wallet is connected and has a public key;
    [validateWalletForTransaction] and [validateWalletForPayment] exactly
    when it can, besides, sign transactions, respectively messages. A
    wallet that is not connected or has no key is reported as
    WALLET_NOT_CONNECTED whether or not it can sign, and only a connected
    wallet with a key that cannot sign as WALLET_SIGNING_FAILED. After
    [validateWallet], [getWalletAddress] returns the key. *)
Theorem validation_agrees_with_connection_state (wallet : WalletAdapter) :
  let state := getWalletConnectionState wallet in
  let ready := state_connected state && publicKeyAvailable state in
  (validateWallet wallet = Ok tt <-> ready = true) /\
  (validateWalletForTransaction wallet = Ok tt
   <-> ready && canSignTransaction state = true) /\
  (validateWalletForPayment wallet = Ok tt
   <-> ready && canSignMessage state = true) /\
  (ready = false ->
   exists message,
     validateWallet wallet
     = Throw (GanymedeError WALLET_NOT_CONNECTED message None) /\
     validateWalletForTransaction wallet = validateWallet wallet /\
     validateWalletForPayment wallet = validateWallet wallet /\
     getWalletAddress wallet = Throw (GanymedeError WALLET_NOT_CONNECTED message None)) /\
  (ready = true ->
   (canSignTransaction state = false ->
    exists message,
      validateWalletForTransaction wallet
      = Throw (GanymedeError WALLET_SIGNING_FAILED message None)) /\
   (canSignMessage state = false ->
    exists message,
      validateWalletForPayment wallet
      = Throw (GanymedeError WALLET_SIGNING_FAILED message None)) /\
   exists address,
     publicKey wallet = Some address /\ getWalletAddress wallet = Ok address).
Proof.
  unfold getWalletConnectionState, validateWalletForTransaction,
    validateWalletForPayment, getWalletAddress, validateWallet.
  cbn [state_connected publicKeyAvailable canSignTransaction canSignMessage].
  destruct (connected wallet), (publicKey wallet) as [address|],
    (signTransaction wallet), (signMessage wallet); cbn;
    repeat split; intros; try discriminate; try reflexivity; eauto.
Qed.

(** X20. The identifier for logs shows at most eight code units of the
    address: it is 'unknown' for a wallet without a key, and otherwise
    the first four and the last four code units around three dots, so it
    has at most eleven code units; an address of eight code units or more
    (every base58 key) is not shown in full. *)
Theorem wallet_identifier_is_truncated (wallet : WalletAdapter) :
  (publicKey wallet = None -> getWalletIdentifier wallet = lit "unknown") /\
  (forall address,
      publicKey wallet = Some address ->
      getWalletIdentifier wallet
      = firstn 4 address ++ lit "..." ++ last_chars 4 address /\
      (List.length (getWalletIdentifier wallet) <= 11)%nat /\
      ((8 <= List.length address)%nat ->
       List.length (getWalletIdentifier wallet) = 11%nat /\
       exists hidden,
         address = firstn 4 address ++ hidden ++ last_chars 4 address /\
         List.length hidden = (List.length address - 8)%nat)).
Proof.
  unfold getWalletIdentifier. split; [now intros ->|].
  intros address ->. split; [reflexivity|].
  assert (Hlen : forall a b : jsstring,
             List.length (a ++ lit "..." ++ b)
             = (List.length a + 3 + List.length b)%nat).
  { intros a b. rewrite !length_app. cbn. lia. }
  rewrite Hlen. unfold last_chars. rewrite length_firstn, length_skipn.
  split; [lia|]. intros Hlong. split; [lia|].
  exists (firstn (List.length address - 8) (skipn 4 address)). split.
  - rewrite <- (firstn_skipn 4 address) at 1. f_equal.
    rewrite <- (firstn_skipn (List.length address - 8) (skipn 4 address)) at 1.
    f_equal. rewrite skipn_skipn. f_equal. lia.
  - rewrite length_firstn, length_skipn. lia.
Qed.

End WalletChecks.

(** ** The payment receipt *)

Section Receipt.
Import JS X402Fetch X402Receipt.

(** X21. The transaction hash read from a response is never the empty
    string: it is the 'x-payment-response' header when that is present
    and not empty, otherwise the 'x-payment-txhash' header when that is
    present and not empty, and [undefined] otherwise. *)
Theorem extractPaymentTxHash_skips_empty_headers (response : Response) :
  let first := get (lit "x-payment-response") (response_headers response) in
  let second := get (lit "x-payment-txhash") (response_headers response) in
  let usable (h : option jsstring) :=
    match h with Some (_ :: _) => true | _ => false end in
  extractPaymentTxHash response
  = (if usable first then first else if usable second then second else None)
  /\ extractPaymentTxHash response <> Some [].
Proof.
  cbv zeta. unfold extractPaymentTxHash, or_else.
  destruct (get (lit "x-payment-response") _) as [[|c s]|];
    destruct (get (lit "x-payment-txhash") _) as [[|d t]|]; cbn;
    split; try reflexivity; discriminate.
Qed.

End Receipt.

(** ** The client class *)

Section ClientRuns.
Import JS Num Base64 Json Err WalletUtils GanymedeClient.

Variable env : Env.
Variable settings : Settings.

(** [params.mevProtection || params.optimizePriorityFee ||
     params.includeAnalytics] *)
Definition hasPremiumFeatures (params : SwapParams) : bool :=
  flag (mevProtection params) || flag (optimizePriorityFee params)
  || flag (includeAnalytics params).

(** [w'] differs from [w] in the calls of the class at most. *)
Definition only_calls (w w' : World) : Prop :=
  payments w' = payments w /\ ledger w' = ledger w.

Lemma getQuote_state params w : only_calls w (snd (getQuote env params w)).
Proof.
  unfold getQuote, try_catch, bind, perform, throw, ret, only_calls.
  destruct (quoteGet env _ _) as [[q|]|e]; cbn; auto.
  destruct e; cbn; auto.
Qed.

Lemma buildSwap_state params w :
  only_calls w (snd (buildSwap env settings params w)).
Proof.
  unfold buildSwap, bind at 1, lift.
  destruct (validateWallet (the_wallet settings)); [|now split].
  unfold bind at 1. pose proof (getQuote_state params w) as [Hp Hl].
  destruct (getQuote env params w) as [[quote|e] w1]; cbn [snd] in Hp, Hl;
    [|now split].
  unfold only_calls. rewrite <- Hp, <- Hl.
  unfold try_catch, bind, lift, perform, throw, ret.
  destruct (getWalletAddress (the_wallet settings)) as [address|e].
  - destruct (swapPost env _ _ _) as [swapTransaction|e].
    + destruct (deserialize env swapTransaction) as [tx|e]; cbn; auto.
      destruct e; cbn; auto.
    + destruct e; cbn; auto.
  - destruct e; cbn; auto.
Qed.

(** X22. The free tier is free. When no premium feature is requested, or
    premium is switched off in the configuration, [getEnhancedSwap] is the
    free [buildSwap]: whatever Jupiter answers, nothing is sent to the
    premium server, the wallet is not asked to sign a payment, the key
    registry is not touched, and the ledger is not called. *)
Theorem free_tier_makes_no_payment (params : SwapParams) (w : World) :
  hasPremiumFeatures params = false \/ premium_enabled settings = false ->
  getEnhancedSwap env settings params w = buildSwap env settings params w /\
  payments (snd (getEnhancedSwap env settings params w)) = payments w /\
  ledger (snd (getEnhancedSwap env settings params w)) = ledger w.
Proof.
  intros Hfree.
  assert (E : getEnhancedSwap env settings params w
              = buildSwap env settings params w).
  { unfold getEnhancedSwap. fold (hasPremiumFeatures params).
    assert (Hb : negb (hasPremiumFeatures params)
                 || negb (premium_enabled settings) = true)
      by (destruct Hfree as [-> | ->]; [reflexivity | apply orb_true_r]).
    rewrite Hb. unfold buildSwap, bind at 1 3, lift.
    now destruct (validateWallet (the_wallet settings)). }
  split; [exact E|]. rewrite E. apply buildSwap_state.
Qed.

(** X23. Every operation that needs the wallet checks it before anything
    else. With a wallet that is not connected, or has no public key,
    [buildSwap], [getEnhancedSwap], [executeSwap] and [swap] all throw
    the WALLET_NOT_CONNECTED error of [validateWallet] and do nothing:
    no quote is asked, nothing is sent, signed or submitted. *)
Theorem operations_check_the_wallet_first
        (params : SwapParams) (result : SwapResult) (w : World) (e : thrown) :
  validateWallet (the_wallet settings) = Throw e ->
  buildSwap env settings params w = (Throw e, w) /\
  getEnhancedSwap env settings params w = (Throw e, w) /\
  executeSwap settings result w = (Throw e, w) /\
  swap env settings params w = (Throw e, w).
Proof.
  intros Hbad.
  assert (E : getEnhancedSwap env settings params w = (Throw e, w)).
  { unfold getEnhancedSwap, bind, lift. now rewrite Hbad. }
  repeat split.
  - unfold buildSwap, bind at 1, lift. now rewrite Hbad.
  - exact E.
  - unfold executeSwap, bind, lift. now rewrite Hbad.
  - unfold swap, bind at 1. now rewrite E.
Qed.

(** X24. With a wallet that passes the check and signs, [executeSwap]
    is the retry loop run on what the wallet signed: the wallet is asked
    once, the latest blockhash is fetched after that, and the ledger
    calls that follow are those of [sendTransactionWithRetry] for the
    signed transaction, with the height of the blockhash just fetched as
    the deadline (not that of the blockhash the transaction was built
    with). The loop's transaction id and its GanymedeErrors (expiry
    among them) come out as they are; any other error is wrapped into
    SWAP_FAILED 'Failed to execute swap: <message>'. *)
Theorem executeSwap_runs_the_retry_loop
        (result : SwapResult) (w : World)
        (sign : list WalletUtils.transaction -> WalletUtils.transaction
                -> Err.result WalletUtils.transaction)
        (signed : WalletUtils.transaction) (fresh : Client.BlockhashData) :
  validateWallet (the_wallet settings) = Ok tt ->
  signTransaction (the_wallet settings) = Some sign ->
  sign (signing_requests (calls w)) (transaction result) = Ok signed ->
  Client.latestBlockhash (the_connection settings) (ledger w) = Ok fresh ->
  let run :=
    Client.sendTransactionWithRetry (the_connection settings) signed fresh
      (ledger w ++ [Client.GetLatestBlockhash (Ok fresh)]) in
  snd (executeSwap settings result w)
  = {| payments := payments w;
       ledger := snd run;
       calls := calls w ++ [SignTransaction (transaction result) (Ok signed)] |}
  /\
  (forall txid, fst run = Ok txid ->
                fst (executeSwap settings result w) = Ok txid) /\
  (forall code message cause,
      fst run = Throw (GanymedeError code message cause) ->
      fst (executeSwap settings result w)
      = Throw (GanymedeError code message cause)) /\
  (forall name message,
      fst run = Throw (JsError name message) ->
      fst (executeSwap settings result w)
      = Throw (GanymedeError SWAP_FAILED
                 (lit "Failed to execute swap: " ++ message)
                 (Some (JsError name message)))).
Proof.
  intros Hvalid Hsign Hsigned Hfresh run.
  assert (E : executeSwap settings result w
              = (match fst run with
                 | Ok txid => Ok txid
                 | Throw Unmodelled => Throw Unmodelled
                 | Throw e =>
                     Throw (if is_GanymedeError e then e
                            else GanymedeError SWAP_FAILED
                                   (lit "Failed to execute swap: "
                                      ++ message_of e) (Some e))
                 end,
                 {| payments := payments w;
                    ledger := snd run;
                    calls := calls w
                             ++ [SignTransaction (transaction result)
                                   (Ok signed)] |})).
  { unfold executeSwap, bind at 1, lift. rewrite Hvalid, Hsign.
    unfold try_catch, bind, perform, on_ledger, Client.getLatestBlockhash,
      Client.perform.
    rewrite Hsigned. cbn [ledger payments calls]. rewrite Hfresh.
    fold run. destruct run as [[txid|e] l]; cbn [fst snd]; [reflexivity|].
    destruct e; cbn [is_GanymedeError]; reflexivity. }
  rewrite E. clear E.
  split; [|split; [|split]].
  - reflexivity.
  - now intros txid ->.
  - now intros code message cause ->.
  - now intros name message ->.
Qed.

(** X25. A premium swap is one call of the payment wrapper and nothing
    else. When the wallet passes the check, a premium feature is
    requested and premium is on, [getEnhancedSwap] calls the wrapper once,
    for POST [<apiEndpoint>/v1/swap/enhanced], with
    [config.maxPaymentPerSwap] as the limit and the client's wallet as
    the signer; the client itself calls neither Jupiter nor the ledger.
    What the wrapper throws (limit exceeded, declined, network) comes out
    unchanged, and an answer that is not ok is turned into SWAP_FAILED
    'Premium swap request failed: <status> <body text>'. *)
Theorem premium_swap_is_one_wrapper_call (params : SwapParams) (w : World) :
  validateWallet (the_wallet settings) = Ok tt ->
  hasPremiumFeatures params = true ->
  premium_enabled settings = true ->
  let paid :=
    X402Fetch.wrapFetchWithPayment (net env) (as_signable (the_wallet settings))
      {| X402Fetch.maxPayment := the_maxPaymentPerSwap settings;
         X402Fetch.network := Some (the_network settings);
         X402Fetch.timeout := None;
         X402Fetch.enableIdempotency := None |}
      (the_apiEndpoint settings ++ lit "/v1/swap/enhanced")
      {| X402Fetch.method := Some (lit "POST");
         X402Fetch.init_headers :=
           [ (lit "Content-Type", lit "application/json");
             (lit "Accept", lit "application/json") ] |}
      (payments w) in
  snd (getEnhancedSwap env settings params w)
  = {| payments := snd paid; ledger := ledger w; calls := calls w |} /\
  (forall code message cause,
      fst paid = Throw (GanymedeError code message cause) ->
      fst (getEnhancedSwap env settings params w)
      = Throw (GanymedeError code message cause)) /\
  (forall response,
      fst paid = Ok response -> X402Fetch.ok response = false ->
      fst (getEnhancedSwap env settings params w)
      = Throw (GanymedeError SWAP_FAILED
                 (lit "Premium swap request failed: "
                    ++ string_of_Z (X402Fetch.status response)
                    ++ lit " " ++ X402Fetch.text response) None)).
Proof.
  intros Hvalid Hpremium Hon paid.
  assert (Haddress : exists address,
             getWalletAddress (the_wallet settings) = Ok address).
  { unfold getWalletAddress. rewrite Hvalid. revert Hvalid.
    unfold validateWallet. destruct (connected (the_wallet settings));
      [|discriminate].
    destruct (publicKey (the_wallet settings)) as [address|];
      [eauto | discriminate]. }
  destruct Haddress as [address Haddress].
  assert (E : getEnhancedSwap env settings params w
              = fetchPremiumSwap env settings params w).
  { unfold getEnhancedSwap, bind at 1, lift. rewrite Hvalid.
    fold (hasPremiumFeatures params). now rewrite Hpremium, Hon. }
  rewrite E. clear E.
  assert (E : exists answer : X402Fetch.Response -> Err.result SwapResult,
             fetchPremiumSwap env settings params w
             = (match fst paid with
                | Ok response =>
                    if negb (X402Fetch.ok response)
                    then Throw (GanymedeError SWAP_FAILED
                                  (lit "Premium swap request failed: "
                                     ++ string_of_Z (X402Fetch.status response)
                                     ++ lit " " ++ X402Fetch.text response)
                                  None)
                    else answer response
                | Throw Unmodelled => Throw Unmodelled
                | Throw e =>
                    Throw (if is_GanymedeError e then e
                           else GanymedeError NETWORK_ERROR
                                  (lit "Failed to fetch premium swap: "
                                     ++ message_of e) (Some e))
                end,
                {| payments := snd paid; ledger := ledger w;
                   calls := calls w |})).
  { exists (fun response =>
              fst (try_catch
                     (bind (lift (match parse (X402Fetch.text response) with
                                  | Some v => Ok v
                                  | None => Throw SyntaxError
                                  end))
                        (fun data =>
                           bind (lift (X402Fetch.prop data (lit "swapTransaction")))
                             (fun swapTransaction =>
                                bind (lift (deserialize_property env swapTransaction))
                                  (fun tx =>
                                     bind (lift (X402Fetch.prop data (lit "quote")))
                                       (fun q =>
                                          bind (lift (X402Fetch.prop data (lit "mevAnalysis")))
                                            (fun mev =>
                                               bind (lift (X402Fetch.prop data (lit "recommendedPriorityFee")))
                                                 (fun fee =>
                                                    bind (lift (X402Fetch.prop data (lit "routeAnalytics")))
                                                      (fun analytics =>
                                                         ret {| transaction := tx; quote := q;
                                                                mevAnalysis := mev;
                                                                recommendedPriorityFee := fee;
                                                                routeAnalytics := analytics;
                                                                paymentTxHash :=
                                                                  X402Receipt.extractPaymentTxHash response |}))))))))
                     (fun error =>
                        if is_GanymedeError error then throw error
                        else throw (GanymedeError NETWORK_ERROR
                                      (lit "Failed to fetch premium swap: "
                                         ++ message_of error) (Some error)))
                     w)).
    unfold fetchPremiumSwap. unfold try_catch, bind at 1, lift.
    rewrite Haddress. unfold bind at 1, on_payments.
    change (paidFetch env settings (premium_url settings) premium_init
              (payments w)) with paid.
    destruct paid as [[response|e] s1]; cbn [fst snd].
    - destruct (X402Fetch.ok response) eqn:Hok; cbn [negb]; [|reflexivity].
      unfold bind, lift, ret.
      destruct (parse (X402Fetch.text response)) as [data|]; [|reflexivity].
      destruct (X402Fetch.prop data (lit "swapTransaction")) as [st|e];
        [|destruct e; reflexivity].
      destruct (deserialize_property env st) as [tx|e];
        [|destruct e; reflexivity].
      destruct (X402Fetch.prop data (lit "quote")) as [q|e];
        [|destruct e; reflexivity].
      destruct (X402Fetch.prop data (lit "mevAnalysis")) as [m|e];
        [|destruct e; reflexivity].
      destruct (X402Fetch.prop data (lit "recommendedPriorityFee")) as [f|e];
        [|destruct e; reflexivity].
      destruct (X402Fetch.prop data (lit "routeAnalytics")) as [a|e];
        [|destruct e; reflexivity].
      reflexivity.
    - destruct e; reflexivity. }
  destruct E as [answer ->]. cbn [fst snd].
  split; [reflexivity|]. split.
  - now intros code message cause ->.
  - now intros response -> ->.
Qed.

End ClientRuns.

(** A client with the default configuration on the wallet of the wrapper
    scenario, and one on a wallet that is not connected. *)
Module ClientScenario.
Import JS Num Base64 Json Err WalletUtils GanymedeClient.

Definition signed (tx : WalletUtils.transaction) : WalletUtils.transaction :=
  (1 :: repeat 7 64 ++ tx)%N.

Definition wallet : WalletAdapter :=
  {| connected := true;
     publicKey := Some WrapperScenario.payer;
     signMessage := Some (fun _ _ => Ok WrapperScenario.signature);
     signTransaction := Some (fun _ tx => Ok (signed tx)) |}.

Definition offline : WalletAdapter :=
  {| connected := false; publicKey := None;
     signMessage := None; signTransaction := None |}.

Definition settings (w : WalletAdapter) : Settings :=
  constructor {| GanymedeClient.wallet := w;
                 connection := SecondAttemptScenario.connection;
                 apiEndpoint := None; enablePremium := None;
                 maxPaymentPerSwap := None; network := None |}.

Definition route : json :=
  JObj [ (lit "inAmount", JStr (lit "1000000000"));
         (lit "outAmount", JStr (lit "150000000")) ].

Definition env (first : result X402Fetch.Response) : Env :=
  {| net := WrapperScenario.answering first (Ok WrapperScenario.premium);
     quoteGet := fun _ _ => Ok (Some route);
     swapPost := fun _ _ _ => Ok (lit "AQID");
     deserialize := fun s =>
       match atob s with
       | Some b => Ok b
       | None => Throw (JsError (lit "Error") (lit "Invalid transaction"))
       end |}.

Definition params (premium : bool) : SwapParams :=
  {| inputMint := lit "So11111111111111111111111111111111111111112";
     outputMint := lit "EPjFWdd5AufqSSqeM2qN1xzybapC8G4wEGGkZwyTDt1v";
     amount := of_Z 1000000000;
     slippageBps := None;
     mevProtection := Some premium;
     optimizePriorityFee := None;
     includeAnalytics := None |}.

Definition start : World :=
  {| payments := WrapperScenario.start; ledger := []; calls := [] |}.

Definition built : SwapResult :=
  {| transaction := [1; 2; 3]%N; quote := Some route;
     mevAnalysis := None; recommendedPriorityFee := None;
     routeAnalytics := None; paymentTxHash := None |}.

End ClientScenario.

Lemma free_tier_makes_no_payment_witness :
  GanymedeClient.getEnhancedSwap
    (ClientScenario.env (Err.Ok WrapperScenario.unavailable))
    (ClientScenario.settings ClientScenario.wallet)
    (ClientScenario.params false) ClientScenario.start
  = GanymedeClient.buildSwap
      (ClientScenario.env (Err.Ok WrapperScenario.unavailable))
      (ClientScenario.settings ClientScenario.wallet)
      (ClientScenario.params false) ClientScenario.start /\
  GanymedeClient.payments
    (snd (GanymedeClient.getEnhancedSwap
            (ClientScenario.env (Err.Ok WrapperScenario.unavailable))
            (ClientScenario.settings ClientScenario.wallet)
            (ClientScenario.params false) ClientScenario.start))
  = WrapperScenario.start /\
  GanymedeClient.ledger
    (snd (GanymedeClient.getEnhancedSwap
            (ClientScenario.env (Err.Ok WrapperScenario.unavailable))
            (ClientScenario.settings ClientScenario.wallet)
            (ClientScenario.params false) ClientScenario.start))
  = [].
Proof.
  apply (@free_tier_makes_no_payment
           (ClientScenario.env (Err.Ok WrapperScenario.unavailable))
           (ClientScenario.settings ClientScenario.wallet)
           (ClientScenario.params false) ClientScenario.start).
  left. reflexivity.
Defined.

Lemma operations_check_the_wallet_first_witness :
  GanymedeClient.swap
    (ClientScenario.env (Err.Ok WrapperScenario.unavailable))
    (ClientScenario.settings ClientScenario.offline)
    (ClientScenario.params true) ClientScenario.start
  = (Err.Throw
       (Err.GanymedeError Err.WALLET_NOT_CONNECTED
          (JS.lit "Wallet is not connected. Please connect your wallet first.")
          None),
     ClientScenario.start).
Proof.
  refine (proj2 (proj2 (proj2
            (@operations_check_the_wallet_first
               (ClientScenario.env (Err.Ok WrapperScenario.unavailable))
               (ClientScenario.settings ClientScenario.offline)
               (ClientScenario.params true) ClientScenario.built
               ClientScenario.start _ _)))).
  reflexivity.
Defined.

Lemma executeSwap_runs_the_retry_loop_witness :
  fst (GanymedeClient.executeSwap
         (ClientScenario.settings ClientScenario.wallet)
         ClientScenario.built ClientScenario.start)
  = Err.Ok SecondAttemptScenario.txid.
Proof.
  refine (proj1 (proj2
            (@executeSwap_runs_the_retry_loop
               (ClientScenario.settings ClientScenario.wallet)
               ClientScenario.built ClientScenario.start
               (fun _ tx => Err.Ok (ClientScenario.signed tx))
               (ClientScenario.signed [1; 2; 3]%N)
               SecondAttemptScenario.fresh _ _ _ _))
            SecondAttemptScenario.txid _).
  - reflexivity.
  - reflexivity.
  - reflexivity.
  - reflexivity.
  - vm_compute. reflexivity.
Defined.

Lemma premium_swap_is_one_wrapper_call_witness :
  fst (GanymedeClient.getEnhancedSwap
         (ClientScenario.env (Err.Ok WrapperScenario.unavailable))
         (ClientScenario.settings ClientScenario.wallet)
         (ClientScenario.params true) ClientScenario.start)
  = Err.Throw
      (Err.GanymedeError Err.SWAP_FAILED
         (JS.lit "Premium swap request failed: 503 Service Unavailable")
         None).
Proof.
  refine (eq_trans
            (proj2 (proj2
               (@premium_swap_is_one_wrapper_call
                  (ClientScenario.env (Err.Ok WrapperScenario.unavailable))
                  (ClientScenario.settings ClientScenario.wallet)
                  (ClientScenario.params true) ClientScenario.start _ _ _))
               WrapperScenario.unavailable _ _) _).
  - reflexivity.
  - reflexivity.
  - reflexivity.
  - vm_compute. reflexivity.
  - reflexivity.
  - vm_compute. reflexivity.
Defined.
